(** * Special forms of the Janet bytecode compiler (src/core/specials.c)

    A shallow embedding of the special-form handlers [quote], [:=], [def],
    [var], [if], [while] and [fn], of the destructuring engine and of
    [janetc_addfuncdef], followed by the properties the specification states
    about them.

    The compiler object [JanetCompiler *c] that every C function receives is
    threaded explicitly: a C function [T f(JanetCompiler *c, args)] becomes
    [f args c : T * JanetCompiler].  A handler that can stop the process
    (a failed [janet_assert], a store through a label that is not in the
    instruction buffer, a store into the header of a vector that is still
    NULL) returns an [option]: [None] is that outcome. *)

From stdpp Require Import base numbers list strings.

Local Open Scope Z_scope.
Local Set Warnings "-register-all".

(** ** Values *)

(** The variants of [Janet] the handlers inspect.  [JFunction] stands for the
    remaining variants (functions, buffers, reals, ...), which the handlers
    only ever meet in a [default:] arm.  A table or struct is its backing
    storage: an array of [capacity] key/value slots in which an unused slot
    has a nil key ([janet_dictionary_view] hands out exactly that array). *)
Inductive Janet : Type :=
| JNil
| JBoolean (b : bool)
| JInteger (n : Z)
| JString (s : string)
| JSymbol (s : string)
| JArray (values : list Janet)
| JTuple (values : list Janet)
| JTable (kvs : list (Janet * Janet)) (proto : Janet)
| JStruct (kvs : list (Janet * Janet))
| JFunction (id : Z).

Definition janet_wrap_nil : Janet := JNil.
Definition janet_wrap_true : Janet := JBoolean true.
Definition janet_wrap_integer (i : Z) : Janet := JInteger i.
Definition janet_csymbolv (s : string) : Janet := JSymbol s.

(** A [JanetTable *]: the storage and the prototype ([JNil] for a NULL
    prototype). *)
Record JanetTable : Type := mkTable
  { t_data : list (Janet * Janet);
    t_proto : Janet }.

Definition janet_wrap_table (t : JanetTable) : Janet :=
  JTable (t_data t) (t_proto t).

(** [tab->proto = attr], where [attr] may be NULL. *)
Definition table_set_proto (tab : JanetTable) (attr : option JanetTable) : JanetTable :=
  {| t_data := t_data tab;
     t_proto := match attr with
                | Some a => janet_wrap_table a
                | None => JNil
                end |}.

(** Modelled from the spec: [janet_truthy] of janet.h, "nil and boolean-false
    are the only falsy values, everything else, including zero and empty
    collections, is truthy". *)
Definition janet_truthy (x : Janet) : bool :=
  match x with
  | JNil => false
  | JBoolean b => b
  | _ => true
  end.

(** ** Slots, options, function definitions, scopes, the compiler *)

Record JanetSlot : Type := mkSlot
  { s_index : Z;
    s_envindex : Z;
    s_flags : Z;
    s_constant : Janet }.

Definition slot_set_flags (s : JanetSlot) (f : Z) : JanetSlot :=
  {| s_index := s_index s; s_envindex := s_envindex s;
     s_flags := f; s_constant := s_constant s |}.

(** [JanetFopts] without its [compiler] field, which is the threaded state. *)
Record JanetFopts : Type := mkFopts
  { fo_flags : Z;
    fo_hint : JanetSlot }.

Definition fopts_set_flags (o : JanetFopts) (f : Z) : JanetFopts :=
  {| fo_flags := f; fo_hint := fo_hint o |}.

Inductive JanetFuncDef : Type := mkFuncDef
  { fd_flags : Z;
    fd_arity : Z;
    fd_slotcount : Z;
    fd_name : option string;
    fd_bytecode : list Z;
    fd_defs : list JanetFuncDef }.

Definition funcdef_set_flags (d : JanetFuncDef) (f : Z) : JanetFuncDef :=
  mkFuncDef f (fd_arity d) (fd_slotcount d) (fd_name d) (fd_bytecode d) (fd_defs d).
Definition funcdef_set_arity (d : JanetFuncDef) (a : Z) : JanetFuncDef :=
  mkFuncDef (fd_flags d) a (fd_slotcount d) (fd_name d) (fd_bytecode d) (fd_defs d).
Definition funcdef_set_slotcount (d : JanetFuncDef) (n : Z) : JanetFuncDef :=
  mkFuncDef (fd_flags d) (fd_arity d) n (fd_name d) (fd_bytecode d) (fd_defs d).
Definition funcdef_set_name (d : JanetFuncDef) (n : string) : JanetFuncDef :=
  mkFuncDef (fd_flags d) (fd_arity d) (fd_slotcount d) (Some n) (fd_bytecode d) (fd_defs d).

(** Modelled from the spec: the register allocator of a scope, "a free/used
    bitmap" with "a total-slot-count high-water mark".  Its operations are
    collaborators (below). *)
Record JanetcRegisterAllocator : Type := mkRA
  { ra_used : list bool;
    ra_max : Z }.

(** A [JanetScope] without its [parent] link: the chain of scopes is the
    list [c_scope c :: c_parents c] of the compiler, innermost first, and
    [scope->parent] is the next record of that list. *)
Record JanetScope : Type := mkScope
  { sc_name : string;
    sc_flags : Z;
    sc_ra : JanetcRegisterAllocator;
    sc_defs : list JanetFuncDef;
    sc_syms : list (string * JanetSlot);
    sc_bytecode_start : Z }.

Definition scope_set_flags (s : JanetScope) (f : Z) : JanetScope :=
  {| sc_name := sc_name s; sc_flags := f; sc_ra := sc_ra s;
     sc_defs := sc_defs s; sc_syms := sc_syms s;
     sc_bytecode_start := sc_bytecode_start s |}.
Definition scope_set_ra (s : JanetScope) (ra : JanetcRegisterAllocator) : JanetScope :=
  {| sc_name := sc_name s; sc_flags := sc_flags s; sc_ra := ra;
     sc_defs := sc_defs s; sc_syms := sc_syms s;
     sc_bytecode_start := sc_bytecode_start s |}.
Definition scope_set_defs (s : JanetScope) (defs : list JanetFuncDef) : JanetScope :=
  {| sc_name := sc_name s; sc_flags := sc_flags s; sc_ra := sc_ra s;
     sc_defs := defs; sc_syms := sc_syms s;
     sc_bytecode_start := sc_bytecode_start s |}.

Inductive JanetCompileStatus : Type :=
| JANET_COMPILE_OK
| JANET_COMPILE_ERROR.

Record JanetCompileResult : Type := mkResult
  { r_status : JanetCompileStatus;
    r_error : string }.

(** The compiler.  [c->scope] is never NULL while a handler runs (the driver
    opens the root scope before it dispatches any form), so the current scope
    is a field of its own and its ancestors follow in [c_parents].
    [c_buffer] holds the [uint32_t] instruction words, [c_mapbuffer] the
    source mapping of each.  Both are vectors of vector.h: a pointer that is
    NULL until the first push allocates it.  [c_buffer_null] and
    [c_mapbuffer_null] say whether [c->buffer] and [c->mapbuffer] still are
    NULL; a vector that was allocated stays so when its count goes back to
    zero. *)
Record JanetCompiler : Type := mkCompiler
  { c_scope : JanetScope;
    c_parents : list JanetScope;
    c_buffer : list Z;
    c_mapbuffer : list (Z * Z);
    c_current_mapping : Z * Z;
    c_env : JanetTable;
    c_result : JanetCompileResult;
    c_buffer_null : bool;
    c_mapbuffer_null : bool }.

Definition set_scope (s : JanetScope) (c : JanetCompiler) : JanetCompiler :=
  mkCompiler s (c_parents c) (c_buffer c) (c_mapbuffer c)
    (c_current_mapping c) (c_env c) (c_result c) (c_buffer_null c) (c_mapbuffer_null c).
Definition set_parents (ps : list JanetScope) (c : JanetCompiler) : JanetCompiler :=
  mkCompiler (c_scope c) ps (c_buffer c) (c_mapbuffer c)
    (c_current_mapping c) (c_env c) (c_result c) (c_buffer_null c) (c_mapbuffer_null c).
Definition set_buffer (b : list Z) (c : JanetCompiler) : JanetCompiler :=
  mkCompiler (c_scope c) (c_parents c) b (c_mapbuffer c)
    (c_current_mapping c) (c_env c) (c_result c) (c_buffer_null c) (c_mapbuffer_null c).
Definition set_mapbuffer (m : list (Z * Z)) (c : JanetCompiler) : JanetCompiler :=
  mkCompiler (c_scope c) (c_parents c) (c_buffer c) m
    (c_current_mapping c) (c_env c) (c_result c) (c_buffer_null c) (c_mapbuffer_null c).
Definition set_env (e : JanetTable) (c : JanetCompiler) : JanetCompiler :=
  mkCompiler (c_scope c) (c_parents c) (c_buffer c) (c_mapbuffer c)
    (c_current_mapping c) e (c_result c) (c_buffer_null c) (c_mapbuffer_null c).
Definition set_result (r : JanetCompileResult) (c : JanetCompiler) : JanetCompiler :=
  mkCompiler (c_scope c) (c_parents c) (c_buffer c) (c_mapbuffer c)
    (c_current_mapping c) (c_env c) r (c_buffer_null c) (c_mapbuffer_null c).

(** [janet_v_push] on [c->buffer] and on [c->mapbuffer] leaves an allocated
    vector behind. *)
Definition set_allocated (c : JanetCompiler) : JanetCompiler :=
  mkCompiler (c_scope c) (c_parents c) (c_buffer c) (c_mapbuffer c)
    (c_current_mapping c) (c_env c) (c_result c) false false.

Definition status_is_error (c : JanetCompiler) : bool :=
  match r_status (c_result c) with
  | JANET_COMPILE_ERROR => true
  | JANET_COMPILE_OK => false
  end.

(** ** Machine integers and bit sets *)

(** [flags & mask] as a C condition. *)
Definition has_flag (flags mask : Z) : bool := negb (Z.land flags mask =? 0).

(** Conversion of an [int32_t] expression to the [uint32_t] of an
    instruction word. *)
Definition to_u32 (x : Z) : Z := x mod 2 ^ 32.

(** [janet_v_count(v)]. *)
Definition janet_v_count {A : Type} (v : list A) : Z := Z.of_nat (length v).

(** [janet_v__cnt(v) = n], a store into the header that precedes the
    elements of [v].  A NULL vector has no header and the store goes through
    a wild pointer: [None].  An allocated vector keeps its first [n]
    elements; a count beyond the elements written would expose storage that
    was never initialised: [None] as well. *)
Definition janet_v_set_cnt {A : Type} (n : Z) (null : bool) (v : list A)
  : option (list A) :=
  if null then None
  else if (0 <=? n) && (n <=? janet_v_count v)
       then Some (take (Z.to_nat n) v)
       else None.

(** [buffer[label] |= x], [x] an [int32_t] expression; a label outside the
    buffer is an out-of-bounds store: [None]. *)
Definition buffer_or (label : Z) (x : Z) (buffer : list Z) : option (list Z) :=
  if label <? 0 then None
  else match buffer !! Z.to_nat label with
       | Some w => Some (<[Z.to_nat label := Z.lor w (to_u32 x)]> buffer)
       | None => None
       end.

(** [argn] and [argv[i]].  Every [argv[i]] of the source is guarded by a test
    on [argn]; outside the array the model reads nil. *)
Definition argn (argv : list Janet) : Z := Z.of_nat (length argv).
Definition arg (argv : list Janet) (i : Z) : Janet :=
  if i <? 0 then JNil else default JNil (argv !! Z.to_nat i).

(** ** Tables of named entries *)

(** Modelled from the spec: [janet_strbinsearch] of util.c, the
    "lookup-by-name operation over the fixed, lexicographically-sorted
    table".  It is a binary search on an array of [tabcount] entries that
    start with their name: [while (low < hi)] it compares the key with the
    name of the entry in the middle, bytewise, and goes on in the lower or
    the upper half.  [hi - low] shrinks in every round, so [tabcount] rounds
    are enough; [rounds] counts them down.  NULL is [None]. *)
Fixpoint strbinsearch_loop {T : Type} (rounds : nat) (tab : list (string * T))
  (low hi : nat) (key : string) : option (string * T) :=
  match rounds with
  | O => None
  | S rounds' =>
      if (low <? hi)%nat then
        let mid := (low + (hi - low) / 2)%nat in
        match tab !! mid with
        | None => None
        | Some item =>
            match String.compare key (fst item) with
            | Lt => strbinsearch_loop rounds' tab low mid key
            | Gt => strbinsearch_loop rounds' tab (mid + 1) hi key
            | Eq => Some item
            end
        end
      else None
  end.

Definition janet_strbinsearch {T : Type} (tab : list (string * T)) (tabcount : nat)
  (key : string) : option (string * T) :=
  strbinsearch_loop tabcount tab 0 tabcount key.

(** ** What specials.c takes from its headers *)

(** The flag bits, type tags and opcodes that specials.c uses by name.  Their
    values live in janet.h, compile.h and emit.h; the handlers never depend
    on them, so they stay parameters.  Properties that need two masks to be
    disjoint say so. *)
Class Constants : Type :=
  { JANET_FOPTS_TAIL : Z;
    JANET_FOPTS_HINT : Z;
    JANET_FOPTS_DROP : Z;
    JANET_SLOT_CONSTANT : Z;
    JANET_SLOT_NAMED : Z;
    JANET_SLOT_MUTABLE : Z;
    JANET_SLOT_RETURNED : Z;
    JANET_SCOPE_FUNCTION : Z;
    JANET_SCOPE_TOP : Z;
    JANET_SCOPE_UNUSED : Z;
    JANET_SCOPE_CLOSURE : Z;
    JANET_FUNCDEF_FLAG_VARARG : Z;
    JANET_FUNCDEF_FLAG_FIXARITY : Z;
    JANET_FUNCTION : Z;
    JANETC_REGTEMP_0 : Z;
    JOP_GET_INDEX : Z;
    JOP_GET : Z;
    JOP_PUT_INDEX : Z;
    JOP_PUT : Z;
    JOP_JUMP : Z;
    JOP_JUMP_IF : Z;
    JOP_JUMP_IF_NOT : Z;
    JOP_RETURN_NIL : Z;
    JOP_LOAD_SELF : Z;
    JOP_TAILCALL : Z;
    JOP_CLOSURE : Z;
    JOP_CALL : Z }.

(** The functions of compile.c, emit.c, regalloc.c and the runtime that the
    handlers call.  Each takes the compiler state and returns the new one
    next to its C result.  [janetc_value] is the generic dispatcher, which
    calls back into the handlers for nested special forms. *)
Class Collaborators : Type :=
  { janetc_cslot : Janet -> JanetSlot;
    janetc_fopts_default : JanetFopts;
    janetc_value : JanetFopts -> Janet -> JanetCompiler -> JanetSlot * JanetCompiler;
    janetc_resolve : string -> JanetCompiler -> JanetSlot * JanetCompiler;
    janetc_gettarget : JanetFopts -> JanetCompiler -> JanetSlot * JanetCompiler;
    janetc_farslot : JanetCompiler -> JanetSlot * JanetCompiler;
    janetc_freeslot : JanetSlot -> JanetCompiler -> JanetCompiler;
    janetc_nameslot : string -> JanetSlot -> JanetCompiler -> JanetCompiler;
    janetc_copy : JanetSlot -> JanetSlot -> JanetCompiler -> JanetCompiler;
    janetc_emit_s : Z -> JanetSlot -> Z -> JanetCompiler -> Z * JanetCompiler;
    janetc_emit_si : Z -> JanetSlot -> Z -> Z -> JanetCompiler -> Z * JanetCompiler;
    janetc_emit_su : Z -> JanetSlot -> Z -> Z -> JanetCompiler -> Z * JanetCompiler;
    janetc_emit_ssu :
      Z -> JanetSlot -> JanetSlot -> Z -> Z -> JanetCompiler -> Z * JanetCompiler;
    janetc_emit_sss :
      Z -> JanetSlot -> JanetSlot -> JanetSlot -> Z -> JanetCompiler -> Z * JanetCompiler;
    janetc_scope : Z -> string -> JanetCompiler -> JanetCompiler;
    janetc_popscope : JanetCompiler -> JanetCompiler;
    janetc_popscope_keepslot : JanetSlot -> JanetCompiler -> JanetCompiler;
    janetc_pop_funcdef : JanetCompiler -> JanetFuncDef * JanetCompiler;
    janetc_regalloc_temp : JanetcRegisterAllocator -> Z -> Z * JanetcRegisterAllocator;
    janetc_regalloc_free : JanetcRegisterAllocator -> Z -> JanetcRegisterAllocator;
    janet_table : Z -> JanetTable;
    janet_table_put : JanetTable -> Janet -> Janet -> JanetTable }.

Section Specials.

Context {K : Constants} {X : Collaborators}.

(** Modelled from the spec: [janetc_cerror] of compile.c, which records a
    compile error; "first error wins", so an error already recorded is kept. *)
Definition janetc_cerror (m : string) (c : JanetCompiler) : JanetCompiler :=
  match r_status (c_result c) with
  | JANET_COMPILE_ERROR => c
  | JANET_COMPILE_OK =>
      set_result {| r_status := JANET_COMPILE_ERROR; r_error := m |} c
  end.

(** Modelled from the spec: [janetc_emit] of emit.c, which appends one word
    to the instruction buffer and the current position to the parallel
    source-position buffer. *)
Definition janetc_emit (instr : Z) (c : JanetCompiler) : JanetCompiler :=
  set_allocated
    (set_mapbuffer (c_mapbuffer c ++ [c_current_mapping c])
       (set_buffer (c_buffer c ++ [instr]) c)).

(** Modelled from the spec: [janetc_throwaway] of compile.c, the "throwaway
    compile": the form is compiled with the given options, its result is
    discarded and the instruction and source-position buffers are cut back to
    the lengths they had; whatever error the compilation recorded stays. *)
Definition janetc_throwaway (opts : JanetFopts) (x : Janet) (c : JanetCompiler)
  : JanetCompiler :=
  let bufstart := length (c_buffer c) in
  let mapbufstart := length (c_mapbuffer c) in
  let (_, c) := janetc_value opts x c in
  set_mapbuffer (take mapbufstart (c_mapbuffer c))
    (set_buffer (take bufstart (c_buffer c)) c).

(** [janet_indexed_view]: the elements of an array or tuple. *)
Definition janet_indexed_view (x : Janet) : option (list Janet) :=
  match x with
  | JArray values | JTuple values => Some values
  | _ => None
  end.

(** ** quote *)

Definition janetc_quote (opts : JanetFopts) (argv : list Janet) (c : JanetCompiler)
  : JanetSlot * JanetCompiler :=
  if negb (argn argv =? 1) then
    let c := janetc_cerror "expected 1 argument" c in
    (janetc_cslot janet_wrap_nil, c)
  else (janetc_cslot (arg argv 0), c).

(** ** The destructuring engine *)

Section Destructure.

Variable leaf : string -> JanetSlot -> option JanetTable -> JanetCompiler -> bool * JanetCompiler.
Variable attr : option JanetTable.

(** The two [for] loops are the local fixpoints; [i] counts the elements
    already visited.  The loop over a dictionary runs over all [cap] slots of
    the backing storage. *)
Fixpoint destructure (left : Janet) (right : JanetSlot) (c : JanetCompiler) {struct left}
  : bool * JanetCompiler :=
  match left with
  | JSymbol sym => leaf sym right attr c
  | JTuple values | JArray values =>
      let c :=
        (fix loop (values : list Janet) (i : Z) (c : JanetCompiler) {struct values}
           : JanetCompiler :=
           match values with
           | [] => c
           | subval :: values' =>
               let (nextright, c) := janetc_farslot c in
               let c :=
                 if i <? 256 then snd (janetc_emit_ssu JOP_GET_INDEX nextright right i 1 c)
                 else
                   let k := janetc_cslot (janet_wrap_integer i) in
                   snd (janetc_emit_sss JOP_GET nextright right k 1 c) in
               let (consumed, c) := destructure subval nextright c in
               let c := if consumed then janetc_freeslot nextright c else c in
               loop values' (i + 1) c
           end) values 0 c in
      (true, c)
  | JTable kvs _ | JStruct kvs =>
      let c :=
        (fix loop (kvs : list (Janet * Janet)) (c : JanetCompiler) {struct kvs}
           : JanetCompiler :=
           match kvs with
           | [] => c
           | kv :: kvs' =>
               match fst kv with
               | JNil => loop kvs' c
               | key =>
                   let (nextright, c) := janetc_farslot c in
                   let (k, c) := janetc_value janetc_fopts_default key c in
                   let c := snd (janetc_emit_sss JOP_GET nextright right k 1 c) in
                   let (consumed, c) := destructure (snd kv) nextright c in
                   let c := if consumed then janetc_freeslot nextright c else c in
                   loop kvs' c
               end
           end) kvs c in
      (true, c)
  | _ =>
      let c := janetc_cerror "unexpected type in destructuring" c in
      (true, c)
  end.

End Destructure.

(** ** := *)

Definition janetc_varset (opts : JanetFopts) (argv : list Janet) (c : JanetCompiler)
  : JanetSlot * JanetCompiler :=
  let subopts := janetc_fopts_default in
  if negb (argn argv =? 2) then
    let c := janetc_cerror "expected 2 arguments" c in
    (janetc_cslot janet_wrap_nil, c)
  else
    match arg argv 0 with
    | JSymbol sym =>
        let (dest, c) := janetc_resolve sym c in
        if negb (has_flag (s_flags dest) JANET_SLOT_MUTABLE) then
          let c := janetc_cerror "cannot set constant" c in
          (janetc_cslot janet_wrap_nil, c)
        else
          let subopts := {| fo_flags := JANET_FOPTS_HINT; fo_hint := dest |} in
          let (ret, c) := janetc_value subopts (arg argv 1) c in
          let c := janetc_copy dest ret c in
          (ret, c)
    | _ =>
        let c := janetc_cerror "expected symbol" c in
        (janetc_cslot janet_wrap_nil, c)
    end.

(** ** def and var *)

(** The body of [handleattr]'s loop, over [argv[1] .. argv[argn - 2]]. *)
Fixpoint handleattr_loop (attrs : list Janet) (tab : JanetTable) (c : JanetCompiler)
  : JanetTable * JanetCompiler :=
  match attrs with
  | [] => (tab, c)
  | attr :: attrs' =>
      match attr with
      | JSymbol _ => handleattr_loop attrs' (janet_table_put tab attr janet_wrap_true) c
      | JString _ => handleattr_loop attrs' (janet_table_put tab (janet_csymbolv "doc") attr) c
      | _ =>
          let c := janetc_cerror "could not add metadata to binding" c in
          handleattr_loop attrs' tab c
      end
  end.

Definition handleattr (argv : list Janet) (c : JanetCompiler) : JanetTable * JanetCompiler :=
  let tab := janet_table 2 in
  handleattr_loop (take (length argv - 2)%nat (drop 1 argv)) tab c.

(** The options under which [dohead] compiles the value expression. *)
Definition dohead_subopts (opts : JanetFopts) : JanetFopts :=
  {| fo_flags :=
       Z.land (fo_flags opts) (Z.lnot (Z.lor JANET_FOPTS_TAIL JANET_FOPTS_DROP));
     fo_hint := fo_hint opts |}.

(** [dohead] also stores [argv[0]] through its [head] parameter; neither
    caller reads it back (both pass [argv[0]] to [destructure] themselves). *)
Definition dohead (opts : JanetFopts) (argv : list Janet) (c : JanetCompiler)
  : JanetSlot * JanetCompiler :=
  if argn argv <? 2 then
    let c := janetc_cerror "expected at least 2 arguments" c in
    (janetc_cslot janet_wrap_nil, c)
  else
    let subopts := dohead_subopts opts in
    janetc_value subopts (arg argv (argn argv - 1)) c.

(** The local [isUnnamedRegister] of [namelocal]. *)
Definition isUnnamedRegister (ret : JanetSlot) : bool :=
  negb (has_flag (s_flags ret) JANET_SLOT_NAMED)
  && (0 <? s_index ret) && (0 <=? s_envindex ret).

Definition namelocal (head : string) (flags : Z) (ret : JanetSlot) (c : JanetCompiler)
  : bool * JanetCompiler :=
  let isUnnamedRegister := isUnnamedRegister ret in
  let (ret, c) :=
    if negb isUnnamedRegister then
      let (localslot, c) := janetc_farslot c in
      let c := janetc_copy localslot ret c in
      (localslot, c)
    else (ret, c) in
  let ret := slot_set_flags ret (Z.lor (s_flags ret) flags) in
  let c := janetc_nameslot head ret c in
  (negb isUnnamedRegister, c).

Definition varleaf (sym : string) (s : JanetSlot) (attr : option JanetTable)
  (c : JanetCompiler) : bool * JanetCompiler :=
  if has_flag (sc_flags (c_scope c)) JANET_SCOPE_TOP then
    let reftab := janet_table 1 in
    let reftab := table_set_proto reftab attr in
    let ref := JArray [janet_wrap_nil] in
    let reftab := janet_table_put reftab (janet_csymbolv ":ref") ref in
    let c := set_env (janet_table_put (c_env c) (JSymbol sym) (janet_wrap_table reftab)) c in
    let refslot := janetc_cslot ref in
    let (_, c) := janetc_emit_ssu JOP_PUT_INDEX refslot s 0 0 c in
    (true, c)
  else namelocal sym JANET_SLOT_MUTABLE s c.

Definition janetc_var (opts : JanetFopts) (argv : list Janet) (c : JanetCompiler)
  : JanetSlot * JanetCompiler :=
  let (ret, c) := dohead opts argv c in
  if status_is_error c then (janetc_cslot janet_wrap_nil, c)
  else
    let (attr, c) := handleattr argv c in
    let (consumed, c) := destructure varleaf (Some attr) (arg argv 0) ret c in
    let c := if consumed then janetc_freeslot ret c else c in
    (janetc_cslot janet_wrap_nil, c).

Definition defleaf (sym : string) (s : JanetSlot) (attr : option JanetTable)
  (c : JanetCompiler) : bool * JanetCompiler :=
  if has_flag (sc_flags (c_scope c)) JANET_SCOPE_TOP then
    let tab := janet_table 2 in
    let tab := table_set_proto tab attr in
    let valsym := janetc_cslot (janet_csymbolv ":value") in
    let tabslot := janetc_cslot (janet_wrap_table tab) in
    let c := set_env (janet_table_put (c_env c) (JSymbol sym) (janet_wrap_table tab)) c in
    let (_, c) := janetc_emit_sss JOP_PUT tabslot valsym s 0 c in
    (true, c)
  else namelocal sym 0 s c.

Definition janetc_def (opts : JanetFopts) (argv : list Janet) (c : JanetCompiler)
  : JanetSlot * JanetCompiler :=
  let opts := fopts_set_flags opts (Z.land (fo_flags opts) (Z.lnot JANET_FOPTS_HINT)) in
  let (ret, c) := dohead opts argv c in
  if status_is_error c then (janetc_cslot janet_wrap_nil, c)
  else
    let (attr, c) := handleattr argv c in
    let (consumed, c) := destructure defleaf (Some attr) (arg argv 0) ret c in
    let c := if consumed then janetc_freeslot ret c else c in
    (janetc_cslot janet_wrap_nil, c).

(** ** if *)

Definition janetc_if (opts : JanetFopts) (argv : list Janet) (c : JanetCompiler)
  : option (JanetSlot * JanetCompiler) :=
  let tail := has_flag (fo_flags opts) JANET_FOPTS_TAIL in
  let drop := has_flag (fo_flags opts) JANET_FOPTS_DROP in
  if (argn argv <? 2) || (3 <? argn argv) then
    let c := janetc_cerror "expected 2 or 3 arguments to if" c in
    Some (janetc_cslot janet_wrap_nil, c)
  else
    (* Get the bodies of the if expression *)
    let truebody := arg argv 1 in
    let falsebody := if 2 <? argn argv then arg argv 2 else janet_wrap_nil in
    (* Get options *)
    let condopts := janetc_fopts_default in
    let bodyopts := opts in
    (* Set target for compilation *)
    let (target, c) :=
      if drop || tail then (janetc_cslot janet_wrap_nil, c)
      else janetc_gettarget opts c in
    (* Compile condition *)
    let c := janetc_scope 0 "if" c in
    let (cond, c) := janetc_value condopts (arg argv 0) c in
    (* Check constant condition. *)
    if has_flag (s_flags cond) JANET_SLOT_CONSTANT then
      let (truebody, falsebody) :=
        if negb (janet_truthy (s_constant cond))
        then (falsebody, truebody)      (* Swap the true and false bodies *)
        else (truebody, falsebody) in
      let c := janetc_scope 0 "if-body" c in
      let (target, c) := janetc_value bodyopts truebody c in
      let c := janetc_popscope c in
      let c := janetc_popscope c in
      let c := janetc_throwaway bodyopts falsebody c in
      Some (target, c)
    else
      (* Compile jump to right *)
      let (labeljr, c) := janetc_emit_si JOP_JUMP_IF_NOT cond 0 0 c in
      (* Condition left body *)
      let c := janetc_scope 0 "if-true" c in
      let (left, c) := janetc_value bodyopts truebody c in
      let c := if negb drop && negb tail then janetc_copy target left c else c in
      let c := janetc_popscope c in
      (* Compile jump to done *)
      let labeljd := janet_v_count (c_buffer c) in
      let c := if negb tail then janetc_emit JOP_JUMP c else c in
      (* Compile right body *)
      let labelr := janet_v_count (c_buffer c) in
      let c := janetc_scope 0 "if-false" c in
      let (right, c) := janetc_value bodyopts falsebody c in
      let c := if negb drop && negb tail then janetc_copy target right c else c in
      let c := janetc_popscope c in
      (* Pop main scope *)
      let c := janetc_popscope c in
      (* Write jumps - only add jump lengths if jump actually emitted *)
      let labeld := janet_v_count (c_buffer c) in
      match buffer_or labeljr (Z.shiftl (labelr - labeljr) 16) (c_buffer c) with
      | None => None
      | Some b =>
          let c := set_buffer b c in
          match
            (if negb tail
             then buffer_or labeljd (Z.shiftl (labeld - labeljd) 8) (c_buffer c)
             else Some (c_buffer c))
          with
          | None => None
          | Some b =>
              let c := set_buffer b c in
              let target :=
                if tail
                then slot_set_flags target (Z.lor (s_flags target) JANET_SLOT_RETURNED)
                else target in
              Some (target, c)
          end
      end.

(** ** do *)

(** The loop [for (i = 0; i < argn; i++)]: every form but the last is
    compiled with its result dropped and freed, the last with the caller's
    options. *)
Fixpoint do_body (opts subopts : JanetFopts) (ret : JanetSlot) (forms : list Janet)
  (c : JanetCompiler) : JanetSlot * JanetCompiler :=
  match forms with
  | [] => (ret, c)
  | x :: forms' =>
      match forms' with
      | [] => janetc_value opts x c
      | _ =>
          let subopts := fopts_set_flags subopts JANET_FOPTS_DROP in
          let (ret, c) := janetc_value subopts x c in
          let c := janetc_freeslot ret c in
          do_body opts subopts ret forms' c
      end
  end.

Definition janetc_do (opts : JanetFopts) (argv : list Janet) (c : JanetCompiler)
  : JanetSlot * JanetCompiler :=
  let ret := janetc_cslot janet_wrap_nil in
  let subopts := janetc_fopts_default in
  let c := janetc_scope 0 "do" c in
  let (ret, c) := do_body opts subopts ret argv c in
  let c := janetc_popscope_keepslot ret c in
  (ret, c).

(** ** janetc_addfuncdef *)

(** The walk [while (scope) { if (scope->flags & JANET_SCOPE_FUNCTION) break;
    scope = scope->parent; }] over a chain of scopes, innermost first, and
    the push of [def] onto the scope it stops at.  The result is the index
    [janet_v_count(scope->defs) - 1] and the chain with that scope updated;
    [None] is the failed [janet_assert] when the walk falls off the chain. *)
Fixpoint addfuncdef_walk (def : JanetFuncDef) (chain : list JanetScope)
  : option (Z * list JanetScope) :=
  match chain with
  | [] => None
  | scope :: parents =>
      if has_flag (sc_flags scope) JANET_SCOPE_FUNCTION then
        let defs := sc_defs scope ++ [def] in
        Some (janet_v_count defs - 1, scope_set_defs scope defs :: parents)
      else
        match addfuncdef_walk def parents with
        | Some (i, parents') => Some (i, scope :: parents')
        | None => None
        end
  end.

Definition janetc_addfuncdef (def : JanetFuncDef) (c : JanetCompiler)
  : option (Z * JanetCompiler) :=
  match addfuncdef_walk def (c_scope c :: c_parents c) with
  | Some (i, scope :: parents) => Some (i, set_parents parents (set_scope scope c))
  | _ => None
  end.

(** ** while *)

(** The loop [for (i = 1; i < argn; i++)] over the body forms; it leaves
    [JANET_FOPTS_DROP] in [subopts.flags]. *)
Fixpoint while_body (subopts : JanetFopts) (body : list Janet) (c : JanetCompiler)
  : JanetCompiler :=
  match body with
  | [] => c
  | x :: body' =>
      let subopts := fopts_set_flags subopts JANET_FOPTS_DROP in
      let (s, c) := janetc_value subopts x c in
      let c := janetc_freeslot s c in
      while_body subopts body' c
  end.

(** The part of [janetc_while] from [/* Compile function */] to the
    [return] of the closure branch: the loop function is finalized,
    registered, instantiated and called. *)
Definition while_closure (c : JanetCompiler) : option (JanetSlot * JanetCompiler) :=
  let (def, c) := janetc_pop_funcdef c in
  let def := funcdef_set_name def "_while" in
  match janetc_addfuncdef def c with
  | None => None
  | Some (defindex, c) =>
      (* And then load the closure and call it. *)
      let (cloreg, ra) := janetc_regalloc_temp (sc_ra (c_scope c)) JANETC_REGTEMP_0 in
      let c := set_scope (scope_set_ra (c_scope c) ra) c in
      let c :=
        janetc_emit
          (to_u32 (Z.lor (Z.lor JOP_CLOSURE (Z.shiftl cloreg 8)) (Z.shiftl defindex 16))) c in
      let c :=
        janetc_emit
          (to_u32 (Z.lor (Z.lor JOP_CALL (Z.shiftl cloreg 8)) (Z.shiftl cloreg 16))) c in
      let c :=
        set_scope
          (scope_set_ra (c_scope c) (janetc_regalloc_free (sc_ra (c_scope c)) cloreg)) c in
      let c :=
        set_scope
          (scope_set_flags (c_scope c) (Z.lor (sc_flags (c_scope c)) JANET_SCOPE_CLOSURE))
          c in
      Some (janetc_cslot janet_wrap_nil, c)
  end.

(** [tempscope] is the record that [janetc_scope] has just linked as
    [c->scope]; the collaborators close every scope they open, so while the
    handler runs [tempscope.flags] and [tempscope.ra] are those of
    [c_scope c]. *)
Definition janetc_while (opts : JanetFopts) (argv : list Janet) (c : JanetCompiler)
  : option (JanetSlot * JanetCompiler) :=
  let subopts := janetc_fopts_default in
  if argn argv <? 2 then
    let c := janetc_cerror "expected at least 2 arguments" c in
    Some (janetc_cslot janet_wrap_nil, c)
  else
    let labelwt := janet_v_count (c_buffer c) in
    let c := janetc_scope 0 "while" c in
    (* Compile condition *)
    let (cond, c) := janetc_value subopts (arg argv 0) c in
    (* Check for constant condition *)
    if has_flag (s_flags cond) JANET_SLOT_CONSTANT
       && negb (janet_truthy (s_constant cond)) then
      (* Loop never executes *)
      let c := janetc_popscope c in
      Some (janetc_cslot janet_wrap_nil, c)
    else
      let infinite := has_flag (s_flags cond) JANET_SLOT_CONSTANT in
      (* Infinite loop does not need to check condition *)
      let (labelc, c) :=
        if infinite then (0, c)
        else janetc_emit_si JOP_JUMP_IF_NOT cond 0 0 c in
      (* Compile body *)
      let c := while_body subopts (drop 1 argv) c in
      let subopts := fopts_set_flags subopts JANET_FOPTS_DROP in
      (* Check if closure created in while scope. If so,
         recompile in a function scope. *)
      if has_flag (sc_flags (c_scope c)) JANET_SCOPE_CLOSURE then
        let c :=
          set_scope
            (scope_set_flags (c_scope c) (Z.lor (sc_flags (c_scope c)) JANET_SCOPE_UNUSED))
            c in
        let c := janetc_popscope c in
        match janet_v_set_cnt labelwt (c_buffer_null c) (c_buffer c),
              janet_v_set_cnt labelwt (c_mapbuffer_null c) (c_mapbuffer c) with
        | Some b, Some m =>
            let c := set_mapbuffer m (set_buffer b c) in
            let c := janetc_scope JANET_SCOPE_FUNCTION "while-iife" c in
            (* Recompile in the function scope *)
            let (cond, c) := janetc_value subopts (arg argv 0) c in
            let c :=
              if negb (has_flag (s_flags cond) JANET_SLOT_CONSTANT) then
                (* If not an infinte loop, return nil when condition false *)
                let (_, c) := janetc_emit_si JOP_JUMP_IF cond 2 0 c in
                janetc_emit JOP_RETURN_NIL c
              else c in
            let c := while_body subopts (drop 1 argv) c in
            (* But now add tail recursion *)
            let (tempself, ra) := janetc_regalloc_temp (sc_ra (c_scope c)) JANETC_REGTEMP_0 in
            let c := set_scope (scope_set_ra (c_scope c) ra) c in
            let c := janetc_emit (to_u32 (Z.lor JOP_LOAD_SELF (Z.shiftl tempself 8))) c in
            let c := janetc_emit (to_u32 (Z.lor JOP_TAILCALL (Z.shiftl tempself 8))) c in
            (* Compile function *)
            while_closure c
        | _, _ => None
        end
      else
        (* Compile jump to whiletop *)
        let labeljt := janet_v_count (c_buffer c) in
        let c := janetc_emit JOP_JUMP c in
        (* Calculate jumps *)
        let labeld := janet_v_count (c_buffer c) in
        match
          (if negb infinite
           then buffer_or labelc (Z.shiftl (labeld - labelc) 16) (c_buffer c)
           else Some (c_buffer c))
        with
        | None => None
        | Some b =>
            let c := set_buffer b c in
            match buffer_or labeljt (Z.shiftl (labelwt - labeljt) 8) (c_buffer c) with
            | None => None
            | Some b =>
                let c := set_buffer b c in
                (* Pop scope and return nil slot *)
                let c := janetc_popscope c in
                Some (janetc_cslot janet_wrap_nil, c)
            end
        end.

(** ** fn *)

(** The exits [error:] and [error2:] of [janetc_fn]. *)
Definition fn_error2 (c : JanetCompiler) : JanetSlot * JanetCompiler :=
  let c := janetc_popscope c in
  (janetc_cslot janet_wrap_nil, c).

Definition fn_error (errmsg : string) (c : JanetCompiler) : JanetSlot * JanetCompiler :=
  let c := janetc_cerror errmsg c in
  fn_error2 c.

(** The loop [for (i = 0; i < paramcount; i++)] over the parameters still to
    be read, with the running [varargs] and [arity].  [inl] is the
    [goto error] with its message. *)
Fixpoint fn_params (params : list Janet) (i paramcount : Z) (varargs arity : Z)
  (c : JanetCompiler) : string * JanetCompiler + Z * Z * JanetCompiler :=
  match params with
  | [] => inr (varargs, arity, c)
  | param :: params' =>
      match param with
      | JSymbol sym =>
          (* Check for varargs *)
          if String.eqb sym "&" then
            if negb (i =? paramcount - 2) then
              inl ("variable argument symbol in unexpected location"%string, c)
            else fn_params params' (i + 1) paramcount 1 (arity - 1) c
          else
            let (slot, c) := janetc_farslot c in
            let c := janetc_nameslot sym slot c in
            fn_params params' (i + 1) paramcount varargs (arity + 1) c
      | _ =>
          let (slot, c) := janetc_farslot c in
          let (_, c) := destructure defleaf None param slot c in
          fn_params params' (i + 1) paramcount varargs (arity + 1) c
      end
  end.

(** The loop [for (argi = parami + 1; argi < argn; argi++)] over the body
    forms; the last one is compiled in tail position.  [false] is the
    [goto error2]. *)
Fixpoint fn_body (subopts : JanetFopts) (forms : list Janet) (c : JanetCompiler)
  : bool * JanetCompiler :=
  match forms with
  | [] => (true, c)
  | x :: forms' =>
      let subopts :=
        fopts_set_flags subopts
          (match forms' with
           | [] => JANET_FOPTS_TAIL
           | _ => JANET_FOPTS_DROP
           end) in
      let (_, c) := janetc_value subopts x c in
      if status_is_error c then (false, c)
      else fn_body subopts forms' c
  end.

(** The stores into [def] between [janetc_pop_funcdef] and the closure
    instruction: arity, vararg or fixed-arity flag, name and slot count.
    In the source the store to [def->slotcount] follows [janetc_addfuncdef];
    [scope->defs] holds the pointer [def], so that store is seen through the
    list as well, and the definition that ends up registered is the one with
    the raised slot count. *)
Definition fn_finalize (def : JanetFuncDef) (paramv : Janet) (selfref : option string)
  (varargs arity : Z) : JanetFuncDef :=
  let def := funcdef_set_arity def arity in
  (* Tuples indicated fixed arity, arrays indicate flexible arity *)
  let def :=
    if negb (varargs =? 0) then
      funcdef_set_flags def (Z.lor (fd_flags def) JANET_FUNCDEF_FLAG_VARARG)
    else
      match paramv with
      | JTuple _ => funcdef_set_flags def (Z.lor (fd_flags def) JANET_FUNCDEF_FLAG_FIXARITY)
      | _ => def
      end in
  let def :=
    match selfref with
    | Some name => funcdef_set_name def name
    | None => def
    end in
  (* Ensure enough slots for vararg function. *)
  if fd_slotcount def <? arity + varargs
  then funcdef_set_slotcount def (arity + varargs)
  else def.

(** The part of [janetc_fn] from [/* Build function */] on. *)
Definition fn_build (opts : JanetFopts) (paramv : Janet) (selfref : option string)
  (varargs arity : Z) (c : JanetCompiler) : option (JanetSlot * JanetCompiler) :=
  let (def, c) := janetc_pop_funcdef c in
  let def := fn_finalize def paramv selfref varargs arity in
  match janetc_addfuncdef def c with
  | None => None
  | Some (defindex, c) =>
      (* Instantiate closure *)
      let (ret, c) := janetc_gettarget opts c in
      let (_, c) := janetc_emit_su JOP_CLOSURE ret defindex 1 c in
      Some (ret, c)
  end.

Definition janetc_fn (opts : JanetFopts) (argv : list Janet) (c : JanetCompiler)
  : option (JanetSlot * JanetCompiler) :=
  let subopts := janetc_fopts_default in
  (* Begin function *)
  let c :=
    set_scope
      (scope_set_flags (c_scope c) (Z.lor (sc_flags (c_scope c)) JANET_SCOPE_CLOSURE)) c in
  let c := janetc_scope JANET_SCOPE_FUNCTION "function" c in
  if argn argv <? 2 then
    Some (fn_error "expected at least 2 arguments to function literal" c)
  else
    (* Read function parameters *)
    let head := arg argv 0 in
    let selfref := match head with JSymbol name => Some name | _ => None end in
    let parami := match selfref with Some _ => 1 | None => 0 end in
    if argn argv <=? parami then
      Some (fn_error "expected function parameters" c)
    else
      let paramv := arg argv parami in
      match janet_indexed_view paramv with
      | None => Some (fn_error "expected function parameters" c)
      | Some params =>
          match fn_params params 0 (janet_v_count params) 0 0 c with
          | inl (errmsg, c) => Some (fn_error errmsg c)
          | inr (varargs, arity, c) =>
              (* Check for self ref *)
              let c :=
                match selfref with
                | Some name =>
                    let (slot, c) := janetc_farslot c in
                    let slot := slot_set_flags slot (Z.lor JANET_SLOT_NAMED JANET_FUNCTION) in
                    let (_, c) := janetc_emit_s JOP_LOAD_SELF slot 1 c in
                    janetc_nameslot name slot c
                | None => c
                end in
              (* Compile function body *)
              let (ok, c) :=
                if parami + 1 =? argn argv
                then (true, janetc_emit JOP_RETURN_NIL c)
                else fn_body subopts (drop (Z.to_nat (parami + 1)) argv) c in
              if negb ok then Some (fn_error2 c)
              else fn_build opts paramv selfref varargs arity c
          end
      end.

(** ** The table of specials *)

Definition JanetSpecial : Type :=
  string * (JanetFopts -> list Janet -> JanetCompiler -> option (JanetSlot * JanetCompiler)).

(* Keep in lexicographic order *)
Definition janetc_specials : list JanetSpecial :=
  [ (":=", fun opts argv c => Some (janetc_varset opts argv c));
    ("def", fun opts argv c => Some (janetc_def opts argv c));
    ("do", fun opts argv c => Some (janetc_do opts argv c));
    ("fn", janetc_fn);
    ("if", janetc_if);
    ("quote", fun opts argv c => Some (janetc_quote opts argv c));
    ("var", fun opts argv c => Some (janetc_var opts argv c));
    ("while", janetc_while) ]%string.

(** Find a special: the binary search over the table, whose length is
    [sizeof(janetc_specials)/sizeof(JanetSpecial)]. *)
Definition janetc_special (name : string) : option JanetSpecial :=
  janet_strbinsearch janetc_specials (length janetc_specials) name.

End Specials.

(** * Reference collaborators

    Modelled from the spec: the headers and compile.c, emit.c and regalloc.c
    are not among the sources, so the handlers are run on concrete forms
    against a small executable stand-in for them.  What the specification
    says of the collaborators is built in: flags that form bit sets, scopes
    that are pushed and popped with the CLOSURE flag propagated to the
    parent, far registers taken from the allocator of the current scope,
    names resolved innermost scope first, a dispatcher that sends a form
    whose head names a special to its handler.  Where it says nothing (the
    encoding of operands, which register is handed out) the simplest choice
    is made; no property above the examples depends on it. *)
Module Reference.

(** Modelled from the spec: the constants of the headers, one bit per flag
    of a bit set and one byte per opcode. *)
Definition constants : Constants :=
  {| JANET_FOPTS_TAIL := 0x10000;
     JANET_FOPTS_HINT := 0x20000;
     JANET_FOPTS_DROP := 0x40000;
     JANET_SLOT_CONSTANT := 0x10000;
     JANET_SLOT_NAMED := 0x20000;
     JANET_SLOT_MUTABLE := 0x40000;
     JANET_SLOT_RETURNED := 0x100000;
     JANET_SCOPE_FUNCTION := 1;
     JANET_SCOPE_TOP := 4;
     JANET_SCOPE_UNUSED := 8;
     JANET_SCOPE_CLOSURE := 16;
     JANET_FUNCDEF_FLAG_VARARG := 0x10000;
     JANET_FUNCDEF_FLAG_FIXARITY := 0x40000;
     JANET_FUNCTION := 13;
     JANETC_REGTEMP_0 := 0;
     JOP_GET_INDEX := 0x31;
     JOP_GET := 0x2F;
     JOP_PUT_INDEX := 0x32;
     JOP_PUT := 0x30;
     JOP_JUMP := 0x19;
     JOP_JUMP_IF := 0x1A;
     JOP_JUMP_IF_NOT := 0x1B;
     JOP_RETURN_NIL := 0x04;
     JOP_LOAD_SELF := 0x27;
     JOP_TAILCALL := 0x34;
     JOP_CLOSURE := 0x2B;
     JOP_CALL := 0x33 |}.

#[local] Existing Instance constants.

Definition JOP_MOVE_NEAR : Z := 0x17.

(** Modelled from the spec: [janetc_cslot], a slot that wraps "an embedded
    compile-time constant" and carries the CONSTANT attribute. *)
Definition cslot (x : Janet) : JanetSlot :=
  {| s_index := -1; s_envindex := -1; s_flags := JANET_SLOT_CONSTANT; s_constant := x |}.

(** Modelled from the spec: [janetc_fopts_default], the "default options"
    constructor: no flag, no hint. *)
Definition fopts_default : JanetFopts := {| fo_flags := 0; fo_hint := cslot JNil |}.

(** The lowest free register of a bitmap, marked used. *)
Fixpoint ra_alloc (used : list bool) : nat * list bool :=
  match used with
  | [] => (0%nat, [true])
  | false :: used' => (0%nat, true :: used')
  | true :: used' => let (n, u) := ra_alloc used' in (S n, true :: u)
  end.

Definition regalloc_1 (ra : JanetcRegisterAllocator) : Z * JanetcRegisterAllocator :=
  let (n, used) := ra_alloc (ra_used ra) in
  (Z.of_nat n, {| ra_used := used; ra_max := Z.max (ra_max ra) (Z.of_nat n) |}).

Definition regalloc_free (ra : JanetcRegisterAllocator) (reg : Z) : JanetcRegisterAllocator :=
  {| ra_used := <[Z.to_nat reg := false]> (ra_used ra); ra_max := ra_max ra |}.

(** The temporaries are the registers from 0xF0 on, outside the bitmap. *)
Definition regalloc_temp (ra : JanetcRegisterAllocator) (nth : Z)
  : Z * JanetcRegisterAllocator := (0xF0 + nth, ra).

(** Modelled from the spec: [janetc_farslot], "allocate a fresh far register
    in the current function scope". *)
Definition farslot (c : JanetCompiler) : JanetSlot * JanetCompiler :=
  let (reg, ra) := regalloc_1 (sc_ra (c_scope c)) in
  ({| s_index := reg; s_envindex := -1; s_flags := 0; s_constant := JNil |},
   set_scope (scope_set_ra (c_scope c) ra) c).

(** Modelled from the spec: [janetc_freeslot], "mark a register free for
    reuse"; constants, named slots and slots of another frame stay. *)
Definition freeslot (s : JanetSlot) (c : JanetCompiler) : JanetCompiler :=
  if has_flag (s_flags s) (Z.lor JANET_SLOT_CONSTANT JANET_SLOT_NAMED)
     || (s_index s <? 0) || (0 <=? s_envindex s)
  then c
  else set_scope (scope_set_ra (c_scope c) (regalloc_free (sc_ra (c_scope c)) (s_index s))) c.

(** Modelled from the spec: [janetc_nameslot], "bind a name to a slot in
    the current scope". *)
Definition nameslot (sym : string) (s : JanetSlot) (c : JanetCompiler) : JanetCompiler :=
  let s := slot_set_flags s (Z.lor (s_flags s) JANET_SLOT_NAMED) in
  let sc := c_scope c in
  set_scope
    {| sc_name := sc_name sc; sc_flags := sc_flags sc; sc_ra := sc_ra sc;
       sc_defs := sc_defs sc; sc_syms := (sym, s) :: sc_syms sc;
       sc_bytecode_start := sc_bytecode_start sc |} c.

Fixpoint lookup_sym (sym : string) (chain : list JanetScope) : option JanetSlot :=
  match chain with
  | [] => None
  | sc :: chain' =>
      match List.find (fun p => String.eqb (fst p) sym) (sc_syms sc) with
      | Some p => Some (snd p)
      | None => lookup_sym sym chain'
      end
  end.

(** Modelled from the spec: [janetc_resolve], "resolve a name to a slot
    (fails with an unbound-name condition if absent in any enclosing scope,
    searching innermost-first)". *)
Definition resolve (sym : string) (c : JanetCompiler) : JanetSlot * JanetCompiler :=
  match lookup_sym sym (c_scope c :: c_parents c) with
  | Some s => (s, c)
  | None => (cslot JNil, janetc_cerror "unknown symbol" c)
  end.

(** The register field of an operand: a constant goes through a temporary. *)
Definition reg (s : JanetSlot) : Z :=
  if s_index s <? 0 then 0xF0 else Z.land (s_index s) 0xFF.

(** Modelled from the spec: the emitters of emit.c append the instruction
    and return its position; the operands sit "at fixed bit offsets within
    the instruction word". *)
Definition emit_word (w : Z) (c : JanetCompiler) : Z * JanetCompiler :=
  (janet_v_count (c_buffer c), janetc_emit (to_u32 w) c).

Definition emit_s (op : Z) (s : JanetSlot) (wr : Z) : JanetCompiler -> Z * JanetCompiler :=
  emit_word (Z.lor op (Z.shiftl (reg s) 8)).
Definition emit_si (op : Z) (s : JanetSlot) (imm wr : Z) : JanetCompiler -> Z * JanetCompiler :=
  emit_word (Z.lor (Z.lor op (Z.shiftl (reg s) 8)) (Z.shiftl imm 16)).
Definition emit_ssu (op : Z) (s1 s2 : JanetSlot) (imm wr : Z)
  : JanetCompiler -> Z * JanetCompiler :=
  emit_word (Z.lor (Z.lor (Z.lor op (Z.shiftl (reg s1) 8)) (Z.shiftl (reg s2) 16))
               (Z.shiftl imm 24)).
Definition emit_sss (op : Z) (s1 s2 s3 : JanetSlot) (wr : Z)
  : JanetCompiler -> Z * JanetCompiler :=
  emit_word (Z.lor (Z.lor (Z.lor op (Z.shiftl (reg s1) 8)) (Z.shiftl (reg s2) 16))
               (Z.shiftl (reg s3) 24)).

(** Modelled from the spec: [janetc_copy], "copy one slot's value into
    another (target) slot, emitting a move instruction unless both refer to
    the same storage". *)
Definition copy (dest src : JanetSlot) (c : JanetCompiler) : JanetCompiler :=
  if (s_index dest =? s_index src) && (0 <=? s_index dest) then c
  else snd (emit_word (Z.lor (Z.lor JOP_MOVE_NEAR (Z.shiftl (reg dest) 8))
                         (Z.shiftl (reg src) 16)) c).

(** Modelled from the spec: [janetc_gettarget], the target slot of the
    options: the hinted register when a usable hint is in force, a fresh
    register otherwise. *)
Definition gettarget (opts : JanetFopts) (c : JanetCompiler) : JanetSlot * JanetCompiler :=
  let hint := fo_hint opts in
  if has_flag (fo_flags opts) JANET_FOPTS_HINT
     && (s_envindex hint <? 0) && (0 <=? s_index hint) && (s_index hint <=? 0xFF)
  then (hint, c)
  else farslot c.

(** Modelled from the spec: [janetc_scope], "push a scope"; a function
    scope starts with an allocator of its own ("register indices are local
    to it"). *)
Definition scope (flags : Z) (name : string) (c : JanetCompiler) : JanetCompiler :=
  let ra :=
    if has_flag flags JANET_SCOPE_FUNCTION
    then {| ra_used := []; ra_max := 0 |}
    else sc_ra (c_scope c) in
  set_parents (c_scope c :: c_parents c)
    (set_scope
       {| sc_name := name; sc_flags := flags; sc_ra := ra; sc_defs := [];
          sc_syms := []; sc_bytecode_start := janet_v_count (c_buffer c) |} c).

(** Modelled from the spec: [janetc_popscope], "pop propagating the CLOSURE
    flag to the parent"; a function scope or a scope marked UNUSED hands
    nothing to its parent. *)
Definition popscope (c : JanetCompiler) : JanetCompiler :=
  match c_parents c with
  | [] => c
  | newscope :: parents =>
      let oldscope := c_scope c in
      let newscope :=
        if has_flag (sc_flags oldscope) (Z.lor JANET_SCOPE_FUNCTION JANET_SCOPE_UNUSED)
        then newscope
        else
          scope_set_ra
            (scope_set_flags newscope
               (Z.lor (sc_flags newscope)
                  (Z.land (sc_flags oldscope) JANET_SCOPE_CLOSURE)))
            {| ra_used := ra_used (sc_ra newscope);
               ra_max := Z.max (ra_max (sc_ra newscope)) (ra_max (sc_ra oldscope)) |} in
      set_parents parents (set_scope newscope c)
  end.

(** Modelled from the spec: [janetc_pop_funcdef], which turns the current
    function scope into a FuncDef ("the emitted instruction sequence, the
    list of nested FuncDefs it references by index, and a slot count") and
    closes the scope. *)
Definition pop_funcdef (c : JanetCompiler) : JanetFuncDef * JanetCompiler :=
  let sc := c_scope c in
  let start := Z.to_nat (sc_bytecode_start sc) in
  let def :=
    mkFuncDef 0 0 (ra_max (sc_ra sc) + 1) None (drop start (c_buffer c)) (sc_defs sc) in
  let c := set_mapbuffer (take start (c_mapbuffer c)) (set_buffer (take start (c_buffer c)) c) in
  (def, popscope c).

(** Modelled from the spec: [janet_table] and [janet_table_put] on the
    backing storage: a put takes the first unused slot. *)
Definition table (capacity : Z) : JanetTable :=
  {| t_data := replicate (Z.to_nat capacity) (JNil, JNil); t_proto := JNil |}.

Fixpoint kvs_put (kvs : list (Janet * Janet)) (k v : Janet) : list (Janet * Janet) :=
  match kvs with
  | [] => [(k, v)]
  | (JNil, _) :: kvs' => (k, v) :: kvs'
  | kv :: kvs' => kv :: kvs_put kvs' k v
  end.

Definition table_put (t : JanetTable) (k v : Janet) : JanetTable :=
  {| t_data := kvs_put (t_data t) k v; t_proto := t_proto t |}.

(** The collaborators around a given dispatcher. *)
Definition collaborators
  (value : JanetFopts -> Janet -> JanetCompiler -> JanetSlot * JanetCompiler)
  : Collaborators :=
  {| janetc_cslot := cslot;
     janetc_fopts_default := fopts_default;
     janetc_value := value;
     janetc_resolve := resolve;
     janetc_gettarget := gettarget;
     janetc_farslot := farslot;
     janetc_freeslot := freeslot;
     janetc_nameslot := nameslot;
     janetc_copy := copy;
     janetc_emit_s := emit_s;
     janetc_emit_si := emit_si;
     janetc_emit_su := emit_si;
     janetc_emit_ssu := emit_ssu;
     janetc_emit_sss := emit_sss;
     janetc_scope := scope;
     janetc_popscope := popscope;
     janetc_popscope_keepslot := fun _ => popscope;
     janetc_pop_funcdef := pop_funcdef;
     janetc_regalloc_temp := regalloc_temp;
     janetc_regalloc_free := regalloc_free;
     janet_table := table;
     janet_table_put := table_put |}.

(** Modelled from the spec: the generic expression compiler on forms that
    are not special.  A symbol is resolved unless it starts with a colon, a
    tuple is a call into the target register, anything else is a constant;
    nothing is compiled once an error is recorded. *)
Definition leaf_value (opts : JanetFopts) (x : Janet) (c : JanetCompiler)
  : JanetSlot * JanetCompiler :=
  if status_is_error c then (cslot JNil, c)
  else
    match x with
    | JSymbol sym =>
        if String.prefix ":" sym then (cslot x, c) else resolve sym c
    | JTuple _ =>
        let (target, c) := gettarget opts c in
        let op := if has_flag (fo_flags opts) JANET_FOPTS_TAIL then JOP_TAILCALL else JOP_CALL in
        let (_, c) := emit_s op target 1 c in
        (target, c)
    | _ => (cslot x, c)
    end.

(** Modelled from the spec: the dispatcher [janetc_value], which
    "recognizes a form whose head symbol matches a registered special and
    delegates to that special's handler".  The handler gets the dispatcher
    one level down for its sub-forms; a handler that stops is reported as a
    compile error. *)
Fixpoint value (depth : nat) (opts : JanetFopts) (x : Janet) (c : JanetCompiler)
  : JanetSlot * JanetCompiler :=
  match depth with
  | O => leaf_value opts x c
  | S depth' =>
      match x with
      | JTuple (JSymbol name :: argv) =>
          if status_is_error c then (cslot JNil, c)
          else
            match janetc_special (X := collaborators (value depth')) name with
            | Some special =>
                match snd special opts argv c with
                | Some r => r
                | None => (cslot JNil, janetc_cerror "compiler stopped" c)
                end
            | None => leaf_value opts x c
            end
      | _ => leaf_value opts x c
      end
  end.

(** A compiler inside a function body, with nothing emitted yet, and one at
    the top level. *)
Definition local : JanetCompiler :=
  {| c_scope :=
       {| sc_name := "root"; sc_flags := JANET_SCOPE_FUNCTION;
          sc_ra := {| ra_used := []; ra_max := 0 |}; sc_defs := [];
          sc_syms := []; sc_bytecode_start := 0 |};
     c_parents := [];
     c_buffer := [];
     c_mapbuffer := [];
     c_current_mapping := (0, 0);
     c_env := {| t_data := []; t_proto := JNil |};
     c_result := {| r_status := JANET_COMPILE_OK; r_error := "" |};
     c_buffer_null := true;
     c_mapbuffer_null := true |}.

Definition top : JanetCompiler :=
  set_scope
    (scope_set_flags (c_scope local) (Z.lor JANET_SCOPE_FUNCTION JANET_SCOPE_TOP)) local.

(** The collaborators with the dispatcher of a given depth. *)
Definition X (depth : nat) : Collaborators := collaborators (value depth).

(** A dispatcher that only reports, as a compile error, whether the options
    it was called with carry the hint flag. *)
Definition hint_probe (opts : JanetFopts) (x : Janet) (c : JanetCompiler)
  : JanetSlot * JanetCompiler :=
  (cslot JNil,
   janetc_cerror
     (if has_flag (fo_flags opts) JANET_FOPTS_HINT
      then "value compiled with hint"
      else "value compiled without hint") c).

(** Options of a caller that passes a hint (register 5) and asks for a tail
    call. *)
Definition hinted_tail : JanetFopts :=
  {| fo_flags := Z.lor JANET_FOPTS_HINT JANET_FOPTS_TAIL;
     fo_hint := {| s_index := 5; s_envindex := -1; s_flags := 0; s_constant := JNil |} |}.

(** A compiler that has one call behind it, and one that is about to
    close a function opened inside a [do]. *)
Definition after_call : JanetCompiler :=
  snd (emit_s JOP_CALL (cslot JNil) 1 local).

Definition in_function : JanetCompiler :=
  scope JANET_SCOPE_FUNCTION "function" (scope 0 "do" after_call).

(** The opcode of an instruction word, and whether a word is one of the two
    jumps of an ordinary loop. *)
Definition opcode (w : Z) : Z := Z.land w 0xFF.

Definition is_loop_jump (w : Z) : bool :=
  (opcode w =? JOP_JUMP) || (opcode w =? JOP_JUMP_IF_NOT).

(** Sample forms: calls of [f], [g] and [p], and a symbol that is bound
    nowhere. *)
Definition call_f : Janet := JTuple [JSymbol "f"].
Definition call_g : Janet := JTuple [JSymbol "g"].
Definition call_p : Janet := JTuple [JSymbol "p"].
Definition unbound : Janet := JSymbol "undefined".

(** The function literal [(fn [] 1)]. *)
Definition fn_literal : Janet := JTuple [JSymbol "fn"; JArray []; JInteger 1].

End Reference.

(** * Notions used in the statements *)

Section Notions.

Context {K : Constants} {X : Collaborators}.

(** What [janetc_def] and [janetc_var] do once [dohead] has returned the
    value slot, for the leaf of either. *)
Definition binding_tail
  (leaf : string -> JanetSlot -> option JanetTable -> JanetCompiler -> bool * JanetCompiler)
  (argv : list Janet) (r : JanetSlot * JanetCompiler) : JanetSlot * JanetCompiler :=
  let (ret, c) := r in
  if status_is_error c then (janetc_cslot janet_wrap_nil, c)
  else
    let (attr, c) := handleattr argv c in
    let (consumed, c) := destructure leaf (Some attr) (arg argv 0) ret c in
    let c := if consumed then janetc_freeslot ret c else c in
    (janetc_cslot janet_wrap_nil, c).

(** The patterns [destructure] takes apart: sequences and dictionaries. *)
Definition is_composite (left : Janet) : bool :=
  match left with
  | JArray _ | JTuple _ | JTable _ _ | JStruct _ => true
  | _ => false
  end.

(** The slots of a dictionary's backing storage that hold an entry. *)
Definition live_slots (kvs : list (Janet * Janet)) : list (Janet * Janet) :=
  List.filter (fun kv => match fst kv with JNil => false | _ => true end) kvs.

(** What destructuring does for one entry of a dictionary pattern: a fresh
    register, the key compiled to a slot, a keyed get into the register, the
    value pattern bound against it, and the register released if the binding
    says so. *)
Definition dictionary_step
  (leaf : string -> JanetSlot -> option JanetTable -> JanetCompiler -> bool * JanetCompiler)
  (attr : option JanetTable) (right : JanetSlot) (c : JanetCompiler) (kv : Janet * Janet)
  : JanetCompiler :=
  let (nextright, c) := janetc_farslot c in
  let (k, c) := janetc_value janetc_fopts_default (fst kv) c in
  let c := snd (janetc_emit_sss JOP_GET nextright right k 1 c) in
  let (consumed, c) := destructure leaf attr (snd kv) nextright c in
  if consumed then janetc_freeslot nextright c else c.

(** The position of the parameter list among the arguments of [fn]: after
    the name when the first argument is a symbol. *)
Definition fn_parami (argv : list Janet) : Z :=
  match arg argv 0 with
  | JSymbol _ => 1
  | _ => 0
  end.

Definition vararg_error : string := "variable argument symbol in unexpected location".

Definition is_vararg_marker (param : Janet) : bool :=
  match param with
  | JSymbol sym => String.eqb sym "&"
  | _ => false
  end.

(** The parameters proper, and what the loop over the parameters of [fn]
    does for one of them: a fresh register, which a symbol names and a
    pattern takes apart. *)
Definition is_parameter (param : Janet) : bool := negb (is_vararg_marker param).

Definition bind_param (c : JanetCompiler) (param : Janet) : JanetCompiler :=
  let (slot, c) := janetc_farslot c in
  match param with
  | JSymbol sym => janetc_nameslot sym slot c
  | _ => snd (destructure defleaf None param slot c)
  end.

(** The chain of scopes, innermost first: [c->scope] and what its [parent]
    links reach. *)
Definition chain (c : JanetCompiler) : list JanetScope := c_scope c :: c_parents c.

Definition is_function_scope (s : JanetScope) : bool :=
  has_flag (sc_flags s) JANET_SCOPE_FUNCTION.

(** The invalid forms that the handlers detect themselves, by the name of
    the special: a wrong number of arguments, a target of [:=] that is not a
    symbol or does not resolve to a mutable slot, a parameter list of [fn]
    that is not a sequence or has [&] out of place. *)
Inductive rejected_form : string -> list Janet -> JanetCompiler -> Prop :=
| rejected_quote argv c :
    argn argv <> 1 -> rejected_form "quote" argv c
| rejected_varset_argn argv c :
    argn argv <> 2 -> rejected_form ":=" argv c
| rejected_varset_head argv c :
    argn argv = 2 -> (forall sym, arg argv 0 <> JSymbol sym) ->
    rejected_form ":=" argv c
| rejected_varset_constant argv c sym :
    argn argv = 2 -> arg argv 0 = JSymbol sym ->
    has_flag (s_flags (fst (janetc_resolve sym c))) JANET_SLOT_MUTABLE = false ->
    rejected_form ":=" argv c
| rejected_if argv c :
    argn argv < 2 \/ 3 < argn argv -> rejected_form "if" argv c
| rejected_while argv c :
    argn argv < 2 -> rejected_form "while" argv c
| rejected_def argv c :
    argn argv < 2 -> rejected_form "def" argv c
| rejected_var argv c :
    argn argv < 2 -> rejected_form "var" argv c
| rejected_fn_argn argv c :
    argn argv < 2 -> rejected_form "fn" argv c
| rejected_fn_params argv c :
    2 <= argn argv ->
    janet_indexed_view (arg argv (fn_parami argv)) = None ->
    rejected_form "fn" argv c
| rejected_fn_vararg argv c params (j : nat) :
    2 <= argn argv ->
    janet_indexed_view (arg argv (fn_parami argv)) = Some params ->
    params !! j = Some (JSymbol "&") ->
    Z.of_nat j <> janet_v_count params - 2 ->
    rejected_form "fn" argv c.

(** The elements of a sequence pattern with their indices, counted from
    [i]. *)
Fixpoint indexed_from (i : Z) (values : list Janet) : list (Z * Janet) :=
  match values with
  | [] => []
  | v :: values' => (i, v) :: indexed_from (i + 1) values'
  end.

(** What destructuring does for the element at index [i] of a sequence
    pattern: a fresh register, the element fetched into it (by immediate
    index below 256, by a constant integer key from there on), the element
    pattern bound against it, and the register released if the binding says
    so. *)
Definition sequence_step
  (leaf : string -> JanetSlot -> option JanetTable -> JanetCompiler -> bool * JanetCompiler)
  (attr : option JanetTable) (right : JanetSlot) (c : JanetCompiler) (iv : Z * Janet)
  : JanetCompiler :=
  let (nextright, c) := janetc_farslot c in
  let c :=
    if fst iv <? 256
    then snd (janetc_emit_ssu JOP_GET_INDEX nextright right (fst iv) 1 c)
    else snd (janetc_emit_sss JOP_GET nextright right
                (janetc_cslot (janet_wrap_integer (fst iv))) 1 c) in
  let (consumed, c) := destructure leaf attr (snd iv) nextright c in
  if consumed then janetc_freeslot nextright c else c.

(** The values [destructure] has an arm for. *)
Definition is_binding_pattern (left : Janet) : bool :=
  match left with
  | JSymbol _ | JArray _ | JTuple _ | JTable _ _ | JStruct _ => true
  | _ => false
  end.

Definition destructure_error : string := "unexpected type in destructuring".

(** The attributes [handleattr] accepts, and what each adds to the table. *)
Definition is_metadata (attr : Janet) : bool :=
  match attr with
  | JSymbol _ | JString _ => true
  | _ => false
  end.

Definition attr_put (tab : JanetTable) (attr : Janet) : JanetTable :=
  match attr with
  | JSymbol _ => janet_table_put tab attr janet_wrap_true
  | JString _ => janet_table_put tab (janet_csymbolv "doc") attr
  | _ => tab
  end.

Definition metadata_error : string := "could not add metadata to binding".

(** The attribute arguments of [def] and [var]: what lies between the
    pattern and the value. *)
Definition attribute_args (argv : list Janet) : list Janet :=
  take (length argv - 2)%nat (drop 1 argv).

(** Forms compiled one after the other with their results dropped, as
    [janetc_fn] does for the forms of a body that are not the last. *)
Fixpoint compile_dropped (subopts : JanetFopts) (forms : list Janet) (c : JanetCompiler)
  : JanetCompiler :=
  match forms with
  | [] => c
  | x :: forms' =>
      compile_dropped subopts forms'
        (snd (janetc_value (fopts_set_flags subopts JANET_FOPTS_DROP) x c))
  end.

(** Names in strictly increasing byte order, as [janet_strbinsearch] needs
    them. *)
Definition strictly_sorted (names : list string) : Prop :=
  forall (i j : nat) (a b : string),
    names !! i = Some a -> names !! j = Some b -> (i < j)%nat -> String.ltb a b = true.

(** No scope of a chain is a function scope. *)
Definition no_function_scope (scopes : list JanetScope) : Prop :=
  Forall (fun s => is_function_scope s = false) scopes.

(** The contract of the collaborators on the instruction buffer: the
    dispatcher only appends, an emitter appends and returns a position
    inside what it appended, the scope and slot operations leave the buffer
    alone. *)
Record buffer_contract : Prop :=
  { value_appends :
      forall opts x c, c_buffer c `prefix_of` c_buffer (snd (janetc_value opts x c));
    emit_si_appends :
      forall op s imm wr c,
        c_buffer c `prefix_of` c_buffer (snd (janetc_emit_si op s imm wr c))
        /\ janet_v_count (c_buffer c) <= fst (janetc_emit_si op s imm wr c)
           < janet_v_count (c_buffer (snd (janetc_emit_si op s imm wr c)));
    gettarget_keeps : forall opts c, c_buffer (snd (janetc_gettarget opts c)) = c_buffer c;
    copy_appends : forall d s c, c_buffer c `prefix_of` c_buffer (janetc_copy d s c);
    freeslot_keeps : forall s c, c_buffer (janetc_freeslot s c) = c_buffer c;
    scope_keeps : forall flags name c, c_buffer (janetc_scope flags name c) = c_buffer c;
    popscope_keeps : forall c, c_buffer (janetc_popscope c) = c_buffer c }.

End Notions.

(** * Properties *)

Section Properties.

Context {K : Constants} {X : Collaborators}.

(** ** Constant conditions *)

(** C1. A [while] whose condition compiles to a constant slot that is falsy
    is elided: the handler pops the condition scope and returns the constant
    nil slot, and the compiler is left exactly as the condition and that pop
    left it.  The body forms are never handed to the dispatcher, so they
    emit nothing and an error inside them goes unnoticed: whatever they
    are, the outcome is the same. *)
Theorem while_falsy_constant_elided
  (opts : JanetFopts) (condform : Janet) (body : list Janet) (c : JanetCompiler)
  (cond : JanetSlot) (c2 : JanetCompiler) :
  body <> [] ->
  janetc_value janetc_fopts_default condform (janetc_scope 0 "while" c) = (cond, c2) ->
  has_flag (s_flags cond) JANET_SLOT_CONSTANT = true ->
  janet_truthy (s_constant cond) = false ->
  janetc_while opts (condform :: body) c
    = Some (janetc_cslot janet_wrap_nil, janetc_popscope c2)
  /\ forall body' : list Janet,
       body' <> [] ->
       janetc_while opts (condform :: body') c = janetc_while opts (condform :: body) c.
Proof.
  intros Hbody Hcond Hconst Hfalsy.
  assert (Hrun : forall b : list Janet, b <> [] ->
            janetc_while opts (condform :: b) c
              = Some (janetc_cslot janet_wrap_nil, janetc_popscope c2)).
  { intros b Hb. unfold janetc_while.
    destruct b as [|x b]; [congruence|].
    replace (argn (condform :: x :: b) <? 2) with false
      by (symmetry; apply Z.ltb_ge; unfold argn; simpl; lia).
    change (arg (condform :: x :: b) 0) with condform.
    rewrite Hcond, Hconst, Hfalsy. reflexivity. }
  split.
  - apply Hrun, Hbody.
  - intros body' Hbody'. rewrite (Hrun body' Hbody'), (Hrun body Hbody). reflexivity.
Qed.

(** C2. An [if] whose condition compiles to a constant slot compiles the
    branch that the constant's truthiness selects inside the scope
    "if-body" and keeps what it emitted; the other branch goes through the
    throwaway compile, after which the instruction buffer is back to what it
    was before that branch, while the result record, and so any error the
    dead branch raised, is the one its compilation left.  Nil and boolean
    false are the only falsy constants. *)
Theorem if_constant_condition
  (opts : JanetFopts) (argv : list Janet) (c : JanetCompiler)
  (target0 cond target sd : JanetSlot) (c0 c2 c4 cd : JanetCompiler) :
  2 <= argn argv <= 3 ->
  (if has_flag (fo_flags opts) JANET_FOPTS_DROP || has_flag (fo_flags opts) JANET_FOPTS_TAIL
   then (janetc_cslot janet_wrap_nil, c)
   else janetc_gettarget opts c) = (target0, c0) ->
  janetc_value janetc_fopts_default (arg argv 0) (janetc_scope 0 "if" c0) = (cond, c2) ->
  has_flag (s_flags cond) JANET_SLOT_CONSTANT = true ->
  let falsebody := if 2 <? argn argv then arg argv 2 else janet_wrap_nil in
  let live := if janet_truthy (s_constant cond) then arg argv 1 else falsebody in
  let dead := if janet_truthy (s_constant cond) then falsebody else arg argv 1 in
  janetc_value opts live (janetc_scope 0 "if-body" c2) = (target, c4) ->
  let c6 := janetc_popscope (janetc_popscope c4) in
  janetc_value opts dead c6 = (sd, cd) ->
  c_buffer c6 `prefix_of` c_buffer cd ->
  (exists c' : JanetCompiler,
      janetc_if opts argv c = Some (target, c')
      /\ c_buffer c' = c_buffer c6
      /\ c_result c' = c_result cd
      /\ c_scope c' = c_scope cd
      /\ c_parents c' = c_parents cd)
  /\ (forall x : Janet, janet_truthy x = false <-> x = JNil \/ x = JBoolean false).
Proof.
  intros Hargn Htarget Hcond Hconst falsebody live dead Hlive c6 Hdead [code Hcode].
  split.
  - eexists. split.
    + unfold janetc_if.
      replace ((argn argv <? 2) || (3 <? argn argv)) with false
        by (symmetry; apply orb_false_iff; split; apply Z.ltb_ge; lia).
      rewrite Htarget, Hcond, Hconst.
      fold falsebody.
      destruct (janet_truthy (s_constant cond)); simpl negb; cbv iota;
        subst live dead; rewrite Hlive; unfold janetc_throwaway;
        fold c6; rewrite Hdead; reflexivity.
    + simpl. rewrite Hcode, take_app_length. auto.
  - intros x. destruct x as [| [|] | | | | | | | |]; simpl; split;
      (try discriminate); auto; intros [H|H]; discriminate.
Qed.

(** ** Options of the value expression of def and var *)

Ltac bits :=
  apply Z.bits_inj'; intros n Hn;
  repeat first
    [ rewrite Z.land_spec | rewrite Z.lor_spec
    | rewrite Z.lnot_spec by assumption | rewrite Z.bits_0 ];
  repeat match goal with
         | |- context [Z.testbit ?a n] => destruct (Z.testbit a n)
         end;
  try reflexivity.

Lemma land_clear_l (f a b : Z) : Z.land (Z.land f (Z.lnot (Z.lor a b))) a = 0.
Proof. bits. Qed.

Lemma land_clear_r (f a b : Z) : Z.land (Z.land f (Z.lnot (Z.lor a b))) b = 0.
Proof. bits. Qed.

Lemma land_clear_under (f h m : Z) :
  Z.land (Z.land (Z.land f (Z.lnot h)) (Z.lnot m)) h = 0.
Proof. bits. Qed.

Lemma land_keep (f h m : Z) :
  Z.land h m = 0 -> Z.land (Z.land f (Z.lnot m)) h = Z.land f h.
Proof.
  intros Hd. apply Z.bits_inj'. intros n Hn.
  pose proof (f_equal (fun z => Z.testbit z n) Hd) as Hb. cbv beta in Hb.
  rewrite Z.land_spec, Z.bits_0 in Hb.
  rewrite !Z.land_spec, Z.lnot_spec by assumption.
  destruct (Z.testbit f n), (Z.testbit h n), (Z.testbit m n); simpl in *; congruence.
Qed.

(** C3, as the code has it.  Both [def] and [var] hand the last argument to
    the dispatcher with the caller's tail and drop flags cleared and the
    caller's hint slot copied.  [def] clears the hint flag as well, so its
    value is compiled with no type hint in force; [var] leaves the hint flag
    as the caller set it. *)
Theorem def_var_value_options (opts : JanetFopts) (argv : list Janet) (c : JanetCompiler) :
  2 <= argn argv ->
  Z.land JANET_FOPTS_HINT (Z.lor JANET_FOPTS_TAIL JANET_FOPTS_DROP) = 0 ->
  let value_form := arg argv (argn argv - 1) in
  let odef :=
    dohead_subopts
      (fopts_set_flags opts (Z.land (fo_flags opts) (Z.lnot JANET_FOPTS_HINT))) in
  let ovar := dohead_subopts opts in
  janetc_def opts argv c = binding_tail defleaf argv (janetc_value odef value_form c)
  /\ janetc_var opts argv c = binding_tail varleaf argv (janetc_value ovar value_form c)
  /\ Z.land (fo_flags odef) JANET_FOPTS_TAIL = 0
  /\ Z.land (fo_flags odef) JANET_FOPTS_DROP = 0
  /\ Z.land (fo_flags odef) JANET_FOPTS_HINT = 0
  /\ Z.land (fo_flags ovar) JANET_FOPTS_TAIL = 0
  /\ Z.land (fo_flags ovar) JANET_FOPTS_DROP = 0
  /\ Z.land (fo_flags ovar) JANET_FOPTS_HINT = Z.land (fo_flags opts) JANET_FOPTS_HINT
  /\ fo_hint odef = fo_hint opts
  /\ fo_hint ovar = fo_hint opts.
Proof.
  intros Hargn Hdisj value_form odef ovar.
  assert (Hlt : (argn argv <? 2) = false) by (apply Z.ltb_ge; lia).
  repeat split.
  - unfold janetc_def, dohead, binding_tail. rewrite Hlt. reflexivity.
  - unfold janetc_var, dohead, binding_tail. rewrite Hlt. reflexivity.
  - apply land_clear_l.
  - apply land_clear_r.
  - apply land_clear_under.
  - apply land_clear_l.
  - apply land_clear_r.
  - apply land_keep, Hdisj.
Qed.

(** ** What destructuring reports *)

(** C4. [destructure] reports whether the source slot it was given may be
    freed: always true for a sequence or dictionary pattern, and what the
    leaf callback returned for a bare symbol (for the leaves of [def] and
    [var] below the top level that is [namelocal]'s report: true unless the
    slot was an unnamed register that could be named in place).  [def] and
    [var] free the value slot exactly when the report is true. *)
Theorem destructure_consumption_report :
  (forall leaf attr left right c,
      is_composite left = true ->
      fst (destructure leaf attr left right c) = true)
  /\ (forall leaf attr sym right c,
         destructure leaf attr (JSymbol sym) right c = leaf sym right attr c)
  /\ (forall sym s attr c,
         has_flag (sc_flags (c_scope c)) JANET_SCOPE_TOP = false ->
         fst (defleaf sym s attr c) = negb (isUnnamedRegister s)
         /\ fst (varleaf sym s attr c) = negb (isUnnamedRegister s))
  /\ (forall opts argv c ret c1 attr c2 consumed c3,
         dohead opts argv c = (ret, c1) ->
         status_is_error c1 = false ->
         handleattr argv c1 = (attr, c2) ->
         destructure varleaf (Some attr) (arg argv 0) ret c2 = (consumed, c3) ->
         janetc_var opts argv c
           = (janetc_cslot janet_wrap_nil,
              if consumed then janetc_freeslot ret c3 else c3))
  /\ (forall opts argv c ret c1 attr c2 consumed c3,
         dohead (fopts_set_flags opts (Z.land (fo_flags opts) (Z.lnot JANET_FOPTS_HINT)))
           argv c = (ret, c1) ->
         status_is_error c1 = false ->
         handleattr argv c1 = (attr, c2) ->
         destructure defleaf (Some attr) (arg argv 0) ret c2 = (consumed, c3) ->
         janetc_def opts argv c
           = (janetc_cslot janet_wrap_nil,
              if consumed then janetc_freeslot ret c3 else c3)).
Proof.
  split; [|split; [|split; [|split]]].
  - intros leaf attr left right c Hc.
    destruct left; simpl in Hc; try discriminate; reflexivity.
  - reflexivity.
  - intros sym s attr c Hlocal. unfold defleaf, varleaf. rewrite Hlocal.
    unfold namelocal.
    destruct (negb (isUnnamedRegister s)); [destruct (janetc_farslot c)|];
      split; reflexivity.
  - intros opts argv c ret c1 attr c2 consumed c3 Hhead Hok Hattr Hdes.
    unfold janetc_var. rewrite Hhead, Hok, Hattr, Hdes. reflexivity.
  - intros opts argv c ret c1 attr c2 consumed c3 Hhead Hok Hattr Hdes.
    unfold janetc_def. rewrite Hhead, Hok, Hattr, Hdes. reflexivity.
Qed.

(** ** Dictionary patterns *)

(** C9. Destructuring a table or struct pattern walks the whole backing
    storage and does one [dictionary_step] (fresh register, keyed get,
    recursive binding) for each slot whose key is not nil, in storage order,
    and nothing at all for a slot whose key is nil. *)
Theorem destructure_dictionary_skips_nil_keys
  (leaf : string -> JanetSlot -> option JanetTable -> JanetCompiler -> bool * JanetCompiler)
  (attr : option JanetTable) (kvs : list (Janet * Janet)) (proto : Janet)
  (right : JanetSlot) (c : JanetCompiler) :
  destructure leaf attr (JStruct kvs) right c
    = (true, fold_left (dictionary_step leaf attr right) (live_slots kvs) c)
  /\ destructure leaf attr (JTable kvs proto) right c
     = (true, fold_left (dictionary_step leaf attr right) (live_slots kvs) c)
  /\ (forall v : Janet,
         destructure leaf attr (JStruct ((JNil, v) :: kvs)) right c
           = destructure leaf attr (JStruct kvs) right c
         /\ destructure leaf attr (JTable ((JNil, v) :: kvs) proto) right c
            = destructure leaf attr (JTable kvs proto) right c)
  /\ (forall k v : Janet,
         k <> JNil ->
         destructure leaf attr (JStruct ((k, v) :: kvs)) right c
           = destructure leaf attr (JStruct kvs) right
               (dictionary_step leaf attr right c (k, v)))
  /\ Forall (fun kv => fst kv <> JNil) (live_slots kvs).
Proof.
  assert (Hloop : forall c0 : JanetCompiler,
            snd (destructure leaf attr (JStruct kvs) right c0)
              = fold_left (dictionary_step leaf attr right) (live_slots kvs) c0).
  { simpl. induction kvs as [|[k v] kvs' IH]; intros c0; [reflexivity|].
    destruct k; simpl; try apply IH;
      unfold dictionary_step at 2; simpl;
      destruct (janetc_farslot c0) as [nextright c1];
      destruct (janetc_value janetc_fopts_default _ c1) as [ks c2];
      destruct (destructure leaf attr v nextright _) as [[|] c3];
      apply IH. }
  repeat split.
  - simpl. f_equal. apply Hloop.
  - simpl. f_equal. apply Hloop.
  - intros k v Hk. destruct k; try congruence; simpl; f_equal;
      unfold dictionary_step; simpl;
      destruct (janetc_farslot c) as [nextright c1];
      destruct (janetc_value janetc_fopts_default _ c1) as [ks c2];
      destruct (destructure leaf attr v nextright _) as [[|] c3];
      reflexivity.
  - unfold live_slots. apply Forall_forall. intros kv Hin.
    apply list_elem_of_In, filter_In in Hin. destruct Hin as [_ Hk].
    destruct (fst kv); congruence.
Qed.

(** ** Where definitions are registered *)

Lemma addfuncdef_walk_nearest (def : JanetFuncDef) (pre : list JanetScope) :
  forall (f : JanetScope) (post : list JanetScope),
    Forall (fun s => is_function_scope s = false) pre ->
    is_function_scope f = true ->
    addfuncdef_walk def (pre ++ f :: post)
    = Some (janet_v_count (sc_defs f),
            pre ++ scope_set_defs f (sc_defs f ++ [def]) :: post).
Proof.
  induction pre as [|s pre IH]; intros f post Hpre Hf; simpl.
  - unfold is_function_scope in Hf. rewrite Hf. do 2 f_equal.
    unfold janet_v_count. rewrite length_app. simpl. lia.
  - inversion Hpre as [|? ? Hs Hpre']; subst.
    unfold is_function_scope in Hs. rewrite Hs, (IH f post Hpre' Hf). reflexivity.
Qed.

Lemma janetc_addfuncdef_nearest (def : JanetFuncDef) (c : JanetCompiler)
  (pre : list JanetScope) (f : JanetScope) (post : list JanetScope) :
  chain c = pre ++ f :: post ->
  Forall (fun s => is_function_scope s = false) pre ->
  is_function_scope f = true ->
  exists c' : JanetCompiler,
    janetc_addfuncdef def c = Some (janet_v_count (sc_defs f), c')
    /\ chain c' = pre ++ scope_set_defs f (sc_defs f ++ [def]) :: post
    /\ c_buffer c' = c_buffer c
    /\ c_mapbuffer c' = c_mapbuffer c
    /\ c_result c' = c_result c
    /\ c_env c' = c_env c.
Proof.
  intros Hchain Hpre Hf. unfold janetc_addfuncdef. unfold chain in Hchain.
  rewrite Hchain, (addfuncdef_walk_nearest def pre f post Hpre Hf).
  destruct (pre ++ scope_set_defs f (sc_defs f ++ [def]) :: post) as [|s ps] eqn:Hnew.
  - destruct pre; discriminate.
  - eexists. split; [reflexivity|]. repeat split.
Qed.

(** [janetc_fn] ends in [fn_build] when the parameters and the body went
    through. *)
Lemma janetc_fn_reaches_build
  (opts : JanetFopts) (argv params : list Janet) (c cp cb : JanetCompiler)
  (varargs arity : Z) :
  2 <= argn argv ->
  janet_indexed_view (arg argv (fn_parami argv)) = Some params ->
  let opened :=
    janetc_scope JANET_SCOPE_FUNCTION "function"
      (set_scope
         (scope_set_flags (c_scope c) (Z.lor (sc_flags (c_scope c)) JANET_SCOPE_CLOSURE))
         c) in
  fn_params params 0 (janet_v_count params) 0 0 opened = inr (varargs, arity, cp) ->
  let selfref := match arg argv 0 with JSymbol name => Some name | _ => None end in
  let cs :=
    match selfref with
    | Some name =>
        let (slot, c) := janetc_farslot cp in
        let slot := slot_set_flags slot (Z.lor JANET_SLOT_NAMED JANET_FUNCTION) in
        let (_, c) := janetc_emit_s JOP_LOAD_SELF slot 1 c in
        janetc_nameslot name slot c
    | None => cp
    end in
  (if fn_parami argv + 1 =? argn argv
   then (true, janetc_emit JOP_RETURN_NIL cs)
   else fn_body janetc_fopts_default (drop (Z.to_nat (fn_parami argv + 1)) argv) cs)
  = (true, cb) ->
  janetc_fn opts argv c
  = fn_build opts (arg argv (fn_parami argv)) selfref varargs arity cb.
Proof.
  intros Hargn Hview opened Hparams selfref cs Hbody. unfold janetc_fn.
  replace (argn argv <? 2) with false by (symmetry; apply Z.ltb_ge; lia).
  fold opened. unfold fn_parami in *. subst selfref cs.
  destruct (arg argv 0);
    match goal with
    | |- context [argn argv <=? ?p] =>
        replace (argn argv <=? p) with false by (symmetry; apply Z.leb_gt; lia)
    end;
    rewrite Hview, Hparams; cbv zeta; rewrite Hbody; reflexivity.
Qed.

(** A [fn] whose parameters and body went through registers the finalized
    definition in the nearest function scope and instantiates it. *)
Lemma janetc_fn_registers
  (opts : JanetFopts) (argv params : list Janet) (c cp cb c1 : JanetCompiler)
  (def0 : JanetFuncDef) (varargs arity : Z)
  (pre : list JanetScope) (f : JanetScope) (post : list JanetScope) :
  2 <= argn argv ->
  janet_indexed_view (arg argv (fn_parami argv)) = Some params ->
  let opened :=
    janetc_scope JANET_SCOPE_FUNCTION "function"
      (set_scope
         (scope_set_flags (c_scope c) (Z.lor (sc_flags (c_scope c)) JANET_SCOPE_CLOSURE))
         c) in
  fn_params params 0 (janet_v_count params) 0 0 opened = inr (varargs, arity, cp) ->
  let selfref := match arg argv 0 with JSymbol name => Some name | _ => None end in
  let cs :=
    match selfref with
    | Some name =>
        let (slot, c) := janetc_farslot cp in
        let slot := slot_set_flags slot (Z.lor JANET_SLOT_NAMED JANET_FUNCTION) in
        let (_, c) := janetc_emit_s JOP_LOAD_SELF slot 1 c in
        janetc_nameslot name slot c
    | None => cp
    end in
  (if fn_parami argv + 1 =? argn argv
   then (true, janetc_emit JOP_RETURN_NIL cs)
   else fn_body janetc_fopts_default (drop (Z.to_nat (fn_parami argv + 1)) argv) cs)
  = (true, cb) ->
  janetc_pop_funcdef cb = (def0, c1) ->
  chain c1 = pre ++ f :: post ->
  Forall (fun s => is_function_scope s = false) pre ->
  is_function_scope f = true ->
  let def := fn_finalize def0 (arg argv (fn_parami argv)) selfref varargs arity in
  let defindex := janet_v_count (sc_defs f) in
  exists c2 : JanetCompiler,
    janetc_addfuncdef def c1 = Some (defindex, c2)
    /\ chain c2 = pre ++ scope_set_defs f (sc_defs f ++ [def]) :: post
    /\ janetc_fn opts argv c
       = Some (let (ret, c3) := janetc_gettarget opts c2 in
               (ret, snd (janetc_emit_su JOP_CLOSURE ret defindex 1 c3))).
Proof.
  intros Hargn Hview opened Hparams selfref cs Hbody Hpop Hchain Hpre Hf def defindex.
  destruct (janetc_addfuncdef_nearest def c1 pre f post Hchain Hpre Hf)
    as (c2 & Hadd & Hchain2 & _).
  exists c2. split; [exact Hadd|]. split; [exact Hchain2|].
  rewrite (janetc_fn_reaches_build opts argv params c cp cb varargs arity
             Hargn Hview Hparams Hbody).
  unfold fn_build. rewrite Hpop. fold selfref. fold def. rewrite Hadd.
  destruct (janetc_gettarget opts c2) as [ret c3].
  subst defindex.
  destruct (janetc_emit_su JOP_CLOSURE ret _ 1 c3) as [label c4].
  reflexivity.
Qed.

(** ** What the handlers leave in a definition and in the result *)

Lemma fn_finalize_flags (def : JanetFuncDef) (paramv : Janet) (selfref : option string)
  (varargs arity : Z) :
  fd_flags (fn_finalize def paramv selfref varargs arity)
  = if negb (varargs =? 0) then Z.lor (fd_flags def) JANET_FUNCDEF_FLAG_VARARG
    else match paramv with
         | JTuple _ => Z.lor (fd_flags def) JANET_FUNCDEF_FLAG_FIXARITY
         | _ => fd_flags def
         end.
Proof.
  unfold fn_finalize.
  destruct (negb (varargs =? 0)), paramv, selfref; cbn;
    match goal with
    | |- context [if ?b then _ else _] => destruct b
    end; reflexivity.
Qed.

Lemma janetc_cerror_status (m : string) (c : JanetCompiler) :
  status_is_error (janetc_cerror m c) = true.
Proof.
  unfold janetc_cerror, status_is_error.
  destruct (r_status (c_result c)) eqn:Hs; simpl; [reflexivity|].
  rewrite Hs. reflexivity.
Qed.

(** ** Parameters of fn *)

Lemma fn_params_misplaced (params : list Janet) :
  forall (i paramcount varargs arity : Z) (c : JanetCompiler) (j : nat),
    params !! j = Some (JSymbol "&") ->
    i + Z.of_nat j <> paramcount - 2 ->
    exists c0 : JanetCompiler,
      fn_params params i paramcount varargs arity c = inl (vararg_error, c0).
Proof.
  induction params as [|param params IH]; intros i pc va ar c j Hj Hpos.
  - destruct j; discriminate.
  - destruct j as [|j].
    + injection Hj as ->. simpl.
      replace (i =? pc - 2) with false by (symmetry; apply Z.eqb_neq; lia).
      eexists. reflexivity.
    + simpl in Hj.
      assert (Hnext : i + 1 + Z.of_nat j <> pc - 2) by lia.
      destruct param as [|b|n|s|s|vs|vs|kvs p|kvs|id]; cbn [fn_params];
        try (destruct (janetc_farslot c) as [slot c1];
             match goal with
             | |- context [destructure defleaf None ?pat slot c1] =>
                 destruct (destructure defleaf None pat slot c1) as [r c2]
             end;
             eapply IH; eassumption).
      destruct (String.eqb s "&").
      * destruct (i =? pc - 2); simpl.
        -- eapply IH; eassumption.
        -- eexists. reflexivity.
      * destruct (janetc_farslot c) as [slot c1]. eapply IH; eassumption.
Qed.

Lemma janetc_fn_misplaced (opts : JanetFopts) (argv params : list Janet)
  (c : JanetCompiler) (j : nat) :
  2 <= argn argv ->
  janet_indexed_view (arg argv (fn_parami argv)) = Some params ->
  params !! j = Some (JSymbol "&") ->
  Z.of_nat j <> janet_v_count params - 2 ->
  exists c0 : JanetCompiler, janetc_fn opts argv c = Some (fn_error vararg_error c0).
Proof.
  intros Hargn Hview Hj Hpos. unfold janetc_fn.
  replace (argn argv <? 2) with false by (symmetry; apply Z.ltb_ge; lia).
  unfold fn_parami in Hview.
  set (c1 := janetc_scope JANET_SCOPE_FUNCTION "function" _).
  destruct (fn_params_misplaced params 0 (janet_v_count params) 0 0 c1 j Hj) as [c0 Hc0];
    [lia|].
  exists c0.
  destruct (arg argv 0);
    match goal with
    | |- context [argn argv <=? ?p] =>
        replace (argn argv <=? p) with false by (symmetry; apply Z.leb_gt; lia)
    end;
    rewrite Hview, Hc0; reflexivity.
Qed.

(** One round of the loop for a parameter that is not the marker. *)
Lemma fn_params_step (param : Janet) (params : list Janet) (i paramcount varargs arity : Z)
  (c : JanetCompiler) :
  is_vararg_marker param = false ->
  fn_params (param :: params) i paramcount varargs arity c
  = fn_params params (i + 1) paramcount varargs (arity + 1) (bind_param c param).
Proof.
  intros Hparam. unfold bind_param.
  destruct param as [|b|n|s|s|vs|vs|kvs p|kvs|id]; cbn [fn_params];
    try (destruct (janetc_farslot c) as [slot c1];
         match goal with
         | |- context [destructure defleaf None ?pat slot c1] =>
             destruct (destructure defleaf None pat slot c1) as [r c2]
         end;
         reflexivity).
  cbn [is_vararg_marker] in Hparam. rewrite Hparam.
  destruct (janetc_farslot c) as [slot c1]. reflexivity.
Qed.

(** One round of the loop for the marker. *)
Lemma fn_params_marker (rest : list Janet) (i paramcount varargs arity : Z)
  (c : JanetCompiler) :
  fn_params (JSymbol "&" :: rest) i paramcount varargs arity c
  = if negb (i =? paramcount - 2)
    then inl ("variable argument symbol in unexpected location"%string, c)
    else fn_params rest (i + 1) paramcount 1 (arity - 1) c.
Proof. reflexivity. Qed.

(** The loop over parameters that hold no marker binds them one by one. *)
Lemma fn_params_parameters (before rest : list Janet) :
  forall (i paramcount varargs arity : Z) (c : JanetCompiler),
    existsb is_vararg_marker before = false ->
    fn_params (before ++ rest) i paramcount varargs arity c
    = fn_params rest (i + janet_v_count before) paramcount varargs
        (arity + janet_v_count before) (fold_left bind_param before c).
Proof.
  induction before as [|param before IH]; intros i pc va ar c Hfree.
  - cbn [app fold_left]. unfold janet_v_count. cbn [length].
    rewrite !Z.add_0_r. reflexivity.
  - cbn [existsb] in Hfree. apply orb_false_iff in Hfree. destruct Hfree as [Hparam Hfree].
    cbn [app fold_left]. rewrite (fn_params_step _ _ _ _ _ _ _ Hparam), (IH _ _ _ _ _ Hfree).
    unfold janet_v_count. cbn [length].
    replace (i + 1 + Z.of_nat (length before)) with (i + Z.of_nat (S (length before))) by lia.
    replace (ar + 1 + Z.of_nat (length before)) with (ar + Z.of_nat (S (length before)))
      by lia.
    reflexivity.
Qed.

(** The loop goes through a parameter list whose only marker is the
    second-to-last element. *)
Lemma fn_params_accepts (before : list Janet) (last : Janet) (c : JanetCompiler) :
  existsb is_vararg_marker before = false ->
  is_vararg_marker last = false ->
  let params := before ++ [JSymbol "&"; last] in
  fn_params params 0 (janet_v_count params) 0 0 c
  = inr (1, janet_v_count before, fold_left bind_param (before ++ [last]) c).
Proof.
  intros Hfree Hlast params. subst params.
  rewrite (fn_params_parameters _ _ _ _ _ _ _ Hfree), fn_params_marker.
  replace (0 + janet_v_count before =? janet_v_count (before ++ [JSymbol "&"; last]) - 2)
    with true
    by (symmetry; apply Z.eqb_eq; unfold janet_v_count; rewrite length_app; cbn [length]; lia).
  cbn [negb]. rewrite (fn_params_step _ _ _ _ _ _ _ Hlast). cbn [fn_params].
  rewrite fold_left_app. cbn [fold_left]. do 3 f_equal. lia.
Qed.

(** The loop stops at the first marker that is out of place, with the
    parameters in front of it bound. *)
Lemma fn_params_stops (params : list Janet) :
  forall (i paramcount varargs arity : Z) (c : JanetCompiler) (j : nat),
    params !! j = Some (JSymbol "&") ->
    i + Z.of_nat j <> paramcount - 2 ->
    exists k : nat,
      (k <= j)%nat
      /\ params !! k = Some (JSymbol "&")
      /\ i + Z.of_nat k <> paramcount - 2
      /\ fn_params params i paramcount varargs arity c
         = inl (vararg_error,
                fold_left bind_param (List.filter is_parameter (take k params)) c).
Proof.
  induction params as [|param params IH]; intros i pc va ar c j Hj Hpos.
  - destruct j; discriminate.
  - destruct (is_vararg_marker param) eqn:Hmarker.
    + assert (param = JSymbol "&") as ->.
      { destruct param as [|b|n|s|s|vs|vs|kvs p|kvs|id]; try discriminate.
        cbn [is_vararg_marker] in Hmarker. apply String.eqb_eq in Hmarker.
        subst s. reflexivity. }
      rewrite fn_params_marker.
      destruct (i =? pc - 2) eqn:Hi; cbn [negb].
      * apply Z.eqb_eq in Hi. destruct j as [|j]; [lia|].
        cbn in Hj.
        destruct (IH (i + 1) pc 1 (ar - 1) c j Hj) as (k & Hk & Hat & Hne & Hrun); [lia|].
        exists (S k). split; [lia|]. split; [exact Hat|]. split; [lia|].
        rewrite Hrun. reflexivity.
      * apply Z.eqb_neq in Hi. exists 0%nat.
        split; [lia|]. split; [reflexivity|]. split; [lia|]. reflexivity.
    + destruct j as [|j].
      { injection Hj as ->. discriminate. }
      cbn in Hj. rewrite (fn_params_step _ _ _ _ _ _ _ Hmarker).
      destruct (IH (i + 1) pc va (ar + 1) (bind_param c param) j Hj)
        as (k & Hk & Hat & Hne & Hrun); [lia|].
      exists (S k). split; [lia|]. split; [exact Hat|]. split; [lia|].
      rewrite Hrun. cbn [take List.filter].
      assert (Hkeep : is_parameter param = true) by (unfold is_parameter; rewrite Hmarker; reflexivity).
      rewrite Hkeep. reflexivity.
Qed.

Lemma fn_finalize_arity (def : JanetFuncDef) (paramv : Janet) (selfref : option string)
  (varargs arity : Z) :
  fd_arity (fn_finalize def paramv selfref varargs arity) = arity.
Proof.
  unfold fn_finalize.
  destruct (negb (varargs =? 0)), paramv, selfref; cbn;
    match goal with
    | |- context [if ?b then _ else _] => destruct b
    end; reflexivity.
Qed.

(** C6. In the parameter list of [fn] the symbol [&] is accepted only as the
    second-to-last element.  Accepted, it makes the loop return with
    [varargs] set and an arity one below that of the same parameters
    without it, in the very state that binding those parameters leaves: the
    marker takes no register and binds no name.  A marker anywhere else
    stops the loop with the misplaced-vararg message, in the state the
    parameters in front of the first such marker have left, and [janetc_fn]
    records that error, pops the function scope and returns the nil slot.
    A [fn] that goes through with an accepted marker registers a definition
    that carries the vararg flag and has the number of parameters in front of
    the marker as its arity. *)
Theorem fn_vararg_marker :
  (forall (before : list Janet) (last : Janet) (c : JanetCompiler),
      existsb is_vararg_marker before = false ->
      is_vararg_marker last = false ->
      let params := before ++ [JSymbol "&"; last] in
      let plain := before ++ [last] in
      fn_params params 0 (janet_v_count params) 0 0 c
        = inr (1, janet_v_count plain - 1, fold_left bind_param plain c)
      /\ fn_params plain 0 (janet_v_count plain) 0 0 c
         = inr (0, janet_v_count plain, fold_left bind_param plain c))
  /\ (forall (params : list Janet) (c : JanetCompiler) (j : nat),
         params !! j = Some (JSymbol "&") ->
         Z.of_nat j <> janet_v_count params - 2 ->
         exists k : nat,
           (k <= j)%nat
           /\ params !! k = Some (JSymbol "&")
           /\ Z.of_nat k <> janet_v_count params - 2
           /\ fn_params params 0 (janet_v_count params) 0 0 c
              = inl (vararg_error,
                     fold_left bind_param (List.filter is_parameter (take k params)) c))
  /\ (forall (opts : JanetFopts) (argv params : list Janet) (c : JanetCompiler) (j : nat),
         2 <= argn argv ->
         janet_indexed_view (arg argv (fn_parami argv)) = Some params ->
         params !! j = Some (JSymbol "&") ->
         Z.of_nat j <> janet_v_count params - 2 ->
         let opened :=
           janetc_scope JANET_SCOPE_FUNCTION "function"
             (set_scope
                (scope_set_flags (c_scope c)
                   (Z.lor (sc_flags (c_scope c)) JANET_SCOPE_CLOSURE))
                c) in
         exists k : nat,
           (k <= j)%nat
           /\ params !! k = Some (JSymbol "&")
           /\ Z.of_nat k <> janet_v_count params - 2
           /\ let c0 :=
                fold_left bind_param (List.filter is_parameter (take k params)) opened in
              janetc_fn opts argv c
                = Some (janetc_cslot janet_wrap_nil,
                        janetc_popscope (janetc_cerror vararg_error c0))
              /\ status_is_error (janetc_cerror vararg_error c0) = true
              /\ (status_is_error c0 = false ->
                  r_error (c_result (janetc_cerror vararg_error c0)) = vararg_error))
  /\ (forall (opts : JanetFopts) (argv before : list Janet) (last : Janet)
             (c cb c1 : JanetCompiler) (def0 : JanetFuncDef)
             (pre : list JanetScope) (f : JanetScope) (post : list JanetScope),
         2 <= argn argv ->
         janet_indexed_view (arg argv (fn_parami argv))
           = Some (before ++ [JSymbol "&"; last]) ->
         existsb is_vararg_marker before = false ->
         is_vararg_marker last = false ->
         let opened :=
           janetc_scope JANET_SCOPE_FUNCTION "function"
             (set_scope
                (scope_set_flags (c_scope c)
                   (Z.lor (sc_flags (c_scope c)) JANET_SCOPE_CLOSURE))
                c) in
         let cp := fold_left bind_param (before ++ [last]) opened in
         let selfref := match arg argv 0 with JSymbol name => Some name | _ => None end in
         let cs :=
           match selfref with
           | Some name =>
               let (slot, c) := janetc_farslot cp in
               let slot := slot_set_flags slot (Z.lor JANET_SLOT_NAMED JANET_FUNCTION) in
               let (_, c) := janetc_emit_s JOP_LOAD_SELF slot 1 c in
               janetc_nameslot name slot c
           | None => cp
           end in
         (if fn_parami argv + 1 =? argn argv
          then (true, janetc_emit JOP_RETURN_NIL cs)
          else fn_body janetc_fopts_default (drop (Z.to_nat (fn_parami argv + 1)) argv) cs)
         = (true, cb) ->
         janetc_pop_funcdef cb = (def0, c1) ->
         chain c1 = pre ++ f :: post ->
         Forall (fun s => is_function_scope s = false) pre ->
         is_function_scope f = true ->
         exists (def : JanetFuncDef) (c2 : JanetCompiler),
           janetc_fn opts argv c
             = Some (let (ret, c3) := janetc_gettarget opts c2 in
                     (ret,
                      snd (janetc_emit_su JOP_CLOSURE ret (janet_v_count (sc_defs f)) 1 c3)))
           /\ chain c2 = pre ++ scope_set_defs f (sc_defs f ++ [def]) :: post
           /\ fd_flags def = Z.lor (fd_flags def0) JANET_FUNCDEF_FLAG_VARARG
           /\ Z.land (fd_flags def) JANET_FUNCDEF_FLAG_VARARG = JANET_FUNCDEF_FLAG_VARARG
           /\ fd_arity def = janet_v_count before).
Proof.
  split; [|split; [|split]].
  - intros before last c Hfree Hlast params plain. subst params plain. split.
    + rewrite (fn_params_accepts before last c Hfree Hlast). do 3 f_equal.
      unfold janet_v_count. rewrite length_app. cbn [length]. lia.
    + assert (Hplain : existsb is_vararg_marker (before ++ [last]) = false).
      { rewrite existsb_app, Hfree. cbn [existsb]. rewrite Hlast. reflexivity. }
      rewrite <- (app_nil_r (before ++ [last])) at 1.
      rewrite (fn_params_parameters _ _ _ _ _ _ _ Hplain). reflexivity.
  - intros params c j Hj Hpos.
    destruct (fn_params_stops params 0 (janet_v_count params) 0 0 c j Hj)
      as (k & Hk & Hat & Hne & Hrun); [lia|].
    exists k. split; [exact Hk|]. split; [exact Hat|]. split; [lia|exact Hrun].
  - intros opts argv params c j Hargn Hview Hj Hpos opened.
    destruct (fn_params_stops params 0 (janet_v_count params) 0 0 opened j Hj)
      as (k & Hk & Hat & Hne & Hrun); [lia|].
    exists k. split; [exact Hk|]. split; [exact Hat|]. split; [lia|].
    cbv zeta. split; [|split].
    + unfold janetc_fn.
      replace (argn argv <? 2) with false by (symmetry; apply Z.ltb_ge; lia).
      fold opened. unfold fn_parami in Hview.
      destruct (arg argv 0);
        match goal with
        | |- context [argn argv <=? ?p] =>
            replace (argn argv <=? p) with false by (symmetry; apply Z.leb_gt; lia)
        end;
        rewrite Hview, Hrun; reflexivity.
    + apply janetc_cerror_status.
    + intros Hok. unfold janetc_cerror, status_is_error in *.
      destruct (r_status (c_result _)); [reflexivity|discriminate].
  - intros opts argv before last c cb c1 def0 pre f post Hargn Hview Hfree Hlast
      opened cp selfref cs Hbody Hpop Hchain Hpre Hf.
    pose proof (fn_params_accepts before last opened Hfree Hlast) as Hparams.
    cbv zeta in Hparams. fold cp in Hparams.
    destruct (janetc_fn_registers opts argv _ c cp cb c1 def0 1 (janet_v_count before)
                pre f post Hargn Hview Hparams Hbody Hpop Hchain Hpre Hf)
      as (c2 & _ & Hchain2 & Hrun).
    eexists. exists c2. split; [exact Hrun|]. split; [exact Hchain2|].
    rewrite fn_finalize_flags, fn_finalize_arity. cbn [Z.eqb negb].
    split; [reflexivity|]. split; [|reflexivity].
    bits.
Qed.

(** ** The fixed-arity flag *)

Lemma fn_params_varargs (params : list Janet) :
  forall (i paramcount varargs arity : Z) (c : JanetCompiler)
         (varargs' arity' : Z) (c' : JanetCompiler),
    fn_params params i paramcount varargs arity c = inr (varargs', arity', c') ->
    varargs' = if existsb is_vararg_marker params then 1 else varargs.
Proof.
  induction params as [|param params IH]; intros i pc va ar c va' ar' c' Hrun.
  - simpl in Hrun. injection Hrun as -> _ _. reflexivity.
  - destruct param as [|b|n|s|s|vs|vs|kvs p|kvs|id]; cbn [fn_params] in Hrun;
      cbn [existsb is_vararg_marker orb];
      try (destruct (janetc_farslot c) as [slot c1];
           match type of Hrun with
           | context [destructure defleaf None ?pat slot c1] =>
               destruct (destructure defleaf None pat slot c1) as [r c2]
           end;
           eapply IH; eassumption).
    destruct (String.eqb s "&").
    + destruct (i =? pc - 2); simpl in Hrun; [|discriminate].
      apply IH in Hrun. rewrite Hrun. destruct (existsb is_vararg_marker params); reflexivity.
    + destruct (janetc_farslot c) as [slot c1]. eapply IH; eassumption.
Qed.

(** C7, as the code has it.  A [fn] that compiles registers a definition
    that has the fixed-arity flag exactly when the parameter list is a tuple
    that holds no [&].  A parameter list with [&], tuple or array, gets the
    vararg flag instead; one without [&] gets no vararg flag from the
    handler, and an array never gets the fixed-arity flag. *)
Theorem fn_fixarity_flag
  (opts : JanetFopts) (argv params : list Janet) (c cp cb c1 : JanetCompiler)
  (def0 : JanetFuncDef) (varargs arity : Z)
  (pre : list JanetScope) (f : JanetScope) (post : list JanetScope) :
  JANET_FUNCDEF_FLAG_FIXARITY <> 0 ->
  Z.land JANET_FUNCDEF_FLAG_VARARG JANET_FUNCDEF_FLAG_FIXARITY = 0 ->
  Z.land (fd_flags def0) JANET_FUNCDEF_FLAG_FIXARITY = 0 ->
  2 <= argn argv ->
  let paramv := arg argv (fn_parami argv) in
  janet_indexed_view paramv = Some params ->
  let opened :=
    janetc_scope JANET_SCOPE_FUNCTION "function"
      (set_scope
         (scope_set_flags (c_scope c) (Z.lor (sc_flags (c_scope c)) JANET_SCOPE_CLOSURE))
         c) in
  fn_params params 0 (janet_v_count params) 0 0 opened = inr (varargs, arity, cp) ->
  let selfref := match arg argv 0 with JSymbol name => Some name | _ => None end in
  let cs :=
    match selfref with
    | Some name =>
        let (slot, c) := janetc_farslot cp in
        let slot := slot_set_flags slot (Z.lor JANET_SLOT_NAMED JANET_FUNCTION) in
        let (_, c) := janetc_emit_s JOP_LOAD_SELF slot 1 c in
        janetc_nameslot name slot c
    | None => cp
    end in
  (if fn_parami argv + 1 =? argn argv
   then (true, janetc_emit JOP_RETURN_NIL cs)
   else fn_body janetc_fopts_default (drop (Z.to_nat (fn_parami argv + 1)) argv) cs)
  = (true, cb) ->
  janetc_pop_funcdef cb = (def0, c1) ->
  chain c1 = pre ++ f :: post ->
  Forall (fun s => is_function_scope s = false) pre ->
  is_function_scope f = true ->
  exists (def : JanetFuncDef) (c2 : JanetCompiler),
    janetc_fn opts argv c
      = Some (let (ret, c3) := janetc_gettarget opts c2 in
              (ret, snd (janetc_emit_su JOP_CLOSURE ret (janet_v_count (sc_defs f)) 1 c3)))
    /\ chain c2 = pre ++ scope_set_defs f (sc_defs f ++ [def]) :: post
    /\ has_flag (fd_flags def) JANET_FUNCDEF_FLAG_FIXARITY
       = match paramv with
         | JTuple _ => negb (existsb is_vararg_marker params)
         | _ => false
         end
    /\ (existsb is_vararg_marker params = true ->
        Z.land (fd_flags def) JANET_FUNCDEF_FLAG_VARARG = JANET_FUNCDEF_FLAG_VARARG)
    /\ (existsb is_vararg_marker params = false ->
        Z.land (fd_flags def) JANET_FUNCDEF_FLAG_VARARG
        = Z.land (fd_flags def0) JANET_FUNCDEF_FLAG_VARARG).
Proof.
  intros Hnz Hdisj Hdef Hargn paramv Hview opened Hparams selfref cs Hbody Hpop
    Hchain Hpre Hf.
  destruct (janetc_fn_registers opts argv params c cp cb c1 def0 varargs arity
              pre f post Hargn Hview Hparams Hbody Hpop Hchain Hpre Hf)
    as (c2 & _ & Hchain2 & Hrun).
  eexists. exists c2. split; [exact Hrun|]. split; [exact Hchain2|].
  apply fn_params_varargs in Hparams.
  fold paramv. rewrite fn_finalize_flags. unfold has_flag.
  assert (Hor : forall a b m : Z, Z.land (Z.lor a b) m = Z.lor (Z.land a m) (Z.land b m))
    by (intros; bits).
  assert (Hcomm : Z.land JANET_FUNCDEF_FLAG_FIXARITY JANET_FUNCDEF_FLAG_VARARG = 0)
    by (rewrite Z.land_comm; exact Hdisj).
  destruct (existsb is_vararg_marker params); subst varargs; simpl negb; cbv iota.
  - split; [|split; [intros _|discriminate]].
    + rewrite Hor, Hdef, Hdisj. simpl. destruct paramv; reflexivity.
    + bits.
  - split; [|split; [discriminate|intros _]].
    + destruct paramv; try (rewrite Hdef; reflexivity).
      rewrite Hor, Hdef, Z.land_diag, Z.lor_0_l.
      apply negb_true_iff, Z.eqb_neq, Hnz.
    + destruct paramv; try reflexivity.
      rewrite Hor, Hcomm, Z.lor_0_r. reflexivity.
Qed.

(** ** Registration of function definitions *)

(** Fields of an instruction word. *)

Lemma testbit_above (a k n : Z) : 0 <= a < 2 ^ k -> k <= n -> Z.testbit a n = false.
Proof.
  intros [Ha0 Hak] Hkn.
  destruct (Z.eq_dec a 0) as [->|Hne]; [apply Z.bits_0|].
  apply Z.bits_above_log2; [exact Ha0|].
  assert (0 <= k) by (destruct (Z.le_gt_cases 0 k); [assumption|];
                      rewrite Z.pow_neg_r in Hak by lia; lia).
  assert (Z.log2 a < k) by (apply Z.log2_lt_pow2; lia). lia.
Qed.

(** A displacement or-ed into the field that starts at bit [k] of a word
    whose bits from [k] on are clear reads back as the displacement, in
    two's complement on the [32 - k] bits of the field. *)
Lemma displacement_field (w d k : Z) :
  0 <= k <= 32 ->
  0 <= w < 2 ^ k ->
  Z.shiftr (Z.lor w (to_u32 (Z.shiftl d k))) k = d mod 2 ^ (32 - k).
Proof.
  intros Hk Hw. unfold to_u32. apply Z.bits_inj'. intros n Hn.
  rewrite Z.shiftr_spec, Z.lor_spec by lia.
  rewrite (testbit_above w k (n + k)) by lia. simpl orb.
  destruct (Z.lt_ge_cases (n + k) 32) as [Hlt|Hge].
  - rewrite Z.mod_pow2_bits_low by lia.
    rewrite Z.shiftl_spec by lia.
    rewrite Z.mod_pow2_bits_low by lia. f_equal. lia.
  - rewrite Z.mod_pow2_bits_high by lia.
    rewrite Z.mod_pow2_bits_high by lia. reflexivity.
Qed.


(** [janetc_while] ends in [while_closure] when the scope of the loop has the
    CLOSURE flag after the body. *)
Lemma janetc_while_reaches_closure
  (opts : JanetFopts) (argv : list Janet) (c : JanetCompiler)
  (cond cond' : JanetSlot) (c2 c3 c7 : JanetCompiler) (labelc : Z)
  (b : list Z) (m : list (Z * Z)) :
  2 <= argn argv ->
  janetc_value janetc_fopts_default (arg argv 0) (janetc_scope 0 "while" c) = (cond, c2) ->
  has_flag (s_flags cond) JANET_SLOT_CONSTANT && negb (janet_truthy (s_constant cond))
    = false ->
  (if has_flag (s_flags cond) JANET_SLOT_CONSTANT then (0, c2)
   else janetc_emit_si JOP_JUMP_IF_NOT cond 0 0 c2) = (labelc, c3) ->
  let c4 := while_body janetc_fopts_default (drop 1 argv) c3 in
  has_flag (sc_flags (c_scope c4)) JANET_SCOPE_CLOSURE = true ->
  let c5 :=
    janetc_popscope
      (set_scope
         (scope_set_flags (c_scope c4) (Z.lor (sc_flags (c_scope c4)) JANET_SCOPE_UNUSED))
         c4) in
  janet_v_set_cnt (janet_v_count (c_buffer c)) (c_buffer_null c5) (c_buffer c5) = Some b ->
  janet_v_set_cnt (janet_v_count (c_buffer c)) (c_mapbuffer_null c5) (c_mapbuffer c5)
    = Some m ->
  let subopts := fopts_set_flags janetc_fopts_default JANET_FOPTS_DROP in
  janetc_value subopts (arg argv 0)
    (janetc_scope JANET_SCOPE_FUNCTION "while-iife" (set_mapbuffer m (set_buffer b c5)))
  = (cond', c7) ->
  let c8 :=
    if negb (has_flag (s_flags cond') JANET_SLOT_CONSTANT)
    then janetc_emit JOP_RETURN_NIL (snd (janetc_emit_si JOP_JUMP_IF cond' 2 0 c7))
    else c7 in
  let c9 := while_body subopts (drop 1 argv) c8 in
  let tempself := fst (janetc_regalloc_temp (sc_ra (c_scope c9)) JANETC_REGTEMP_0) in
  let ra := snd (janetc_regalloc_temp (sc_ra (c_scope c9)) JANETC_REGTEMP_0) in
  janetc_while opts argv c
  = while_closure
      (janetc_emit (to_u32 (Z.lor JOP_TAILCALL (Z.shiftl tempself 8)))
         (janetc_emit (to_u32 (Z.lor JOP_LOAD_SELF (Z.shiftl tempself 8)))
            (set_scope (scope_set_ra (c_scope c9) ra) c9))).
Proof.
  intros Hargn Hcond Hlive Hexit c4 Hclosure c5 Hb Hm subopts Hcond' c8 c9 tempself ra.
  unfold janetc_while.
  replace (argn argv <? 2) with false by (symmetry; apply Z.ltb_ge; lia).
  rewrite Hcond, Hlive, Hexit. fold c4. rewrite Hclosure. fold c5.
  rewrite Hb, Hm. fold subopts. rewrite Hcond'.
  subst c8 c9 tempself ra.
  destruct (negb (has_flag (s_flags cond') JANET_SLOT_CONSTANT));
    [destruct (janetc_emit_si JOP_JUMP_IF cond' 2 0 c7) as [label c7']|];
    cbn [snd];
    match goal with
    | |- context [janetc_regalloc_temp ?r ?n] =>
        destruct (janetc_regalloc_temp r n) as [t r']
    end; reflexivity.
Qed.


(** ** The jumps of while *)

Lemma buffer_or_alter (label x : Z) (buffer : list Z) :
  0 <= label < janet_v_count buffer ->
  buffer_or label x buffer
  = Some (alter (fun w => Z.lor w (to_u32 x)) (Z.to_nat label) buffer).
Proof.
  unfold janet_v_count, buffer_or. intros Hl.
  replace (label <? 0) with false by (symmetry; apply Z.ltb_ge; lia).
  destruct (lookup_lt_is_Some_2 buffer (Z.to_nat label)) as [w Hw]; [lia|].
  rewrite Hw. f_equal. apply list_eq. intros j.
  destruct (decide (Z.to_nat label = j)) as [<-|Hne].
  - rewrite list_lookup_insert_eq by lia.
    rewrite list_lookup_alter_eq, Hw. reflexivity.
  - rewrite list_lookup_insert_ne, list_lookup_alter_ne by assumption. reflexivity.
Qed.

(** C5, as the code has it.  The test is on the scope of the loop, which
    the condition is compiled in as well: a [while] whose condition is not a
    falsy constant and whose scope has no CLOSURE flag once condition and
    body are compiled emits, of its own, one conditional exit check (one call
    of [janetc_emit_si] with [JOP_JUMP_IF_NOT]; none when the condition is a
    constant) before the body and exactly one [JOP_JUMP] after it.  The exit
    check then receives the displacement from itself to the end of the loop
    and the jump the displacement from itself back to the position recorded
    before the condition; each field reads back as target minus source. *)
Theorem while_loop_jumps
  (opts : JanetFopts) (argv : list Janet) (c : JanetCompiler)
  (cond : JanetSlot) (c2 c3 c4 : JanetCompiler) (labelc : Z) :
  2 <= argn argv ->
  janetc_value janetc_fopts_default (arg argv 0) (janetc_scope 0 "while" c) = (cond, c2) ->
  has_flag (s_flags cond) JANET_SLOT_CONSTANT && negb (janet_truthy (s_constant cond))
    = false ->
  let infinite := has_flag (s_flags cond) JANET_SLOT_CONSTANT in
  (if infinite then (0, c2) else janetc_emit_si JOP_JUMP_IF_NOT cond 0 0 c2) = (labelc, c3) ->
  while_body janetc_fopts_default (drop 1 argv) c3 = c4 ->
  has_flag (sc_flags (c_scope c4)) JANET_SCOPE_CLOSURE = false ->
  (infinite = false -> 0 <= labelc < janet_v_count (c_buffer c4)) ->
  let labelwt := janet_v_count (c_buffer c) in
  let labeljt := janet_v_count (c_buffer c4) in
  let labeld := labeljt + 1 in
  let exit_check (w : Z) := Z.lor w (to_u32 (Z.shiftl (labeld - labelc) 16)) in
  let back_jump := Z.lor JOP_JUMP (to_u32 (Z.shiftl (labelwt - labeljt) 8)) in
  let code :=
    if infinite then c_buffer c4
    else alter exit_check (Z.to_nat labelc) (c_buffer c4) in
  janetc_while opts argv c
    = Some (janetc_cslot janet_wrap_nil,
            janetc_popscope (set_buffer (code ++ [back_jump]) (janetc_emit JOP_JUMP c4)))
  /\ (infinite = true -> c3 = c2 /\ code = c_buffer c4)
  /\ (0 <= JOP_JUMP < 2 ^ 8 ->
      Z.shiftr back_jump 8 = (labelwt - labeljt) mod 2 ^ 24)
  /\ (infinite = false ->
      forall w : Z,
        c_buffer c4 !! Z.to_nat labelc = Some w ->
        code !! Z.to_nat labelc = Some (exit_check w)
        /\ (0 <= w < 2 ^ 16 ->
            Z.shiftr (exit_check w) 16 = (labeld - labelc) mod 2 ^ 16)).
Proof.
  intros Hargn Hcond Hlive infinite Hexit Hbody Hnoclosure Hlabel
    labelwt labeljt labeld exit_check back_jump code.
  assert (Hjump : forall l : list Z,
            length l = length (c_buffer c4) ->
            buffer_or labeljt (Z.shiftl (labelwt - labeljt) 8) (l ++ [JOP_JUMP])
            = Some (l ++ [back_jump])).
  { intros l Hlen. rewrite buffer_or_alter.
    - f_equal.
      replace (Z.to_nat labeljt) with (length l + 0)%nat
        by (unfold labeljt, janet_v_count; lia).
      rewrite alter_app_r. reflexivity.
    - unfold labeljt, janet_v_count. rewrite length_app. simpl. lia. }
  split; [|split; [|split]].
  - unfold janetc_while.
    replace (argn argv <? 2) with false by (symmetry; apply Z.ltb_ge; lia).
    rewrite Hcond, Hlive. fold infinite. rewrite Hexit, Hbody, Hnoclosure.
    cbn [janetc_emit set_allocated set_buffer set_mapbuffer c_buffer].
    fold labeljt. subst code. destruct infinite; simpl negb; cbv iota.
    + rewrite Hjump by reflexivity. reflexivity.
    + specialize (Hlabel eq_refl).
      rewrite buffer_or_alter
        by (unfold janet_v_count in *; rewrite length_app; simpl; lia).
      cbn [set_buffer c_buffer].
      rewrite alter_app_l by (unfold janet_v_count in *; lia).
      replace (janet_v_count (c_buffer c4 ++ [JOP_JUMP])) with labeld
        by (subst labeld labeljt; unfold janet_v_count; rewrite length_app; simpl; lia).
      fold exit_check.
      rewrite Hjump by apply length_alter. reflexivity.
  - intros Hinf. subst code. rewrite Hinf in *. injection Hexit as _ ->. auto.
  - intros Hop. apply displacement_field; lia.
  - intros Hinf w Hw. subst code. rewrite Hinf. split.
    + rewrite list_lookup_alter_eq, Hw. reflexivity.
    + intros Hbound. apply (displacement_field w _ 16); lia.
Qed.

(** ** The lookup in the table of specials *)

Lemma lookup_map_fst {T : Type} (tab : list (string * T)) :
  forall (i : nat) (item : string * T),
    tab !! i = Some item -> map fst tab !! i = Some (fst item).
Proof.
  induction tab as [|x tab IH]; intros [|i] item Hi; try discriminate.
  - injection Hi as ->. reflexivity.
  - apply IH. exact Hi.
Qed.

Lemma compare_refl (a : string) : String.compare a a = Eq.
Proof.
  pose proof (String.compare_antisym a a) as H.
  destruct (String.compare a a); [reflexivity|discriminate|discriminate].
Qed.

Lemma compare_irrefl (a : string) : String.compare a a <> Lt.
Proof. rewrite compare_refl. discriminate. Qed.

Lemma ltb_compare (a b : string) : String.ltb a b = true -> String.compare a b = Lt.
Proof. unfold String.ltb. destruct (String.compare a b); congruence. Qed.

Lemma strbinsearch_loop_sound {T : Type} (tab : list (string * T)) (key : string) :
  forall (rounds low hi : nat) (item : string * T),
    strbinsearch_loop rounds tab low hi key = Some item ->
    fst item = key /\ In item tab.
Proof.
  induction rounds as [|rounds IH]; intros low hi item Hrun; [discriminate|].
  cbn [strbinsearch_loop] in Hrun.
  destruct (low <? hi)%nat; [|discriminate].
  destruct (tab !! (low + (hi - low) / 2)%nat) as [item'|] eqn:Hmid; [|discriminate].
  destruct (String.compare key (fst item')) eqn:Hcmp.
  - injection Hrun as <-. apply String.compare_eq_iff in Hcmp. split; [congruence|].
    apply list_elem_of_In. eapply list_elem_of_lookup_2. exact Hmid.
  - eapply IH. exact Hrun.
  - eapply IH. exact Hrun.
Qed.

Lemma strbinsearch_loop_complete {T : Type} (tab : list (string * T)) (key : string) :
  strictly_sorted (map fst tab) ->
  forall (rounds low hi i : nat) (item : string * T),
    (hi - low <= rounds)%nat ->
    (hi <= length tab)%nat ->
    (low <= i < hi)%nat ->
    tab !! i = Some item ->
    fst item = key ->
    strbinsearch_loop rounds tab low hi key = Some item.
Proof.
  intros Hsorted.
  assert (Hless : forall (i j : nat) (a b : string * T),
            tab !! i = Some a -> tab !! j = Some b -> (i < j)%nat ->
            String.compare (fst a) (fst b) = Lt).
  { intros i j a b Hi Hj Hlt. apply ltb_compare.
    exact (Hsorted i j _ _ (lookup_map_fst tab i a Hi) (lookup_map_fst tab j b Hj) Hlt). }
  induction rounds as [|rounds IH]; intros low hi i item Hrounds Hhi Hi Hitem Hkey; [lia|].
  cbn [strbinsearch_loop].
  replace (low <? hi)%nat with true by (symmetry; apply Nat.ltb_lt; lia).
  set (mid := (low + (hi - low) / 2)%nat).
  assert (Hhalf : ((hi - low) / 2 < hi - low)%nat) by (apply Nat.div_lt; lia).
  destruct (lookup_lt_is_Some_2 tab mid) as [item' Hmid]; [lia|].
  rewrite Hmid.
  destruct (String.compare key (fst item')) eqn:Hcmp.
  - apply String.compare_eq_iff in Hcmp.
    destruct (Nat.lt_trichotomy i mid) as [Hlt|[->|Hgt]].
    + pose proof (Hless i mid item item' Hitem Hmid Hlt) as Hc.
      rewrite Hkey, Hcmp in Hc. destruct (compare_irrefl _ Hc).
    + congruence.
    + pose proof (Hless mid i item' item Hmid Hitem Hgt) as Hc.
      rewrite Hkey, Hcmp in Hc. destruct (compare_irrefl _ Hc).
  - apply (IH low mid i item); try lia; try assumption.
    destruct (Nat.lt_trichotomy i mid) as [Hlt|[->|Hgt]]; [lia| |].
    + rewrite Hitem in Hmid. injection Hmid as <-.
      rewrite Hkey in Hcmp. destruct (compare_irrefl _ Hcmp).
    + pose proof (Hless mid i item' item Hmid Hitem Hgt) as Hc.
      rewrite Hkey in Hc. rewrite String.compare_antisym, Hc in Hcmp. discriminate.
  - apply (IH (mid + 1)%nat hi i item); try lia; try assumption.
    destruct (Nat.lt_trichotomy i mid) as [Hlt|[->|Hgt]]; [| |lia].
    + pose proof (Hless i mid item item' Hitem Hmid Hlt) as Hc.
      rewrite Hkey in Hc. congruence.
    + rewrite Hitem in Hmid. injection Hmid as <-.
      rewrite Hkey in Hcmp.
      rewrite compare_refl in Hcmp. discriminate.
Qed.

Lemma janet_strbinsearch_find {T : Type} (tab : list (string * T)) (key : string) :
  strictly_sorted (map fst tab) ->
  janet_strbinsearch tab (length tab) key
  = List.find (fun item => String.eqb (fst item) key) tab.
Proof.
  intros Hsorted. unfold janet_strbinsearch.
  destruct (List.find (fun item => String.eqb (fst item) key) tab) as [item|] eqn:Hfind.
  - apply find_some in Hfind. destruct Hfind as [Hin Heq].
    apply String.eqb_eq in Heq.
    apply list_elem_of_In, list_elem_of_lookup in Hin. destruct Hin as [i Hi].
    pose proof (lookup_lt_Some _ _ _ Hi) as Hbound.
    apply (strbinsearch_loop_complete tab key Hsorted _ _ _ i); try lia; assumption.
  - destruct (strbinsearch_loop (length tab) tab 0 (length tab) key) as [item|] eqn:Hrun;
      [|reflexivity].
    apply strbinsearch_loop_sound in Hrun. destruct Hrun as [Hname Hin].
    apply (find_none _ _ Hfind) in Hin. cbn beta in Hin.
    rewrite Hname, String.eqb_refl in Hin. discriminate.
Qed.

Lemma janetc_specials_sorted : strictly_sorted (map fst janetc_specials).
Proof.
  intros i j a b Hi Hj Hlt. cbn [map fst janetc_specials] in Hi, Hj.
  pose proof (lookup_lt_Some _ _ _ Hj) as Hbound. cbn [length] in Hbound.
  destruct i as [|[|[|[|[|[|[|[|i]]]]]]]]; try lia;
    destruct j as [|[|[|[|[|[|[|[|j]]]]]]]]; try lia;
    cbn in Hi, Hj; injection Hi as <-; injection Hj as <-; reflexivity.
Qed.

(** On the table of specials the binary search finds what a scan of the
    table finds. *)
Lemma janetc_special_find (name : string) :
  janetc_special name
  = List.find (fun sp : JanetSpecial => String.eqb (fst sp) name) janetc_specials.
Proof.
  unfold janetc_special. apply janet_strbinsearch_find. exact janetc_specials_sorted.
Qed.

(** ** Rejected forms *)

(** C10. Whenever the handler of a special detects one of the invalid forms
    itself, it records a compile error and returns the constant nil slot
    ([fn] after popping the function scope it had opened). *)
Theorem rejected_form_returns_nil
  (name : string) (special : JanetSpecial) (opts : JanetFopts)
  (argv : list Janet) (c : JanetCompiler) :
  janetc_special name = Some special ->
  rejected_form name argv c ->
  exists (c' c0 : JanetCompiler) (errmsg : string),
    snd special opts argv c = Some (janetc_cslot janet_wrap_nil, c')
    /\ (c' = janetc_cerror errmsg c0 \/ c' = janetc_popscope (janetc_cerror errmsg c0)).
Proof.
  intros Hspecial Hrejected.
  destruct Hrejected as
    [argv c Hn | argv c Hn | argv c Hn Hhead | argv c sym Hn Hhead Hconst
    | argv c Hn | argv c Hn | argv c Hn | argv c Hn | argv c Hn
    | argv c Hn Hview | argv c params j Hn Hview Hj Hpos];
    rewrite janetc_special_find in Hspecial;
    unfold janetc_specials in Hspecial;
    cbn [List.find fst String.eqb Ascii.eqb Bool.eqb] in Hspecial;
    injection Hspecial as <-; cbn [snd].
  - unfold janetc_quote.
    replace (argn argv =? 1) with false by (symmetry; apply Z.eqb_neq; exact Hn).
    do 3 eexists. split; [reflexivity|]. left. reflexivity.
  - unfold janetc_varset.
    replace (argn argv =? 2) with false by (symmetry; apply Z.eqb_neq; exact Hn).
    do 3 eexists. split; [reflexivity|]. left. reflexivity.
  - unfold janetc_varset. rewrite Hn. simpl negb. cbv iota.
    destruct (arg argv 0) as [|b|n|s|s|vs|vs|kvs p|kvs|id];
      try (do 3 eexists; split; [reflexivity|]; left; reflexivity).
    exfalso. apply (Hhead s). reflexivity.
  - unfold janetc_varset. rewrite Hn, Hhead. simpl negb. cbv iota.
    destruct (janetc_resolve sym c) as [dest c1]. simpl in Hconst. rewrite Hconst.
    do 3 eexists. split; [reflexivity|]. left. reflexivity.
  - unfold janetc_if.
    replace ((argn argv <? 2) || (3 <? argn argv)) with true
      by (symmetry; apply orb_true_iff; destruct Hn; [left|right]; apply Z.ltb_lt; lia).
    do 3 eexists. split; [reflexivity|]. left. reflexivity.
  - unfold janetc_while.
    replace (argn argv <? 2) with true by (symmetry; apply Z.ltb_lt; exact Hn).
    do 3 eexists. split; [reflexivity|]. left. reflexivity.
  - unfold janetc_def, dohead.
    replace (argn argv <? 2) with true by (symmetry; apply Z.ltb_lt; exact Hn).
    rewrite janetc_cerror_status.
    do 3 eexists. split; [reflexivity|]. left. reflexivity.
  - unfold janetc_var, dohead.
    replace (argn argv <? 2) with true by (symmetry; apply Z.ltb_lt; exact Hn).
    rewrite janetc_cerror_status.
    do 3 eexists. split; [reflexivity|]. left. reflexivity.
  - unfold janetc_fn.
    replace (argn argv <? 2) with true by (symmetry; apply Z.ltb_lt; exact Hn).
    do 3 eexists. split; [reflexivity|]. right. reflexivity.
  - unfold janetc_fn, fn_parami in *.
    replace (argn argv <? 2) with false by (symmetry; apply Z.ltb_ge; lia).
    destruct (arg argv 0);
      match goal with
      | |- context [argn argv <=? ?p] =>
          replace (argn argv <=? p) with false by (symmetry; apply Z.leb_gt; lia)
      end;
      rewrite Hview;
      do 3 eexists; (split; [reflexivity|]); right; reflexivity.
  - destruct (janetc_fn_misplaced opts argv params c j Hn Hview Hj Hpos) as [c0 Hc0].
    rewrite Hc0. do 3 eexists. split; [reflexivity|]. right. reflexivity.
Qed.

End Properties.

(** * The properties on the reference collaborators *)

(** An elided loop whose body, compiled on its own, is a compile error. *)
Lemma while_falsy_constant_elided_witness :
  let c := Reference.local in
  let r :=
    janetc_value (Collaborators := Reference.X 1) Reference.fopts_default
      (JBoolean false) (Reference.scope 0 "while" c) in
  janetc_while (K := Reference.constants) (X := Reference.X 1) Reference.fopts_default
    [JBoolean false; Reference.unbound] c
  = Some (Reference.cslot JNil, Reference.popscope (snd r))
  /\ forall body' : list Janet,
       body' <> [] ->
       janetc_while (K := Reference.constants) (X := Reference.X 1) Reference.fopts_default
         (JBoolean false :: body') c
       = janetc_while (K := Reference.constants) (X := Reference.X 1)
           Reference.fopts_default [JBoolean false; Reference.unbound] c.
Proof.
  intros c r.
  apply (@while_falsy_constant_elided Reference.constants (Reference.X 1)
           Reference.fopts_default (JBoolean false) [Reference.unbound] c (fst r) (snd r)).
  - discriminate.
  - reflexivity.
  - reflexivity.
  - reflexivity.
Defined.

Example while_falsy_constant_hides_body_error :
  let X := Reference.X 1 in
  status_is_error
    (snd (janetc_value (Collaborators := X) Reference.fopts_default Reference.unbound
            Reference.local)) = true
  /\ option_map (fun r => (status_is_error (snd r), c_buffer (snd r)))
       (janetc_while (K := Reference.constants) (X := X) Reference.fopts_default
          [JBoolean false; Reference.unbound] Reference.local)
     = Some (false, []).
Proof. split; reflexivity. Qed.

(** [(if true (f) (do (g) undefined))]: the dead branch emits a call and
    then fails on the unbound symbol. *)
Lemma if_constant_condition_witness :
  let K := Reference.constants in
  let X := Reference.X 2 in
  let opts := Reference.fopts_default in
  let dead := JTuple [JSymbol "do"; Reference.call_g; Reference.unbound] in
  let argv := [JBoolean true; Reference.call_f; dead] in
  let r0 := janetc_gettarget opts Reference.local in
  let r2 := janetc_value janetc_fopts_default (arg argv 0) (janetc_scope 0 "if" (snd r0)) in
  let r4 := janetc_value opts (arg argv 1) (janetc_scope 0 "if-body" (snd r2)) in
  let c6 := janetc_popscope (janetc_popscope (snd r4)) in
  let rd := janetc_value opts (arg argv 2) c6 in
  (exists c' : JanetCompiler,
      janetc_if opts argv Reference.local = Some (fst r4, c')
      /\ c_buffer c' = c_buffer c6
      /\ c_result c' = c_result (snd rd)
      /\ c_scope c' = c_scope (snd rd)
      /\ c_parents c' = c_parents (snd rd))
  /\ (forall x : Janet, janet_truthy x = false <-> x = JNil \/ x = JBoolean false).
Proof.
  intros K X opts dead argv r0 r2 r4 c6 rd.
  assert (H1 : 2 <= argn argv <= 3) by (vm_compute; split; discriminate).
  assert (H2 : (if has_flag (fo_flags opts) JANET_FOPTS_DROP
                   || has_flag (fo_flags opts) JANET_FOPTS_TAIL
                then (janetc_cslot janet_wrap_nil, Reference.local)
                else janetc_gettarget opts Reference.local) = (fst r0, snd r0))
    by (vm_compute; reflexivity).
  assert (H3 : janetc_value janetc_fopts_default (arg argv 0)
                 (janetc_scope 0 "if" (snd r0)) = (fst r2, snd r2))
    by (vm_compute; reflexivity).
  assert (H4 : has_flag (s_flags (fst r2)) JANET_SLOT_CONSTANT = true)
    by (vm_compute; reflexivity).
  pose proof (@if_constant_condition K X opts argv Reference.local
                (fst r0) (fst r2) (fst r4) (fst rd) (snd r0) (snd r2) (snd r4) (snd rd)
                H1 H2 H3 H4) as W.
  cbv zeta in W.
  assert (H5 : janetc_value opts
                 (if janet_truthy (s_constant (fst r2)) then arg argv 1
                  else if 2 <? argn argv then arg argv 2 else janet_wrap_nil)
                 (janetc_scope 0 "if-body" (snd r2)) = (fst r4, snd r4))
    by (vm_compute; reflexivity).
  specialize (W H5).
  assert (H6 : janetc_value opts
                 (if janet_truthy (s_constant (fst r2))
                  then if 2 <? argn argv then arg argv 2 else janet_wrap_nil
                  else arg argv 1)
                 (janetc_popscope (janetc_popscope (snd r4))) = (fst rd, snd rd))
    by (vm_compute; reflexivity).
  specialize (W H6).
  assert (H7 : c_buffer (janetc_popscope (janetc_popscope (snd r4)))
                 `prefix_of` c_buffer (snd rd))
    by (exists [Z.lor 0x33 (Z.shiftl 1 8)]; vm_compute; reflexivity).
  exact (W H7).
Defined.

Example if_constant_dead_branch_error_surfaces :
  option_map
    (fun r => (c_buffer (snd r), r_status (c_result (snd r)), r_error (c_result (snd r))))
    (janetc_if (K := Reference.constants) (X := Reference.X 2) Reference.fopts_default
       [JBoolean true; Reference.call_f;
        JTuple [JSymbol "do"; Reference.call_g; Reference.unbound]]
       Reference.local)
  = Some ([Z.lor 0x33 (Z.shiftl 1 8)], JANET_COMPILE_ERROR, "unknown symbol"%string).
Proof. vm_compute. reflexivity. Qed.

Lemma def_var_value_options_witness :
  let K := Reference.constants in
  let X := Reference.X 1 in
  let opts := Reference.hinted_tail in
  let argv := [JSymbol "x"; Reference.call_f] in
  let c := Reference.local in
  let value_form := arg argv (argn argv - 1) in
  let odef :=
    dohead_subopts
      (fopts_set_flags opts (Z.land (fo_flags opts) (Z.lnot JANET_FOPTS_HINT))) in
  let ovar := dohead_subopts opts in
  janetc_def opts argv c = binding_tail defleaf argv (janetc_value odef value_form c)
  /\ janetc_var opts argv c = binding_tail varleaf argv (janetc_value ovar value_form c)
  /\ Z.land (fo_flags odef) JANET_FOPTS_TAIL = 0
  /\ Z.land (fo_flags odef) JANET_FOPTS_DROP = 0
  /\ Z.land (fo_flags odef) JANET_FOPTS_HINT = 0
  /\ Z.land (fo_flags ovar) JANET_FOPTS_TAIL = 0
  /\ Z.land (fo_flags ovar) JANET_FOPTS_DROP = 0
  /\ Z.land (fo_flags ovar) JANET_FOPTS_HINT = Z.land (fo_flags opts) JANET_FOPTS_HINT
  /\ fo_hint odef = fo_hint opts
  /\ fo_hint ovar = fo_hint opts.
Proof.
  intros K X opts argv c.
  assert (H1 : 2 <= argn argv) by (vm_compute; discriminate).
  assert (H2 : Z.land JANET_FOPTS_HINT (Z.lor JANET_FOPTS_TAIL JANET_FOPTS_DROP) = 0)
    by (vm_compute; reflexivity).
  exact (@def_var_value_options K X opts argv c H1 H2).
Defined.

(** C3, as stated, fails.  A caller passes the hint flag; the dispatcher
    that [def] calls for the value expression does not see it, the one that
    [var] calls does. *)
Lemma def_var_hint_counterexample :
  let K := Reference.constants in
  let X := Reference.collaborators Reference.hint_probe in
  let argv := [JSymbol "x"; Reference.call_f] in
  r_error (c_result (snd (janetc_def Reference.hinted_tail argv Reference.local)))
  = "value compiled without hint"%string
  /\ r_error (c_result (snd (janetc_var Reference.hinted_tail argv Reference.local)))
     = "value compiled with hint"%string.
Proof. vm_compute. split; reflexivity. Qed.

(** [(def [a b] (f))] and [(var [a b] (f))] inside a function. *)
Lemma destructure_consumption_report_witness :
  let K := Reference.constants in
  let X := Reference.X 1 in
  let opts := Reference.fopts_default in
  let pattern := JTuple [JSymbol "a"; JSymbol "b"] in
  let argv := [pattern; Reference.call_f] in
  let c := Reference.local in
  let s := {| s_index := 3; s_envindex := 0; s_flags := 0; s_constant := JNil |} in
  let rv := dohead opts argv c in
  let av := handleattr argv (snd rv) in
  let dv := destructure varleaf (Some (fst av)) (arg argv 0) (fst rv) (snd av) in
  let rd :=
    dohead (fopts_set_flags opts (Z.land (fo_flags opts) (Z.lnot JANET_FOPTS_HINT)))
      argv c in
  let ad := handleattr argv (snd rd) in
  let dd := destructure defleaf (Some (fst ad)) (arg argv 0) (fst rd) (snd ad) in
  fst (destructure defleaf None pattern s c) = true
  /\ (fst (defleaf "a" s None c) = negb (isUnnamedRegister s)
      /\ fst (varleaf "a" s None c) = negb (isUnnamedRegister s))
  /\ janetc_var opts argv c
     = (janetc_cslot janet_wrap_nil,
        if fst dv then janetc_freeslot (fst rv) (snd dv) else snd dv)
  /\ janetc_def opts argv c
     = (janetc_cslot janet_wrap_nil,
        if fst dd then janetc_freeslot (fst rd) (snd dd) else snd dd).
Proof.
  intros K X opts pattern argv c s rv av dv rd ad dd.
  destruct (@destructure_consumption_report K X) as (Hcomposite & _ & Hleaf & Hvar & Hdef).
  split; [|split; [|split]].
  - exact (Hcomposite defleaf None pattern s c eq_refl).
  - assert (Htop : has_flag (sc_flags (c_scope c)) JANET_SCOPE_TOP = false)
      by (vm_compute; reflexivity).
    exact (Hleaf "a"%string s None c Htop).
  - assert (H1 : dohead opts argv c = (fst rv, snd rv)) by (vm_compute; reflexivity).
    assert (H2 : status_is_error (snd rv) = false) by (vm_compute; reflexivity).
    assert (H3 : handleattr argv (snd rv) = (fst av, snd av)) by (vm_compute; reflexivity).
    assert (H4 : destructure varleaf (Some (fst av)) (arg argv 0) (fst rv) (snd av)
                 = (fst dv, snd dv)) by (vm_compute; reflexivity).
    exact (Hvar opts argv c (fst rv) (snd rv) (fst av) (snd av) (fst dv) (snd dv)
             H1 H2 H3 H4).
  - assert (H1 : dohead
                   (fopts_set_flags opts (Z.land (fo_flags opts) (Z.lnot JANET_FOPTS_HINT)))
                   argv c = (fst rd, snd rd)) by (vm_compute; reflexivity).
    assert (H2 : status_is_error (snd rd) = false) by (vm_compute; reflexivity).
    assert (H3 : handleattr argv (snd rd) = (fst ad, snd ad)) by (vm_compute; reflexivity).
    assert (H4 : destructure defleaf (Some (fst ad)) (arg argv 0) (fst rd) (snd ad)
                 = (fst dd, snd dd)) by (vm_compute; reflexivity).
    exact (Hdef opts argv c (fst rd) (snd rd) (fst ad) (snd ad) (fst dd) (snd dd)
             H1 H2 H3 H4).
Defined.

(** A struct pattern whose storage has an unused slot between two entries. *)
Lemma destructure_dictionary_skips_nil_keys_witness :
  let K := Reference.constants in
  let X := Reference.X 1 in
  let right := {| s_index := 3; s_envindex := 0; s_flags := 0; s_constant := JNil |} in
  let kvs := [(JNil, JNil); (JSymbol ":y", JSymbol "b")] in
  let c := Reference.local in
  destructure defleaf None (JStruct ((JSymbol ":x", JSymbol "a") :: kvs)) right c
  = destructure defleaf None (JStruct kvs) right
      (dictionary_step defleaf None right c (JSymbol ":x", JSymbol "a"))
  /\ destructure defleaf None (JStruct kvs) right c
     = (true, fold_left (dictionary_step defleaf None right) (live_slots kvs) c).
Proof.
  intros K X right kvs c.
  destruct (@destructure_dictionary_skips_nil_keys K X defleaf None kvs JNil right c)
    as (Hstruct & _ & _ & Hstep & _).
  assert (Hkey : JSymbol ":x" <> JNil) by discriminate.
  split.
  - exact (Hstep (JSymbol ":x") (JSymbol "a") Hkey).
  - exact Hstruct.
Defined.

Example destructure_dictionary_two_gets :
  let K := Reference.constants in
  let X := Reference.X 1 in
  let right := {| s_index := 3; s_envindex := 0; s_flags := 0; s_constant := JNil |} in
  let pattern :=
    JStruct [(JSymbol ":x", JSymbol "a"); (JNil, JNil); (JSymbol ":y", JSymbol "b")] in
  let get := fun w => Z.land w 0xFF =? JOP_GET in
  length (List.filter get (c_buffer (snd (destructure defleaf None pattern right
                                            Reference.local)))) = 2%nat
  /\ status_is_error (snd (destructure defleaf None pattern right Reference.local)) = false.
Proof. vm_compute. split; reflexivity. Qed.

(** [(while (p) (f) (g))] after one earlier instruction. *)
Lemma while_loop_jumps_witness :
  let K := Reference.constants in
  let X := Reference.X 1 in
  let opts := Reference.fopts_default in
  let argv := [Reference.call_p; Reference.call_f; Reference.call_g] in
  let c := Reference.after_call in
  let r2 := janetc_value janetc_fopts_default (arg argv 0) (janetc_scope 0 "while" c) in
  let r3 := janetc_emit_si JOP_JUMP_IF_NOT (fst r2) 0 0 (snd r2) in
  let c4 := while_body janetc_fopts_default (drop 1 argv) (snd r3) in
  let labelc := fst r3 in
  let labelwt := janet_v_count (c_buffer c) in
  let labeljt := janet_v_count (c_buffer c4) in
  let labeld := labeljt + 1 in
  let exit_check (w : Z) := Z.lor w (to_u32 (Z.shiftl (labeld - labelc) 16)) in
  let back_jump := Z.lor JOP_JUMP (to_u32 (Z.shiftl (labelwt - labeljt) 8)) in
  let code :=
    if has_flag (s_flags (fst r2)) JANET_SLOT_CONSTANT then c_buffer c4
    else alter exit_check (Z.to_nat labelc) (c_buffer c4) in
  janetc_while opts argv c
    = Some (janetc_cslot janet_wrap_nil,
            janetc_popscope (set_buffer (code ++ [back_jump]) (janetc_emit JOP_JUMP c4)))
  /\ (has_flag (s_flags (fst r2)) JANET_SLOT_CONSTANT = true ->
      snd r3 = snd r2 /\ code = c_buffer c4)
  /\ (0 <= JOP_JUMP < 2 ^ 8 ->
      Z.shiftr back_jump 8 = (labelwt - labeljt) mod 2 ^ 24)
  /\ (has_flag (s_flags (fst r2)) JANET_SLOT_CONSTANT = false ->
      forall w : Z,
        c_buffer c4 !! Z.to_nat labelc = Some w ->
        code !! Z.to_nat labelc = Some (exit_check w)
        /\ (0 <= w < 2 ^ 16 ->
            Z.shiftr (exit_check w) 16 = (labeld - labelc) mod 2 ^ 16)).
Proof.
  intros K X opts argv c r2 r3 c4.
  assert (H1 : 2 <= argn argv) by (vm_compute; discriminate).
  assert (H2 : janetc_value janetc_fopts_default (arg argv 0) (janetc_scope 0 "while" c)
               = (fst r2, snd r2)) by (vm_compute; reflexivity).
  assert (H3 : has_flag (s_flags (fst r2)) JANET_SLOT_CONSTANT
               && negb (janet_truthy (s_constant (fst r2))) = false)
    by (vm_compute; reflexivity).
  assert (H4 : (if has_flag (s_flags (fst r2)) JANET_SLOT_CONSTANT
                then (0, snd r2)
                else janetc_emit_si JOP_JUMP_IF_NOT (fst r2) 0 0 (snd r2))
               = (fst r3, snd r3)) by (vm_compute; reflexivity).
  assert (H5 : while_body janetc_fopts_default (drop 1 argv) (snd r3) = c4)
    by reflexivity.
  assert (H6 : has_flag (sc_flags (c_scope c4)) JANET_SCOPE_CLOSURE = false)
    by (vm_compute; reflexivity).
  assert (H7 : has_flag (s_flags (fst r2)) JANET_SLOT_CONSTANT = false ->
               0 <= fst r3 < janet_v_count (c_buffer c4))
    by (intros _; vm_compute; split; [discriminate | reflexivity]).
  exact (@while_loop_jumps K X opts argv c (fst r2) (snd r2) (snd r3) c4 (fst r3)
           H1 H2 H3 H4 H5 H6 H7).
Defined.

(** The code of that loop: the earlier call; the condition at position 1,
    the top of the loop; the exit check at position 2 with displacement
    6 - 2; the two body calls; the jump at position 5 with displacement
    1 - 5. *)
Example while_loop_code :
  let K := Reference.constants in
  let X := Reference.X 1 in
  option_map (fun r => c_buffer (snd r))
    (janetc_while Reference.fopts_default
       [Reference.call_p; Reference.call_f; Reference.call_g] Reference.after_call)
  = Some [Z.lor JOP_CALL (Z.shiftl 0xF0 8);
          Z.lor JOP_CALL (Z.shiftl 0 8);
          Z.lor JOP_JUMP_IF_NOT (Z.shiftl 4 16);
          Z.lor JOP_CALL (Z.shiftl 1 8);
          Z.lor JOP_CALL (Z.shiftl 1 8);
          Z.lor JOP_JUMP (Z.shiftl (2 ^ 24 - 4) 8)].
Proof. vm_compute. reflexivity. Qed.

(** C5, as stated, fails.  In [(while (fn [] 1) (f))] the body creates no
    closure and the condition is no constant, but the condition creates a
    closure in the scope of the loop: the loop is rewritten into a function,
    and neither the code at the place of the loop nor the code of that
    function holds an exit check or a back-jump. *)
Lemma while_closure_in_condition_counterexample :
  let K := Reference.constants in
  let X := Reference.X 2 in
  let argv := [Reference.fn_literal; Reference.call_f] in
  let opened := janetc_scope 0 "while" Reference.local in
  has_flag (sc_flags (c_scope (while_body janetc_fopts_default (drop 1 argv) opened)))
    JANET_SCOPE_CLOSURE = false
  /\ has_flag (s_flags (fst (janetc_value janetc_fopts_default (arg argv 0) opened)))
       JANET_SLOT_CONSTANT = false
  /\ option_map
       (fun r =>
          (status_is_error (snd r),
           existsb Reference.is_loop_jump
             (c_buffer (snd r) ++ concat (map fd_bytecode (sc_defs (c_scope (snd r)))))))
       (janetc_while Reference.fopts_default argv Reference.local)
     = Some (false, false).
Proof. vm_compute. repeat split. Qed.

(** [(while true (f))] has no exit check. *)
Example while_infinite_loop_code :
  let K := Reference.constants in
  let X := Reference.X 1 in
  option_map (fun r => c_buffer (snd r))
    (janetc_while Reference.fopts_default [JBoolean true; Reference.call_f]
       Reference.local)
  = Some [Z.lor JOP_CALL (Z.shiftl 0 8); Z.lor JOP_JUMP (Z.shiftl (2 ^ 24 - 1) 8)].
Proof. vm_compute. reflexivity. Qed.

(** [(fn [a & rest] a)] and [(fn [& a rest] a)] in the root function. *)
Lemma fn_vararg_marker_witness :
  let K := Reference.constants in
  let X := Reference.X 1 in
  let opts := Reference.fopts_default in
  let c := Reference.local in
  let argv := [JTuple [JSymbol "a"; JSymbol "&"; JSymbol "rest"]; JSymbol "a"] in
  let misplaced := [JSymbol "&"; JSymbol "a"; JSymbol "rest"] in
  let opened :=
    janetc_scope JANET_SCOPE_FUNCTION "function"
      (set_scope
         (scope_set_flags (c_scope c) (Z.lor (sc_flags (c_scope c)) JANET_SCOPE_CLOSURE))
         c) in
  let cp := fold_left bind_param ([JSymbol "a"] ++ [JSymbol "rest"]) opened in
  let cb := snd (fn_body janetc_fopts_default [JSymbol "a"] cp) in
  let r := janetc_pop_funcdef cb in
  let f := c_scope (snd r) in
  (fn_params [JSymbol "a"; JSymbol "&"; JSymbol "rest"] 0 3 0 0 c
   = inr (1, 2 - 1, fold_left bind_param [JSymbol "a"; JSymbol "rest"] c)
   /\ fn_params [JSymbol "a"; JSymbol "rest"] 0 2 0 0 c
      = inr (0, 2, fold_left bind_param [JSymbol "a"; JSymbol "rest"] c))
  /\ (exists k : nat,
         (k <= 0)%nat
         /\ misplaced !! k = Some (JSymbol "&")
         /\ Z.of_nat k <> janet_v_count misplaced - 2
         /\ fn_params misplaced 0 (janet_v_count misplaced) 0 0 c
            = inl (vararg_error,
                   fold_left bind_param (List.filter is_parameter (take k misplaced)) c))
  /\ (exists k : nat,
         (k <= 0)%nat
         /\ misplaced !! k = Some (JSymbol "&")
         /\ Z.of_nat k <> janet_v_count misplaced - 2
         /\ let c0 :=
              fold_left bind_param (List.filter is_parameter (take k misplaced)) opened in
            janetc_fn opts [JTuple misplaced; JSymbol "a"] c
              = Some (janetc_cslot janet_wrap_nil,
                      janetc_popscope (janetc_cerror vararg_error c0))
            /\ status_is_error (janetc_cerror vararg_error c0) = true
            /\ (status_is_error c0 = false ->
                r_error (c_result (janetc_cerror vararg_error c0)) = vararg_error))
  /\ (exists (def : JanetFuncDef) (c2 : JanetCompiler),
         janetc_fn opts argv c
           = Some (let (ret, c3) := janetc_gettarget opts c2 in
                   (ret, snd (janetc_emit_su JOP_CLOSURE ret (janet_v_count (sc_defs f)) 1 c3)))
         /\ chain c2 = [] ++ scope_set_defs f (sc_defs f ++ [def]) :: []
         /\ fd_flags def = Z.lor (fd_flags (fst r)) JANET_FUNCDEF_FLAG_VARARG
         /\ Z.land (fd_flags def) JANET_FUNCDEF_FLAG_VARARG = JANET_FUNCDEF_FLAG_VARARG
         /\ fd_arity def = janet_v_count [JSymbol "a"]).
Proof.
  intros K X opts c argv misplaced opened cp cb r f.
  destruct (@fn_vararg_marker K X) as (Haccept & Hreject & Hfn & Hflag).
  assert (Hfree : existsb is_vararg_marker [JSymbol "a"] = false) by reflexivity.
  assert (Hlast : is_vararg_marker (JSymbol "rest") = false) by reflexivity.
  assert (Hat : misplaced !! 0%nat = Some (JSymbol "&")) by reflexivity.
  assert (Hpos : Z.of_nat 0 <> janet_v_count misplaced - 2) by (vm_compute; discriminate).
  assert (H1 : 2 <= argn [JTuple misplaced; JSymbol "a"]) by (vm_compute; discriminate).
  assert (H2 : janet_indexed_view
                 (arg [JTuple misplaced; JSymbol "a"]
                    (fn_parami [JTuple misplaced; JSymbol "a"])) = Some misplaced)
    by reflexivity.
  assert (H3 : 2 <= argn argv) by (vm_compute; discriminate).
  assert (H4 : janet_indexed_view (arg argv (fn_parami argv))
               = Some ([JSymbol "a"] ++ [JSymbol "&"; JSymbol "rest"])) by reflexivity.
  assert (H5 : (if fn_parami argv + 1 =? argn argv
                then (true, janetc_emit JOP_RETURN_NIL cp)
                else fn_body janetc_fopts_default
                       (drop (Z.to_nat (fn_parami argv + 1)) argv) cp)
               = (true, cb)) by (vm_compute; reflexivity).
  assert (H6 : janetc_pop_funcdef cb = (fst r, snd r)) by (vm_compute; reflexivity).
  assert (H7 : chain (snd r) = [] ++ f :: []) by (vm_compute; reflexivity).
  assert (H8 : Forall (fun s => is_function_scope s = false) []) by constructor.
  assert (H9 : is_function_scope f = true) by (vm_compute; reflexivity).
  split; [exact (Haccept [JSymbol "a"] (JSymbol "rest") c Hfree Hlast)|].
  split; [exact (Hreject misplaced c 0%nat Hat Hpos)|].
  split; [exact (Hfn opts [JTuple misplaced; JSymbol "a"] misplaced c 0%nat H1 H2 Hat Hpos)|].
  exact (Hflag opts argv [JSymbol "a"] (JSymbol "rest") c cb (snd r) (fst r) [] f []
           H3 H4 Hfree Hlast H5 H6 H7 H8 H9).
Defined.

(** [(fn [a & rest] a)] compiles to a definition of arity 1 with the vararg
    flag; [(fn [& a rest] a)] is the misplaced-vararg error. *)
Example fn_vararg_runs :
  let K := Reference.constants in
  let X := Reference.X 1 in
  option_map
    (fun r => (status_is_error (snd r),
               map (fun d => (fd_arity d, fd_flags d)) (sc_defs (c_scope (snd r)))))
    (janetc_fn Reference.fopts_default
       [JTuple [JSymbol "a"; JSymbol "&"; JSymbol "rest"]; JSymbol "a"] Reference.local)
  = Some (false, [(1, JANET_FUNCDEF_FLAG_VARARG)])
  /\ option_map (fun r => (fst r, r_error (c_result (snd r))))
       (janetc_fn Reference.fopts_default
          [JTuple [JSymbol "&"; JSymbol "a"; JSymbol "rest"]; JSymbol "a"] Reference.local)
     = Some (Reference.cslot JNil, vararg_error).
Proof. vm_compute. split; reflexivity. Qed.

(** [(fn [a b] a)] in the root function. *)
Lemma fn_fixarity_flag_witness :
  let K := Reference.constants in
  let X := Reference.X 1 in
  let opts := Reference.fopts_default in
  let c := Reference.local in
  let params := [JSymbol "a"; JSymbol "b"] in
  let argv := [JTuple params; JSymbol "a"] in
  let opened :=
    janetc_scope JANET_SCOPE_FUNCTION "function"
      (set_scope
         (scope_set_flags (c_scope c) (Z.lor (sc_flags (c_scope c)) JANET_SCOPE_CLOSURE))
         c) in
  let cp :=
    match fn_params params 0 (janet_v_count params) 0 0 opened with
    | inl (_, c') | inr (_, _, c') => c'
    end in
  let cb := snd (fn_body janetc_fopts_default [JSymbol "a"] cp) in
  let r := janetc_pop_funcdef cb in
  let f := c_scope (snd r) in
  exists (def : JanetFuncDef) (c2 : JanetCompiler),
    janetc_fn opts argv c
      = Some (let (ret, c3) := janetc_gettarget opts c2 in
              (ret, snd (janetc_emit_su JOP_CLOSURE ret (janet_v_count (sc_defs f)) 1 c3)))
    /\ chain c2 = [] ++ scope_set_defs f (sc_defs f ++ [def]) :: []
    /\ has_flag (fd_flags def) JANET_FUNCDEF_FLAG_FIXARITY
       = match arg argv (fn_parami argv) with
         | JTuple _ => negb (existsb is_vararg_marker params)
         | _ => false
         end
    /\ (existsb is_vararg_marker params = true ->
        Z.land (fd_flags def) JANET_FUNCDEF_FLAG_VARARG = JANET_FUNCDEF_FLAG_VARARG)
    /\ (existsb is_vararg_marker params = false ->
        Z.land (fd_flags def) JANET_FUNCDEF_FLAG_VARARG
        = Z.land (fd_flags (fst r)) JANET_FUNCDEF_FLAG_VARARG).
Proof.
  intros K X opts c params argv opened cp cb r f.
  assert (H1 : JANET_FUNCDEF_FLAG_FIXARITY <> 0) by (vm_compute; discriminate).
  assert (H2 : Z.land JANET_FUNCDEF_FLAG_VARARG JANET_FUNCDEF_FLAG_FIXARITY = 0)
    by (vm_compute; reflexivity).
  assert (H3 : Z.land (fd_flags (fst r)) JANET_FUNCDEF_FLAG_FIXARITY = 0)
    by (vm_compute; reflexivity).
  assert (H4 : 2 <= argn argv) by (vm_compute; discriminate).
  assert (H5 : janet_indexed_view (arg argv (fn_parami argv)) = Some params) by reflexivity.
  assert (H6 : fn_params params 0 (janet_v_count params) 0 0 opened = inr (0, 2, cp))
    by (vm_compute; reflexivity).
  assert (H7 : (if fn_parami argv + 1 =? argn argv
                then (true, janetc_emit JOP_RETURN_NIL cp)
                else fn_body janetc_fopts_default
                       (drop (Z.to_nat (fn_parami argv + 1)) argv) cp)
               = (true, cb)) by (vm_compute; reflexivity).
  assert (H8 : janetc_pop_funcdef cb = (fst r, snd r)) by (vm_compute; reflexivity).
  assert (H9 : chain (snd r) = [] ++ f :: []) by (vm_compute; reflexivity).
  assert (H10 : Forall (fun s => is_function_scope s = false) []) by constructor.
  assert (H11 : is_function_scope f = true) by (vm_compute; reflexivity).
  exact (@fn_fixarity_flag K X opts argv params c cp cb (snd r) (fst r) 0 2 [] f []
           H1 H2 H3 H4 H5 H6 H7 H8 H9 H10 H11).
Defined.

(** The flags of the definitions of [(fn [a b] a)], [(fn [a & b] a)],
    [(fn @[a b] a)] and [(fn @[a & b] a)]: fixed arity, vararg, none,
    vararg. *)
Example fn_flags_run :
  let K := Reference.constants in
  let X := Reference.X 1 in
  let flags (paramv : Janet) :=
    option_map (fun r => map fd_flags (sc_defs (c_scope (snd r))))
      (janetc_fn Reference.fopts_default [paramv; JSymbol "a"] Reference.local) in
  flags (JTuple [JSymbol "a"; JSymbol "b"]) = Some [JANET_FUNCDEF_FLAG_FIXARITY]
  /\ flags (JTuple [JSymbol "a"; JSymbol "&"; JSymbol "b"]) = Some [JANET_FUNCDEF_FLAG_VARARG]
  /\ flags (JArray [JSymbol "a"; JSymbol "b"]) = Some [0]
  /\ flags (JArray [JSymbol "a"; JSymbol "&"; JSymbol "b"]) = Some [JANET_FUNCDEF_FLAG_VARARG].
Proof. vm_compute. repeat split. Qed.

(** C7, as stated, fails.  [(fn [& xs] nil)] compiles; its parameter list is
    a tuple, and the definition carries the vararg flag and not the
    fixed-arity flag. *)
Lemma fn_fixarity_counterexample :
  let K := Reference.constants in
  let X := Reference.X 1 in
  option_map
    (fun r => (status_is_error (snd r),
               map (fun d => has_flag (fd_flags d) JANET_FUNCDEF_FLAG_FIXARITY)
                 (sc_defs (c_scope (snd r)))))
    (janetc_fn Reference.fopts_default [JTuple [JSymbol "&"; JSymbol "xs"]; JNil]
       Reference.local)
  = Some (false, [false]).
Proof. vm_compute. reflexivity. Qed.


(** [(while (p) (fn [] 1))] in the root function: the loop function is the
    second definition of the root (the first is the [fn] of the pass that was
    rolled back), and the closure instruction carries index 1. *)
Example while_closure_registered :
  let K := Reference.constants in
  let X := Reference.X 2 in
  option_map
    (fun r => (map fd_name (sc_defs (c_scope (snd r))), c_buffer (snd r)))
    (janetc_while Reference.fopts_default
       [Reference.call_p; JTuple [JSymbol "fn"; JArray []; JInteger 1]] Reference.local)
  = Some ([None; Some "_while"%string],
          [Z.lor (Z.lor JOP_CLOSURE (Z.shiftl 0xF0 8)) (Z.shiftl 1 16);
           Z.lor (Z.lor JOP_CALL (Z.shiftl 0xF0 8)) (Z.shiftl 0xF0 16)]).
Proof. vm_compute. reflexivity. Qed.

(** [(while true (fn))]: the body sets the CLOSURE flag of the loop scope
    and fails before it emits anything.  In a compiler that has emitted
    nothing yet the rewrite then stores the count through the NULL buffer;
    after an earlier instruction it goes through. *)
Example while_closure_rewrite_on_null_buffer :
  let K := Reference.constants in
  let X := Reference.X 2 in
  let argv := [JBoolean true; JTuple [JSymbol "fn"]] in
  janetc_while Reference.fopts_default argv Reference.local = None
  /\ option_map (fun r => map fd_name (sc_defs (c_scope (snd r))))
       (janetc_while Reference.fopts_default argv Reference.after_call)
     = Some [Some "_while"%string].
Proof. vm_compute. split; reflexivity. Qed.

(** [(fn [& a rest] a)], through the table of specials. *)
Lemma rejected_form_returns_nil_witness :
  let K := Reference.constants in
  let X := Reference.X 1 in
  let argv := [JTuple [JSymbol "&"; JSymbol "a"; JSymbol "rest"]; JSymbol "a"] in
  exists (c' c0 : JanetCompiler) (errmsg : string),
    janetc_fn Reference.fopts_default argv Reference.local
    = Some (janetc_cslot janet_wrap_nil, c')
    /\ (c' = janetc_cerror errmsg c0 \/ c' = janetc_popscope (janetc_cerror errmsg c0)).
Proof.
  intros K X argv.
  assert (H1 : janetc_special "fn" = Some ("fn"%string, janetc_fn)) by reflexivity.
  assert (H2 : rejected_form "fn" argv Reference.local).
  { apply (rejected_fn_vararg argv Reference.local
             [JSymbol "&"; JSymbol "a"; JSymbol "rest"] 0%nat).
    - vm_compute. discriminate.
    - reflexivity.
    - reflexivity.
    - vm_compute. discriminate. }
  exact (@rejected_form_returns_nil K X "fn" ("fn"%string, janetc_fn)
           Reference.fopts_default argv Reference.local H1 H2).
Defined.

(** Every rejected form of the list, on the reference collaborators. *)
Example rejected_forms_run :
  let K := Reference.constants in
  let X := Reference.X 1 in
  let opts := Reference.fopts_default in
  let c := Reference.local in
  let outcome (r : option (JanetSlot * JanetCompiler)) :=
    option_map (fun r => (fst r, r_error (c_result (snd r)))) r in
  outcome (Some (janetc_quote opts [] c))
    = Some (Reference.cslot JNil, "expected 1 argument"%string)
  /\ outcome (Some (janetc_varset opts [JSymbol "x"] c))
     = Some (Reference.cslot JNil, "expected 2 arguments"%string)
  /\ outcome (Some (janetc_varset opts [JInteger 1; JInteger 2] c))
     = Some (Reference.cslot JNil, "expected symbol"%string)
  /\ outcome (Some (janetc_varset opts [JSymbol "x"; JInteger 2]
                      (Reference.nameslot "x" (fst (Reference.farslot c)) c)))
     = Some (Reference.cslot JNil, "cannot set constant"%string)
  /\ outcome (janetc_if opts [JBoolean true] c)
     = Some (Reference.cslot JNil, "expected 2 or 3 arguments to if"%string)
  /\ outcome (janetc_while opts [JBoolean true] c)
     = Some (Reference.cslot JNil, "expected at least 2 arguments"%string)
  /\ outcome (Some (janetc_def opts [JSymbol "x"] c))
     = Some (Reference.cslot JNil, "expected at least 2 arguments"%string)
  /\ outcome (Some (janetc_var opts [JSymbol "x"] c))
     = Some (Reference.cslot JNil, "expected at least 2 arguments"%string)
  /\ outcome (janetc_fn opts [JTuple []] c)
     = Some (Reference.cslot JNil,
             "expected at least 2 arguments to function literal"%string)
  /\ outcome (janetc_fn opts [JSymbol "name"; JInteger 1] c)
     = Some (Reference.cslot JNil, "expected function parameters"%string).
Proof. vm_compute. repeat split. Qed.

(** * Further properties of the handlers *)

Section Further.

Context {K : Constants} {X : Collaborators}.

(** ** Sequence patterns *)

Lemma destructure_sequence_fold
  (leaf : string -> JanetSlot -> option JanetTable -> JanetCompiler -> bool * JanetCompiler)
  (attr : option JanetTable) (values : list Janet) (right : JanetSlot) (c : JanetCompiler) :
  destructure leaf attr (JTuple values) right c
  = (true, fold_left (sequence_step leaf attr right) (indexed_from 0 values) c).
Proof.
  cbn [destructure]. f_equal. generalize 0. revert c.
  induction values as [|v vs IH]; intros c0 i; [reflexivity|].
  cbn [indexed_from fold_left]. unfold sequence_step at 2. cbn [fst snd].
  destruct (janetc_farslot c0) as [nextright c1].
  destruct (i <? 256);
    match goal with
    | |- context [destructure leaf attr v nextright ?cc] =>
        destruct (destructure leaf attr v nextright cc) as [[|] c3]
    end; apply IH.
Qed.

(** Destructuring a tuple or array pattern does one [sequence_step] for
    each element, in order and with the element's index, so that elements 0
    to 255 are fetched with [JOP_GET_INDEX] and the index as immediate and
    the elements from 256 on with [JOP_GET] and the index as a constant key.
    Tuples and arrays are bound alike, a longer pattern continues where the
    shorter one stopped, and the empty pattern leaves the compiler as it
    is. *)
Theorem destructure_sequence_steps
  (leaf : string -> JanetSlot -> option JanetTable -> JanetCompiler -> bool * JanetCompiler)
  (attr : option JanetTable) (values more : list Janet) (right : JanetSlot)
  (c : JanetCompiler) :
  destructure leaf attr (JTuple values) right c
    = (true, fold_left (sequence_step leaf attr right) (indexed_from 0 values) c)
  /\ destructure leaf attr (JArray values) right c
     = destructure leaf attr (JTuple values) right c
  /\ destructure leaf attr (JTuple []) right c = (true, c)
  /\ snd (destructure leaf attr (JTuple (values ++ more)) right c)
     = fold_left (sequence_step leaf attr right)
         (indexed_from (janet_v_count values) more)
         (snd (destructure leaf attr (JTuple values) right c)).
Proof.
  split; [apply destructure_sequence_fold|]. split; [reflexivity|].
  split; [reflexivity|].
  rewrite !destructure_sequence_fold. cbn [snd].
  assert (Happ : forall (vs : list Janet) (i : Z),
            indexed_from i (vs ++ more)
            = indexed_from i vs ++ indexed_from (i + janet_v_count vs) more).
  { induction vs as [|v vs IH]; intros i.
    - cbn. f_equal. unfold janet_v_count. cbn. lia.
    - cbn [app indexed_from]. rewrite IH. do 3 f_equal.
      unfold janet_v_count. cbn [length]. lia. }
  rewrite Happ, fold_left_app. reflexivity.
Qed.

(** A value that is no symbol, sequence or dictionary is no pattern:
    [destructure] records the destructuring-type error, reports the slot as
    free to release and does nothing else, so the leaf is not called and
    nothing is emitted.  Inside a sequence pattern the register fetched for
    such an element is released again and the walk goes on with the next
    element. *)
Theorem destructure_unsupported_pattern
  (leaf : string -> JanetSlot -> option JanetTable -> JanetCompiler -> bool * JanetCompiler)
  (attr : option JanetTable) (left : Janet) (right : JanetSlot) (c : JanetCompiler) :
  is_binding_pattern left = false ->
  destructure leaf attr left right c = (true, janetc_cerror destructure_error c)
  /\ status_is_error (snd (destructure leaf attr left right c)) = true
  /\ c_buffer (snd (destructure leaf attr left right c)) = c_buffer c
  /\ (forall rest : list Janet,
         snd (destructure leaf attr (JTuple (left :: rest)) right c)
         = fold_left (sequence_step leaf attr right) (indexed_from 1 rest)
             (let nextright := fst (janetc_farslot c) in
              let fetched :=
                snd (janetc_emit_ssu JOP_GET_INDEX nextright right 0 1
                       (snd (janetc_farslot c))) in
              janetc_freeslot nextright (janetc_cerror destructure_error fetched))).
Proof.
  intros Hbad.
  assert (Herr : forall r c0,
            destructure leaf attr left r c0 = (true, janetc_cerror destructure_error c0)).
  { intros r c0. destruct left; try discriminate; reflexivity. }
  split; [apply Herr|]. split; [|split].
  - rewrite Herr. cbn [snd]. unfold janetc_cerror, status_is_error.
    destruct (r_status (c_result c)) eqn:Hs; cbn; [reflexivity|rewrite Hs; reflexivity].
  - rewrite Herr. cbn [snd]. unfold janetc_cerror.
    destruct (r_status (c_result c)); reflexivity.
  - intros rest. rewrite destructure_sequence_fold.
    cbn [snd indexed_from fold_left]. f_equal.
    unfold sequence_step. cbn [fst snd].
    destruct (janetc_farslot c) as [nextright c1]. cbn [fst snd].
    rewrite Herr. reflexivity.
Qed.

(** ** Attributes of def and var *)

Lemma janetc_cerror_first_wins (m1 m2 : string) (c : JanetCompiler) :
  janetc_cerror m2 (janetc_cerror m1 c) = janetc_cerror m1 c.
Proof.
  unfold janetc_cerror.
  destruct (r_status (c_result c)) eqn:Hs; cbn; [reflexivity|].
  rewrite Hs. reflexivity.
Qed.

Lemma handleattr_loop_fold (attrs : list Janet) :
  forall (tab : JanetTable) (c : JanetCompiler),
    handleattr_loop attrs tab c
    = (fold_left attr_put attrs tab,
       if forallb is_metadata attrs then c else janetc_cerror metadata_error c).
Proof.
  induction attrs as [|attr attrs IH]; intros tab c; [reflexivity|].
  destruct attr; cbn [handleattr_loop fold_left attr_put forallb is_metadata andb];
    rewrite IH; try reflexivity;
    destruct (forallb is_metadata attrs); try reflexivity;
    rewrite janetc_cerror_first_wins; reflexivity.
Qed.

(** [handleattr] builds the attribute table from the arguments between the
    pattern and the value, in order: a symbol becomes a key with value true,
    a string the value put under the key [doc].  Any other attribute is
    skipped and
    makes the handler record the metadata error, once, however many such
    attributes there are; otherwise the compiler is left as it is.  Nothing
    is emitted either way, and with no attribute arguments the table is the
    fresh one. *)
Theorem handleattr_metadata (argv : list Janet) (c : JanetCompiler) :
  handleattr argv c
    = (fold_left attr_put (attribute_args argv) (janet_table 2),
       if forallb is_metadata (attribute_args argv)
       then c
       else janetc_cerror metadata_error c)
  /\ c_buffer (snd (handleattr argv c)) = c_buffer c
  /\ c_scope (snd (handleattr argv c)) = c_scope c
  /\ (argn argv <= 2 -> handleattr argv c = (janet_table 2, c))
  /\ (status_is_error c = false ->
      status_is_error (snd (handleattr argv c))
      = negb (forallb is_metadata (attribute_args argv))).
Proof.
  assert (Hrun : handleattr argv c
                 = (fold_left attr_put (attribute_args argv) (janet_table 2),
                    if forallb is_metadata (attribute_args argv)
                    then c
                    else janetc_cerror metadata_error c))
    by apply handleattr_loop_fold.
  split; [exact Hrun|]. rewrite Hrun. cbn [snd].
  split; [|split; [|split]].
  - destruct (forallb is_metadata (attribute_args argv)); [reflexivity|].
    unfold janetc_cerror. destruct (r_status (c_result c)); reflexivity.
  - destruct (forallb is_metadata (attribute_args argv)); [reflexivity|].
    unfold janetc_cerror. destruct (r_status (c_result c)); reflexivity.
  - intros Hargn. unfold attribute_args, argn in *.
    replace (length argv - 2)%nat with 0%nat by lia. reflexivity.
  - intros Hok. destruct (forallb is_metadata (attribute_args argv)); [exact Hok|].
    apply janetc_cerror_status.
Qed.

(** ** do *)

Lemma do_body_snoc (opts : JanetFopts) (forms : list Janet) (x : Janet) :
  forall (subopts : JanetFopts) (ret : JanetSlot) (c : JanetCompiler),
    do_body opts subopts ret (forms ++ [x]) c
    = janetc_value opts x (while_body subopts forms c).
Proof.
  assert (Hcons : forall (y : Janet) (rest : list Janet) subopts ret c,
            rest <> [] ->
            do_body opts subopts ret (y :: rest) c
            = (let (r, c1) := janetc_value (fopts_set_flags subopts JANET_FOPTS_DROP) y c in
               do_body opts (fopts_set_flags subopts JANET_FOPTS_DROP) r rest
                 (janetc_freeslot r c1))).
  { intros y rest subopts ret c Hrest. destruct rest; [congruence|reflexivity]. }
  induction forms as [|y forms IH]; intros subopts ret c; [reflexivity|].
  cbn [app while_body]. rewrite Hcons by (destruct forms; discriminate).
  destruct (janetc_value (fopts_set_flags subopts JANET_FOPTS_DROP) y c) as [s c1].
  apply IH.
Qed.

(** [do] opens one scope for its body and closes it keeping the slot of the
    result.  With no form the result is the constant nil slot; otherwise the
    forms before the last are compiled exactly as [while] compiles the forms
    of its body (result dropped and released at once), and the last form
    with the options of the caller, so that tail position and target pass
    through to it. *)
Theorem do_compiles_last_form_with_caller_options
  (opts : JanetFopts) (forms : list Janet) (x : Janet) (c : JanetCompiler) :
  janetc_do opts [] c
    = (janetc_cslot janet_wrap_nil,
       janetc_popscope_keepslot (janetc_cslot janet_wrap_nil) (janetc_scope 0 "do" c))
  /\ janetc_do opts (forms ++ [x]) c
     = (let r :=
          janetc_value opts x
            (while_body janetc_fopts_default forms (janetc_scope 0 "do" c)) in
        (fst r, janetc_popscope_keepslot (fst r) (snd r)))
  /\ janetc_do opts [x] c
     = (let r := janetc_value opts x (janetc_scope 0 "do" c) in
        (fst r, janetc_popscope_keepslot (fst r) (snd r))).
Proof.
  split; [reflexivity|]. split.
  - unfold janetc_do. rewrite do_body_snoc.
    destruct (janetc_value opts x _) as [ret c1]. reflexivity.
  - unfold janetc_do. cbn [do_body].
    destruct (janetc_value opts x _) as [ret c1]. reflexivity.
Qed.

(** ** Registering definitions *)

Lemma chain_function_scope_split (scopes : list JanetScope) :
  no_function_scope scopes
  \/ exists (pre : list JanetScope) (f : JanetScope) (post : list JanetScope),
       scopes = pre ++ f :: post
       /\ no_function_scope pre
       /\ is_function_scope f = true.
Proof.
  induction scopes as [|s scopes IH]; [left; constructor|].
  destruct (is_function_scope s) eqn:Hs.
  - right. exists [], s, scopes. repeat split; [constructor|exact Hs].
  - destruct IH as [Hnone|(pre & f & post & -> & Hpre & Hf)].
    + left. constructor; assumption.
    + right. exists (s :: pre), f, post. repeat split; [constructor|]; assumption.
Qed.

Lemma addfuncdef_walk_none (def : JanetFuncDef) (scopes : list JanetScope) :
  no_function_scope scopes -> addfuncdef_walk def scopes = None.
Proof.
  induction 1 as [|s scopes Hs _ IH]; [reflexivity|].
  cbn [addfuncdef_walk]. unfold is_function_scope in Hs. rewrite Hs, IH. reflexivity.
Qed.

(** What [janetc_addfuncdef] leaves alone. *)
Lemma janetc_addfuncdef_frame (def : JanetFuncDef) (c c' : JanetCompiler) (i : Z) :
  janetc_addfuncdef def c = Some (i, c') ->
  c_buffer c' = c_buffer c
  /\ c_mapbuffer c' = c_mapbuffer c
  /\ c_current_mapping c' = c_current_mapping c
  /\ c_env c' = c_env c
  /\ c_result c' = c_result c
  /\ c_buffer_null c' = c_buffer_null c
  /\ c_mapbuffer_null c' = c_mapbuffer_null c.
Proof.
  unfold janetc_addfuncdef. intros Hadd.
  destruct (addfuncdef_walk def (c_scope c :: c_parents c)) as [[j [|scope parents]]|];
    try discriminate.
  injection Hadd as _ <-. repeat split.
Qed.

(** [janetc_addfuncdef] stops the compiler (the failed [janet_assert])
    exactly when no scope from the current one outwards is a function scope.
    Otherwise it returns the number of definitions that the nearest function
    scope held, which is not negative, and changes nothing but the list of
    definitions of that scope, to which it appends the definition: every
    other scope of the chain and every other field of that scope stay as
    they are, and so do the buffers, the result and the environment. *)
Theorem janetc_addfuncdef_needs_function_scope (def : JanetFuncDef) (c : JanetCompiler) :
  (no_function_scope (chain c) -> janetc_addfuncdef def c = None)
  /\ (~ no_function_scope (chain c) ->
      exists (i : Z) (c' : JanetCompiler),
        janetc_addfuncdef def c = Some (i, c')
        /\ 0 <= i
        /\ length (chain c') = length (chain c)
        /\ map sc_flags (chain c') = map sc_flags (chain c)
        /\ c_buffer c' = c_buffer c
        /\ c_result c' = c_result c
        /\ c_env c' = c_env c
        /\ (exists (pre : list JanetScope) (f : JanetScope) (post : list JanetScope),
               chain c = pre ++ f :: post
               /\ no_function_scope pre
               /\ is_function_scope f = true
               /\ i = janet_v_count (sc_defs f)
               /\ chain c' = pre ++ scope_set_defs f (sc_defs f ++ [def]) :: post)
        /\ map sc_syms (chain c') = map sc_syms (chain c)
        /\ map sc_ra (chain c') = map sc_ra (chain c)
        /\ map sc_name (chain c') = map sc_name (chain c)
        /\ map sc_bytecode_start (chain c') = map sc_bytecode_start (chain c)
        /\ c_mapbuffer c' = c_mapbuffer c
        /\ c_current_mapping c' = c_current_mapping c
        /\ c_buffer_null c' = c_buffer_null c
        /\ c_mapbuffer_null c' = c_mapbuffer_null c)
  /\ (janetc_addfuncdef def c = None <-> no_function_scope (chain c)).
Proof.
  assert (Hnone : no_function_scope (chain c) -> janetc_addfuncdef def c = None).
  { intros Hn. unfold janetc_addfuncdef. fold (chain c).
    rewrite (addfuncdef_walk_none def _ Hn). reflexivity. }
  split; [exact Hnone|]. split; [|split; [|exact Hnone]].
  - intros Hsome.
    destruct (chain_function_scope_split (chain c))
      as [Hn|(pre & f & post & Hchain & Hpre & Hf)]; [contradiction|].
    destruct (janetc_addfuncdef_nearest def c pre f post Hchain Hpre Hf)
      as (c' & Hadd & Hchain' & _).
    destruct (janetc_addfuncdef_frame def c c' _ Hadd)
      as (Hbuf & Hmap & Hcur & Henv & Hres & Hnull & Hmapnull).
    exists (janet_v_count (sc_defs f)), c'.
    split; [exact Hadd|]. split; [unfold janet_v_count; lia|].
    rewrite Hchain', Hchain, !length_app, !map_app. cbn [length map].
    repeat split; try assumption.
    exists pre, f, post. repeat split; assumption.
  - intros Hfail.
    destruct (chain_function_scope_split (chain c))
      as [Hn|(pre & f & post & Hchain & Hpre & Hf)]; [exact Hn|].
    destruct (janetc_addfuncdef_nearest def c pre f post Hchain Hpre Hf)
      as (c' & Hadd & _). congruence.
Qed.

(** Definitions registered one after the other from the same place end up
    next to each other in the same function scope, in the order of
    registration and with consecutive indices; the definitions that scope
    held before keep their indices. *)
Theorem janetc_addfuncdef_consecutive
  (d1 d2 : JanetFuncDef) (c : JanetCompiler)
  (pre : list JanetScope) (f : JanetScope) (post : list JanetScope) :
  chain c = pre ++ f :: post ->
  no_function_scope pre ->
  is_function_scope f = true ->
  let n := janet_v_count (sc_defs f) in
  exists c1 c2 : JanetCompiler,
    janetc_addfuncdef d1 c = Some (n, c1)
    /\ janetc_addfuncdef d2 c1 = Some (n + 1, c2)
    /\ chain c2 = pre ++ scope_set_defs f (sc_defs f ++ [d1; d2]) :: post
    /\ (sc_defs f ++ [d1; d2]) !! Z.to_nat n = Some d1
    /\ (sc_defs f ++ [d1; d2]) !! Z.to_nat (n + 1) = Some d2
    /\ (forall (j : nat) (d : JanetFuncDef),
           sc_defs f !! j = Some d -> (sc_defs f ++ [d1; d2]) !! j = Some d).
Proof.
  intros Hchain Hpre Hf n.
  destruct (janetc_addfuncdef_nearest d1 c pre f post Hchain Hpre Hf)
    as (c1 & Hadd1 & Hchain1 & _).
  assert (Hf1 : is_function_scope (scope_set_defs f (sc_defs f ++ [d1])) = true)
    by exact Hf.
  destruct (janetc_addfuncdef_nearest d2 c1 pre _ post Hchain1 Hpre Hf1)
    as (c2 & Hadd2 & Hchain2 & _).
  exists c1, c2. split; [exact Hadd1|]. split; [|split; [|split; [|split]]].
  - rewrite Hadd2. do 2 f_equal. cbn [sc_defs scope_set_defs].
    unfold n, janet_v_count. rewrite length_app. cbn [length]. lia.
  - rewrite Hchain2. cbn [sc_defs scope_set_defs]. rewrite <- app_assoc. reflexivity.
  - unfold n, janet_v_count. rewrite Nat2Z.id.
    rewrite lookup_app_r by lia. rewrite Nat.sub_diag. reflexivity.
  - unfold n, janet_v_count.
    replace (Z.to_nat (Z.of_nat (length (sc_defs f)) + 1)) with (length (sc_defs f) + 1)%nat
      by lia.
    rewrite lookup_app_r by lia.
    replace (length (sc_defs f) + 1 - length (sc_defs f))%nat with 1%nat by lia.
    reflexivity.
  - intros j d Hj. rewrite lookup_app_l; [exact Hj|].
    apply lookup_lt_Some in Hj. exact Hj.
Qed.

(** ** Arity and slot count of fn *)

Lemma fn_params_arity_from (params : list Janet) :
  forall (i paramcount varargs arity : Z) (c : JanetCompiler)
         (varargs' arity' : Z) (c' : JanetCompiler),
    fn_params params i paramcount varargs arity c = inr (varargs', arity', c') ->
    (existsb is_vararg_marker params = false
     /\ varargs' = varargs
     /\ arity' = arity + janet_v_count params)
    \/ (existsb is_vararg_marker params = true
        /\ varargs' = 1
        /\ arity' = arity + janet_v_count params - 2
        /\ 0 <= paramcount - 2 - i < janet_v_count params
        /\ params !! Z.to_nat (paramcount - 2 - i) = Some (JSymbol "&")).
Proof.
  induction params as [|param params IH]; intros i pc va ar c va' ar' c' Hrun.
  - cbn in Hrun. injection Hrun as <- <- _. left. repeat split.
    unfold janet_v_count. cbn. lia.
  - assert (Hother :
        forall c1 : JanetCompiler,
          is_vararg_marker param = false ->
          fn_params params (i + 1) pc va (ar + 1) c1 = inr (va', ar', c') ->
          (existsb is_vararg_marker (param :: params) = false
           /\ va' = va /\ ar' = ar + janet_v_count (param :: params))
          \/ (existsb is_vararg_marker (param :: params) = true
              /\ va' = 1
              /\ ar' = ar + janet_v_count (param :: params) - 2
              /\ 0 <= pc - 2 - i < janet_v_count (param :: params)
              /\ (param :: params) !! Z.to_nat (pc - 2 - i) = Some (JSymbol "&"))).
    { intros c1 Hparam Hrest. cbn [existsb]. rewrite Hparam. cbn [orb].
      unfold janet_v_count in *. cbn [length].
      destruct (IH _ _ _ _ _ _ _ _ Hrest) as [(Hno & -> & ->)|(Hyes & -> & -> & Hpos & Hat)].
      - left. repeat split; [exact Hno|lia].
      - right. repeat split; [exact Hyes|lia|lia|lia|].
        replace (Z.to_nat (pc - 2 - i)) with (S (Z.to_nat (pc - 2 - (i + 1)))) by lia.
        exact Hat. }
    destruct param as [|b|n|s|s|vs|vs|kvs p|kvs|id]; cbn [fn_params] in Hrun;
      try (destruct (janetc_farslot c) as [slot c1];
           match type of Hrun with
           | context [destructure defleaf None ?pat slot c1] =>
               destruct (destructure defleaf None pat slot c1) as [r c2]
           end;
           apply (Hother c2); [reflexivity|exact Hrun]).
    destruct (String.eqb s "&") eqn:Hs.
    + destruct (i =? pc - 2) eqn:Hi; cbn in Hrun; [|discriminate].
      apply Z.eqb_eq in Hi. apply String.eqb_eq in Hs. subst s.
      unfold janet_v_count in *. cbn [length existsb is_vararg_marker orb].
      cbn [String.eqb Ascii.eqb Bool.eqb].
      destruct (IH _ _ _ _ _ _ _ _ Hrun) as [(Hno & -> & ->)|(_ & _ & _ & Hpos & _)];
        [|lia].
      right. repeat split; try lia.
      replace (pc - 2 - i) with 0 by lia. reflexivity.
    + destruct (janetc_farslot c) as [slot c1].
      apply (Hother (janetc_nameslot s slot c1)); [|exact Hrun].
      cbn [is_vararg_marker]. exact Hs.
Qed.

(** When the parameter loop of [fn] goes through, the arity it has counted
    is the number of parameters in front of [&], or of all parameters when
    there is no [&]: never negative, and with [&] exactly one parameter (the
    rest parameter) follows the marker and is not counted. *)
Theorem fn_params_arity
  (params : list Janet) (c c' : JanetCompiler) (varargs arity : Z) :
  fn_params params 0 (janet_v_count params) 0 0 c = inr (varargs, arity, c') ->
  0 <= arity
  /\ ((varargs = 0
       /\ arity = janet_v_count params
       /\ existsb is_vararg_marker params = false)
      \/ (varargs = 1
          /\ arity = janet_v_count params - 2
          /\ params !! Z.to_nat arity = Some (JSymbol "&")
          /\ existsb is_vararg_marker (take (Z.to_nat arity) params) = false)).
Proof.
  intros Hrun.
  destruct (fn_params_arity_from params _ _ _ _ _ _ _ _ Hrun)
    as [(Hno & -> & ->)|(Hyes & -> & -> & Hpos & Hat)].
  - split; [unfold janet_v_count; lia|]. left. repeat split. exact Hno.
  - split; [lia|]. right.
    replace (janet_v_count params - 2 - 0) with (0 + janet_v_count params - 2) in * by lia.
    repeat split; [exact Hat|].
    (* a marker in front of the accepted one would have been rejected *)
    destruct (existsb is_vararg_marker (take (Z.to_nat (0 + janet_v_count params - 2)) params))
      eqn:Hfront; [|reflexivity].
    apply existsb_exists in Hfront. destruct Hfront as (p & Hin & Hp).
    apply list_elem_of_In, list_elem_of_lookup in Hin. destruct Hin as [j Hj].
    apply lookup_take_Some in Hj. destruct Hj as [Hj Hlt].
    destruct p as [|b|n|s|s|vs|vs|kvs q|kvs|id]; try discriminate.
    cbn [is_vararg_marker] in Hp. apply String.eqb_eq in Hp. subst s.
    destruct (fn_params_misplaced params 0 (janet_v_count params) 0 0 c j Hj) as [c0 Hc0];
      [lia|].
    rewrite Hc0 in Hrun. discriminate.
Qed.


(** ** The body of fn *)

Lemma compile_dropped_flags (forms : list Janet) :
  forall (subopts : JanetFopts) (flags : Z) (c : JanetCompiler),
    compile_dropped (fopts_set_flags subopts flags) forms c
    = compile_dropped subopts forms c.
Proof.
  induction forms as [|x forms IH]; intros subopts flags c; [reflexivity|].
  cbn [compile_dropped]. apply IH.
Qed.

(** The body of [fn] is compiled form by form, every form but the last with
    its result dropped and the last in tail position, and the loop gives up
    at the first form that leaves an error: that form's state is the
    outcome, and the forms after it are not compiled.  A last form that
    compiles without error ends the loop with success. *)
Theorem fn_body_stops_at_first_error
  (subopts : JanetFopts) (pre : list Janet) (x : Janet) (post : list Janet)
  (c : JanetCompiler) :
  (forall n : nat,
      (0 < n <= length pre)%nat ->
      status_is_error (compile_dropped subopts (take n pre) c) = false) ->
  let flags := match post with [] => JANET_FOPTS_TAIL | _ => JANET_FOPTS_DROP end in
  let cx :=
    snd (janetc_value (fopts_set_flags subopts flags) x (compile_dropped subopts pre c)) in
  (status_is_error cx = true -> fn_body subopts (pre ++ x :: post) c = (false, cx))
  /\ (status_is_error cx = false ->
      fn_body subopts (pre ++ x :: post) c
      = fn_body (fopts_set_flags subopts flags) post cx)
  /\ (status_is_error cx = false -> post = [] ->
      fn_body subopts (pre ++ [x]) c = (true, cx)).
Proof.
  revert subopts c. induction pre as [|y pre IH]; intros subopts c Hok flags cx.
  - cbn [app compile_dropped] in *. subst cx flags. cbn [fn_body].
    destruct (janetc_value _ x c) as [s c1] eqn:Hx. cbn [snd].
    repeat split.
    + intros ->. reflexivity.
    + intros ->. reflexivity.
    + intros Herr ->. cbn [fn_body]. rewrite Hx, Herr. reflexivity.
  - assert (Hy : status_is_error
                   (snd (janetc_value (fopts_set_flags subopts JANET_FOPTS_DROP) y c))
                 = false).
    { apply (Hok 1%nat). cbn [length]. lia. }
    assert (Hok' : forall n : nat,
               (0 < n <= length pre)%nat ->
               status_is_error
                 (compile_dropped (fopts_set_flags subopts JANET_FOPTS_DROP) (take n pre)
                    (snd (janetc_value (fopts_set_flags subopts JANET_FOPTS_DROP) y c)))
               = false).
    { intros n Hn. rewrite compile_dropped_flags.
      apply (Hok (S n)). cbn [length]. lia. }
    specialize (IH (fopts_set_flags subopts JANET_FOPTS_DROP) _ Hok').
    cbv zeta in IH. rewrite compile_dropped_flags in IH.
    assert (Hstep : forall rest : list Janet,
              fn_body subopts ((y :: pre) ++ x :: rest) c
              = fn_body (fopts_set_flags subopts JANET_FOPTS_DROP) (pre ++ x :: rest)
                  (snd (janetc_value (fopts_set_flags subopts JANET_FOPTS_DROP) y c))).
    { intros rest. cbn [app fn_body].
      destruct (pre ++ x :: rest) as [|z l] eqn:Hne; [destruct pre; discriminate|].
      destruct (janetc_value (fopts_set_flags subopts JANET_FOPTS_DROP) y c) as [s c1].
      cbn [snd] in *. rewrite Hy. reflexivity. }
    subst cx flags. cbn [compile_dropped].
    destruct IH as (IH1 & IH2 & IH3).
    split; [|split].
    + intros Herr. rewrite Hstep. apply IH1. exact Herr.
    + intros Hfine. rewrite Hstep. apply IH2. exact Hfine.
    + intros Hfine ->. rewrite (Hstep []). apply IH3; [exact Hfine|reflexivity].
Qed.

(** ** Forms without a value *)

(** [def] and [var] return the constant nil slot whatever they are given,
    and so does [while] whenever it returns: the binding forms and the loop
    are statements. *)
Theorem statements_return_nil (opts : JanetFopts) (argv : list Janet) (c : JanetCompiler) :
  fst (janetc_def opts argv c) = janetc_cslot janet_wrap_nil
  /\ fst (janetc_var opts argv c) = janetc_cslot janet_wrap_nil
  /\ (forall (r : JanetSlot) (c' : JanetCompiler),
         janetc_while opts argv c = Some (r, c') -> r = janetc_cslot janet_wrap_nil).
Proof.
  split; [|split].
  - unfold janetc_def.
    destruct (dohead _ argv c) as [ret c1].
    destruct (status_is_error c1); [reflexivity|].
    destruct (handleattr argv c1) as [attr c2].
    destruct (destructure defleaf (Some attr) (arg argv 0) ret c2) as [consumed c3].
    reflexivity.
  - unfold janetc_var.
    destruct (dohead _ argv c) as [ret c1].
    destruct (status_is_error c1); [reflexivity|].
    destruct (handleattr argv c1) as [attr c2].
    destruct (destructure varleaf (Some attr) (arg argv 0) ret c2) as [consumed c3].
    reflexivity.
  - intros r c' Hrun. unfold janetc_while, while_closure in Hrun.
    repeat match type of Hrun with
           | context [if ?b then _ else _] => destruct b
           | context [let (_, _) := ?e in _] => destruct e
           | context [match ?e with Some _ => _ | None => _ end] => destruct e
           end;
      try discriminate; injection Hrun as <- _; reflexivity.
Qed.

(** ** The table of specials *)

(** The table of specials is strictly increasing in the byte order of the
    names, and on every table that is, the binary search of
    [janet_strbinsearch] returns what a scan from the front returns.  So
    [janetc_special] finds nothing for a name that is not in the table and
    the entry of that very name otherwise, and every entry is found under
    its own name. *)
Theorem janetc_special_lookup :
  strictly_sorted (map fst janetc_specials)
  /\ (forall (T : Type) (tab : list (string * T)) (key : string),
         strictly_sorted (map fst tab) ->
         janet_strbinsearch tab (length tab) key
         = List.find (fun item => String.eqb (fst item) key) tab)
  /\ (forall (name : string) (special : JanetSpecial),
         janetc_special name = Some special ->
         fst special = name /\ In special janetc_specials)
  /\ (forall name : string,
         janetc_special name = None <-> ~ In name (map fst janetc_specials))
  /\ (forall special : JanetSpecial,
         In special janetc_specials -> janetc_special (fst special) = Some special).
Proof.
  split; [exact janetc_specials_sorted|].
  split; [intros T tab key; apply janet_strbinsearch_find|].
  split; [|split].
  - intros name special Hfind. rewrite janetc_special_find in Hfind.
    apply find_some in Hfind. destruct Hfind as [Hin Heq].
    apply String.eqb_eq in Heq. split; assumption.
  - intros name. rewrite janetc_special_find. split.
    + intros Hnone [special [Hname Hin]]%in_map_iff.
      apply (find_none _ _ Hnone) in Hin. cbn beta in Hin.
      rewrite Hname, String.eqb_refl in Hin. discriminate.
    + intros Hnot.
      destruct (List.find (fun sp : JanetSpecial => String.eqb (fst sp) name) janetc_specials)
        as [special|] eqn:Hfind; [|reflexivity].
      apply find_some in Hfind. destruct Hfind as [Hin Heq].
      apply String.eqb_eq in Heq. exfalso. apply Hnot.
      apply in_map_iff. exists special. split; assumption.
  - intros special Hin. rewrite janetc_special_find.
    unfold janetc_specials in Hin. cbn [In] in Hin.
    repeat (destruct Hin as [<-|Hin]; [reflexivity|]). contradiction.
Qed.

(** ** The jumps of if *)

(** An [if] whose condition is no constant emits one conditional jump after
    the condition and, unless it is in tail position, one jump after the
    true branch.  When the false branch is compiled and the scopes are
    closed, the conditional jump gets the displacement from itself to the
    start of the false branch and the other jump the displacement from itself
    to the end; nothing else in the buffer changes.  In tail position no
    second jump is emitted and the result slot is marked RETURNED; the
    branches are copied into the target only when the result is neither
    dropped nor returned. *)
Theorem if_dynamic_jumps
  (opts : JanetFopts) (argv : list Janet) (c : JanetCompiler)
  (target cond left right : JanetSlot) (c0 c2 c3 c4 c7 : JanetCompiler) (labeljr : Z) :
  let tail := has_flag (fo_flags opts) JANET_FOPTS_TAIL in
  let drop := has_flag (fo_flags opts) JANET_FOPTS_DROP in
  2 <= argn argv <= 3 ->
  (if drop || tail then (janetc_cslot janet_wrap_nil, c) else janetc_gettarget opts c)
    = (target, c0) ->
  janetc_value janetc_fopts_default (arg argv 0) (janetc_scope 0 "if" c0) = (cond, c2) ->
  has_flag (s_flags cond) JANET_SLOT_CONSTANT = false ->
  janetc_emit_si JOP_JUMP_IF_NOT cond 0 0 c2 = (labeljr, c3) ->
  let falsebody := if 2 <? argn argv then arg argv 2 else janet_wrap_nil in
  janetc_value opts (arg argv 1) (janetc_scope 0 "if-true" c3) = (left, c4) ->
  let c5 :=
    janetc_popscope (if negb drop && negb tail then janetc_copy target left c4 else c4) in
  let labeljd := janet_v_count (c_buffer c5) in
  let c6 := if negb tail then janetc_emit JOP_JUMP c5 else c5 in
  let labelr := janet_v_count (c_buffer c6) in
  janetc_value opts falsebody (janetc_scope 0 "if-false" c6) = (right, c7) ->
  let c8 :=
    janetc_popscope
      (janetc_popscope
         (if negb drop && negb tail then janetc_copy target right c7 else c7)) in
  let labeld := janet_v_count (c_buffer c8) in
  0 <= labeljr < labeld ->
  (tail = false -> labeljd < labeld) ->
  let to_right (w : Z) := Z.lor w (to_u32 (Z.shiftl (labelr - labeljr) 16)) in
  let to_done (w : Z) := Z.lor w (to_u32 (Z.shiftl (labeld - labeljd) 8)) in
  let patched := alter to_right (Z.to_nat labeljr) (c_buffer c8) in
  let code := if tail then patched else alter to_done (Z.to_nat labeljd) patched in
  janetc_if opts argv c
    = Some (if tail
            then slot_set_flags target (Z.lor (s_flags target) JANET_SLOT_RETURNED)
            else target,
            set_buffer code c8)
  /\ length code = length (c_buffer c8)
  /\ (forall i : nat,
         i <> Z.to_nat labeljr -> i <> Z.to_nat labeljd -> code !! i = c_buffer c8 !! i)
  /\ (tail = true -> c6 = c5 /\ labelr = labeljd)
  /\ (forall w : Z,
         c_buffer c8 !! Z.to_nat labeljr = Some w ->
         labeljr <> labeljd ->
         code !! Z.to_nat labeljr = Some (to_right w)
         /\ (0 <= w < 2 ^ 16 -> Z.shiftr (to_right w) 16 = (labelr - labeljr) mod 2 ^ 16))
  /\ (tail = false ->
      forall w : Z,
        c_buffer c8 !! Z.to_nat labeljd = Some w ->
        labeljr <> labeljd ->
        code !! Z.to_nat labeljd = Some (to_done w)
        /\ (0 <= w < 2 ^ 8 -> Z.shiftr (to_done w) 8 = (labeld - labeljd) mod 2 ^ 24)).
Proof.
  intros tail drop Hargn Htarget Hcond Hdynamic Hjump falsebody Hleft
    c5 labeljd c6 labelr Hright c8 labeld Hjr Hjd to_right to_done patched code.
  assert (Hjd0 : 0 <= labeljd) by (unfold labeljd, janet_v_count; lia).
  split; [|split; [|split; [|split; [|split]]]].
  - unfold janetc_if. fold tail drop.
    replace ((argn argv <? 2) || (3 <? argn argv)) with false
      by (symmetry; apply orb_false_iff; split; apply Z.ltb_ge; lia).
    rewrite Htarget, Hcond, Hdynamic, Hjump, Hleft.
    fold c5. fold labeljd. fold c6. fold labelr. fold falsebody.
    rewrite Hright. fold c8. fold labeld.
    rewrite buffer_or_alter by exact Hjr. fold to_right. fold patched.
    cbn [set_buffer c_buffer]. subst code.
    destruct tail; cbn [negb].
    + reflexivity.
    + rewrite buffer_or_alter
        by (unfold patched, janet_v_count; rewrite length_alter;
            fold (janet_v_count (c_buffer c8)); fold labeld; split;
            [exact Hjd0|apply Hjd; reflexivity]).
      reflexivity.
  - subst code patched. destruct tail; rewrite ?length_alter; reflexivity.
  - intros i Hi1 Hi2. subst code patched.
    destruct tail; rewrite ?list_lookup_alter_ne by congruence; reflexivity.
  - intros Htail. subst labelr c6. rewrite Htail. split; reflexivity.
  - intros w Hw Hne. subst code patched. split.
    + destruct tail.
      * rewrite list_lookup_alter_eq, Hw. reflexivity.
      * rewrite list_lookup_alter_ne by lia.
        rewrite list_lookup_alter_eq, Hw. reflexivity.
    + intros Hbound. apply (displacement_field w _ 16); lia.
  - intros Htail w Hw Hne. subst code patched. rewrite Htail. split.
    + rewrite list_lookup_alter_eq.
      rewrite list_lookup_alter_ne by lia. rewrite Hw. reflexivity.
    + intros Hbound. apply (displacement_field w _ 8); lia.
Qed.

(** ** What the control forms leave in place *)

Lemma janetc_cerror_buffer (m : string) (c : JanetCompiler) :
  c_buffer (janetc_cerror m c) = c_buffer c.
Proof. unfold janetc_cerror. destruct (r_status (c_result c)); reflexivity. Qed.

Lemma buffer_or_beyond (before buffer : list Z) (label x : Z) :
  before `prefix_of` buffer ->
  janet_v_count before <= label < janet_v_count buffer ->
  exists b : list Z,
    buffer_or label x buffer = Some b
    /\ before `prefix_of` b
    /\ length b = length buffer.
Proof.
  intros [k ->] Hlabel. unfold janet_v_count in Hlabel.
  rewrite buffer_or_alter by (unfold janet_v_count; lia).
  eexists. split; [reflexivity|]. split; [|apply length_alter].
  replace (Z.to_nat label) with (length before + (Z.to_nat label - length before))%nat
    by lia.
  rewrite alter_app_r. eexists. reflexivity.
Qed.

Lemma while_body_appends (contract : buffer_contract) (body : list Janet) :
  forall (subopts : JanetFopts) (c : JanetCompiler),
    c_buffer c `prefix_of` c_buffer (while_body subopts body c).
Proof.
  induction body as [|x body IH]; intros subopts c; [reflexivity|].
  cbn [while_body].
  pose proof (value_appends contract (fopts_set_flags subopts JANET_FOPTS_DROP) x c) as Hv.
  destruct (janetc_value (fopts_set_flags subopts JANET_FOPTS_DROP) x c) as [s c1].
  cbn [snd] in Hv. etrans; [exact Hv|].
  rewrite <- (freeslot_keeps contract s c1). apply IH.
Qed.

(** With collaborators that keep the buffer contract, a [while] that is not
    rewritten into a function (its condition is a falsy constant, or its
    scope has no CLOSURE flag after the body) always returns: the labels it
    patches are inside the buffer.  It leaves every instruction that was
    emitted before the loop where it was, and when the loop is not elided it
    adds at least its back-jump. *)
Theorem while_keeps_earlier_code
  (opts : JanetFopts) (argv : list Janet) (c : JanetCompiler)
  (cond : JanetSlot) (c2 c3 : JanetCompiler) (labelc : Z) :
  buffer_contract ->
  2 <= argn argv ->
  janetc_value janetc_fopts_default (arg argv 0) (janetc_scope 0 "while" c) = (cond, c2) ->
  (if has_flag (s_flags cond) JANET_SLOT_CONSTANT then (0, c2)
   else janetc_emit_si JOP_JUMP_IF_NOT cond 0 0 c2) = (labelc, c3) ->
  let elided :=
    has_flag (s_flags cond) JANET_SLOT_CONSTANT && negb (janet_truthy (s_constant cond)) in
  let c4 := while_body janetc_fopts_default (drop 1 argv) c3 in
  elided = true \/ has_flag (sc_flags (c_scope c4)) JANET_SCOPE_CLOSURE = false ->
  exists c' : JanetCompiler,
    janetc_while opts argv c = Some (janetc_cslot janet_wrap_nil, c')
    /\ c_buffer c `prefix_of` c_buffer c'
    /\ (elided = false -> (length (c_buffer c) < length (c_buffer c'))%nat).
Proof.
  intros contract Hargn Hcond Hexit elided c4 Hcase.
  assert (Hc2 : c_buffer c `prefix_of` c_buffer c2).
  { pose proof (value_appends contract janetc_fopts_default (arg argv 0)
                  (janetc_scope 0 "while" c)) as Hv.
    rewrite Hcond, (scope_keeps contract) in Hv. exact Hv. }
  unfold janetc_while.
  replace (argn argv <? 2) with false by (symmetry; apply Z.ltb_ge; lia).
  rewrite Hcond. fold elided.
  destruct elided eqn:Helided.
  - eexists. split; [reflexivity|]. split; [|discriminate].
    rewrite (popscope_keeps contract). exact Hc2.
  - destruct Hcase as [Hcase|Hnoclosure]; [discriminate|].
    rewrite Hexit. fold c4. rewrite Hnoclosure.
    assert (Hc3 : c_buffer c2 `prefix_of` c_buffer c3
                  /\ (has_flag (s_flags cond) JANET_SLOT_CONSTANT = false ->
                      janet_v_count (c_buffer c2) <= labelc < janet_v_count (c_buffer c3))).
    { destruct (has_flag (s_flags cond) JANET_SLOT_CONSTANT).
      - injection Hexit as <- <-. split; [reflexivity|discriminate].
      - pose proof (emit_si_appends contract JOP_JUMP_IF_NOT cond 0 0 c2) as He.
        rewrite Hexit in He. cbn [fst snd] in He. destruct He as [He1 He2].
        split; [exact He1|]. intros _. exact He2. }
    destruct Hc3 as [Hc3 Hlabel].
    assert (Hc4 : c_buffer c3 `prefix_of` c_buffer c4)
      by apply (while_body_appends contract).
    assert (Hbefore : c_buffer c `prefix_of` c_buffer c4 ++ [JOP_JUMP])
      by (apply prefix_app_r; etrans; [exact Hc2|]; etrans; eassumption).
    pose proof (prefix_length _ _ Hc2) as Hlen2.
    pose proof (prefix_length _ _ Hc3) as Hlen3.
    pose proof (prefix_length _ _ Hc4) as Hlen4.
    cbn [janetc_emit set_allocated set_buffer set_mapbuffer c_buffer].
    assert (Hfirst :
        exists b1 : list Z,
          (if negb (has_flag (s_flags cond) JANET_SLOT_CONSTANT)
           then buffer_or labelc
                  (Z.shiftl (janet_v_count (c_buffer c4 ++ [JOP_JUMP]) - labelc) 16)
                  (c_buffer c4 ++ [JOP_JUMP])
           else Some (c_buffer c4 ++ [JOP_JUMP])) = Some b1
          /\ c_buffer c `prefix_of` b1
          /\ length b1 = S (length (c_buffer c4))).
    { destruct (has_flag (s_flags cond) JANET_SLOT_CONSTANT); cbn [negb].
      - eexists. split; [reflexivity|]. split; [exact Hbefore|].
        rewrite length_app. cbn. lia.
      - specialize (Hlabel eq_refl).
        destruct (buffer_or_beyond (c_buffer c) (c_buffer c4 ++ [JOP_JUMP]) labelc
                    (Z.shiftl (janet_v_count (c_buffer c4 ++ [JOP_JUMP]) - labelc) 16)
                    Hbefore) as (b1 & Hb1 & Hp1 & Hl1).
        { unfold janet_v_count in *. rewrite length_app. cbn [length]. lia. }
        exists b1. split; [exact Hb1|]. split; [exact Hp1|].
        rewrite Hl1, length_app. cbn. lia. }
    destruct Hfirst as (b1 & -> & Hp1 & Hl1).
    cbn [set_buffer c_buffer].
    destruct (buffer_or_beyond (c_buffer c) b1 (janet_v_count (c_buffer c4))
                (Z.shiftl (janet_v_count (c_buffer c) - janet_v_count (c_buffer c4)) 8)
                Hp1) as (b2 & -> & Hp2 & Hl2).
    { unfold janet_v_count. lia. }
    eexists. split; [reflexivity|].
    rewrite (popscope_keeps contract). cbn [set_buffer c_buffer].
    split; [exact Hp2|]. intros _. lia.
Qed.

(** With collaborators that keep the buffer contract, [if] always returns,
    whatever its arguments: the two labels it patches are inside the buffer.
    It leaves every instruction that was emitted before it where it was. *)
Theorem if_keeps_earlier_code
  (opts : JanetFopts) (argv : list Janet) (c : JanetCompiler) :
  buffer_contract ->
  exists (r : JanetSlot) (c' : JanetCompiler),
    janetc_if opts argv c = Some (r, c')
    /\ c_buffer c `prefix_of` c_buffer c'.
Proof.
  intros contract. unfold janetc_if.
  destruct ((argn argv <? 2) || (3 <? argn argv)).
  { do 2 eexists. split; [reflexivity|]. rewrite janetc_cerror_buffer. reflexivity. }
  set (tail := has_flag (fo_flags opts) JANET_FOPTS_TAIL).
  set (drop := has_flag (fo_flags opts) JANET_FOPTS_DROP).
  set (falsebody := if 2 <? argn argv then arg argv 2 else janet_wrap_nil).
  assert (Htarget :
      c_buffer (snd (if drop || tail then (janetc_cslot janet_wrap_nil, c)
                     else janetc_gettarget opts c)) = c_buffer c).
  { destruct (drop || tail); [reflexivity|apply (gettarget_keeps contract)]. }
  destruct (if drop || tail then (janetc_cslot janet_wrap_nil, c)
            else janetc_gettarget opts c) as [target c0].
  cbn [snd] in Htarget.
  pose proof (value_appends contract janetc_fopts_default (arg argv 0)
                (janetc_scope 0 "if" c0)) as Hc2.
  destruct (janetc_value janetc_fopts_default (arg argv 0) (janetc_scope 0 "if" c0))
    as [cond c2].
  cbn [snd] in Hc2. rewrite (scope_keeps contract), Htarget in Hc2.
  destruct (has_flag (s_flags cond) JANET_SLOT_CONSTANT).
  - (* constant condition *)
    set (live := fst (if negb (janet_truthy (s_constant cond))
                      then (falsebody, arg argv 1) else (arg argv 1, falsebody))).
    set (dead := snd (if negb (janet_truthy (s_constant cond))
                      then (falsebody, arg argv 1) else (arg argv 1, falsebody))).
    assert (Hsel : (if negb (janet_truthy (s_constant cond))
                    then (falsebody, arg argv 1) else (arg argv 1, falsebody))
                   = (live, dead))
      by (subst live dead; destruct (negb (janet_truthy (s_constant cond))); reflexivity).
    rewrite Hsel.
    pose proof (value_appends contract opts live (janetc_scope 0 "if-body" c2)) as Hc4.
    destruct (janetc_value opts live (janetc_scope 0 "if-body" c2)) as [t c4].
    cbn [snd] in Hc4. rewrite (scope_keeps contract) in Hc4.
    unfold janetc_throwaway.
    pose proof (value_appends contract opts dead (janetc_popscope (janetc_popscope c4)))
      as Hcd.
    destruct (janetc_value opts dead (janetc_popscope (janetc_popscope c4))) as [sd cd].
    cbn [snd] in Hcd. destruct Hcd as [k Hk].
    do 2 eexists. split; [reflexivity|].
    cbn [set_allocated set_buffer set_mapbuffer c_buffer].
    rewrite Hk, take_app_length, !(popscope_keeps contract).
    etrans; eassumption.
  - (* dynamic condition *)
    pose proof (emit_si_appends contract JOP_JUMP_IF_NOT cond 0 0 c2) as [Hc3 Hjr].
    destruct (janetc_emit_si JOP_JUMP_IF_NOT cond 0 0 c2) as [labeljr c3].
    cbn [fst snd] in Hc3, Hjr.
    pose proof (value_appends contract opts (arg argv 1) (janetc_scope 0 "if-true" c3))
      as Hc4.
    destruct (janetc_value opts (arg argv 1) (janetc_scope 0 "if-true" c3)) as [left c4].
    cbn [snd] in Hc4. rewrite (scope_keeps contract) in Hc4.
    set (c5 := janetc_popscope
                 (if negb drop && negb tail then janetc_copy target left c4 else c4)).
    assert (Hc5 : c_buffer c4 `prefix_of` c_buffer c5).
    { subst c5. rewrite (popscope_keeps contract).
      destruct (negb drop && negb tail); [apply (copy_appends contract)|reflexivity]. }
    set (c6 := if negb tail then janetc_emit JOP_JUMP c5 else c5).
    assert (Hc6 : c_buffer c5 `prefix_of` c_buffer c6
                  /\ (tail = false -> length (c_buffer c6) = S (length (c_buffer c5)))).
    { subst c6. destruct tail; cbn [negb].
      - split; [reflexivity|discriminate].
      - cbn [janetc_emit set_allocated set_buffer set_mapbuffer c_buffer]. split.
        + apply prefix_app_r. reflexivity.
        + intros _. rewrite length_app. cbn. lia. }
    destruct Hc6 as [Hc6 Hjd].
    pose proof (value_appends contract opts falsebody (janetc_scope 0 "if-false" c6))
      as Hc7.
    destruct (janetc_value opts falsebody (janetc_scope 0 "if-false" c6)) as [right c7].
    cbn [snd] in Hc7. rewrite (scope_keeps contract) in Hc7.
    set (c8 := janetc_popscope
                 (janetc_popscope
                    (if negb drop && negb tail then janetc_copy target right c7 else c7))).
    assert (Hc8 : c_buffer c7 `prefix_of` c_buffer c8).
    { subst c8. rewrite !(popscope_keeps contract).
      destruct (negb drop && negb tail); [apply (copy_appends contract)|reflexivity]. }
    pose proof (prefix_length _ _ Hc2) as L2. pose proof (prefix_length _ _ Hc3) as L3.
    pose proof (prefix_length _ _ Hc4) as L4. pose proof (prefix_length _ _ Hc5) as L5.
    pose proof (prefix_length _ _ Hc6) as L6. pose proof (prefix_length _ _ Hc7) as L7.
    pose proof (prefix_length _ _ Hc8) as L8.
    assert (Hall : c_buffer c `prefix_of` c_buffer c8).
    { etrans; [exact Hc2|]. etrans; [exact Hc3|]. etrans; [exact Hc4|].
      etrans; [exact Hc5|]. etrans; [exact Hc6|]. etrans; [exact Hc7|]. exact Hc8. }
    destruct (buffer_or_beyond (c_buffer c) (c_buffer c8) labeljr
                (Z.shiftl (janet_v_count (c_buffer c6) - labeljr) 16) Hall)
      as (b1 & -> & Hp1 & Hl1).
    { unfold janet_v_count in *. lia. }
    cbn [set_buffer c_buffer].
    destruct tail eqn:Htail; cbn [negb].
    + do 2 eexists. split; [reflexivity|]. exact Hp1.
    + specialize (Hjd eq_refl).
      destruct (buffer_or_beyond (c_buffer c) b1 (janet_v_count (c_buffer c5))
                  (Z.shiftl (janet_v_count (c_buffer c8) - janet_v_count (c_buffer c5)) 8)
                  Hp1) as (b2 & -> & Hp2 & Hl2).
      { unfold janet_v_count in *. lia. }
      do 2 eexists. split; [reflexivity|]. exact Hp2.
Qed.

End Further.

(** * The further properties on the reference collaborators *)

Lemma reference_buffer_contract :
  buffer_contract (X := Reference.X 0).
Proof.
  assert (Hfar : forall c, c_buffer (snd (Reference.farslot c)) = c_buffer c).
  { intros c. unfold Reference.farslot.
    destruct (Reference.regalloc_1 (sc_ra (c_scope c))). reflexivity. }
  assert (Hword : forall w c,
            c_buffer c `prefix_of` c_buffer (snd (Reference.emit_word w c))).
  { intros w c. cbn. apply prefix_app_r. reflexivity. }
  assert (Htarget : forall opts c, c_buffer (snd (Reference.gettarget opts c)) = c_buffer c).
  { intros opts c. unfold Reference.gettarget.
    match goal with |- context [if ?b then _ else _] => destruct b end;
      [reflexivity|apply Hfar]. }
  constructor; cbn [janetc_value janetc_emit_si janetc_gettarget janetc_copy janetc_freeslot
                      janetc_scope janetc_popscope Reference.X Reference.collaborators
                      Reference.value].
  - intros opts x c. unfold Reference.leaf_value.
    destruct (status_is_error c); [reflexivity|].
    destruct x; try reflexivity.
    + destruct (String.prefix ":" s); [reflexivity|].
      unfold Reference.resolve.
      destruct (Reference.lookup_sym s (c_scope c :: c_parents c)); [reflexivity|].
      cbn [snd]. rewrite janetc_cerror_buffer. reflexivity.
    + specialize (Htarget opts c).
      destruct (Reference.gettarget opts c) as [target c1]. cbn [snd] in Htarget.
      rewrite <- Htarget. apply Hword.
  - intros op s imm wr c. split; [apply Hword|].
    cbn. unfold janet_v_count. rewrite length_app. cbn. lia.
  - exact Htarget.
  - intros d s c. unfold Reference.copy.
    match goal with |- context [if ?b then _ else _] => destruct b end;
      [reflexivity|apply Hword].
  - intros s c. unfold Reference.freeslot.
    match goal with |- context [if ?b then _ else _] => destruct b end; reflexivity.
  - reflexivity.
  - intros c. unfold Reference.popscope. destruct (c_parents c); reflexivity.
Qed.

(** The pattern [1]. *)
Lemma destructure_unsupported_pattern_witness :
  let K := Reference.constants in
  let X := Reference.X 1 in
  let right := {| s_index := 3; s_envindex := 0; s_flags := 0; s_constant := JNil |} in
  let c := Reference.local in
  destructure defleaf None (JInteger 1) right c = (true, janetc_cerror destructure_error c)
  /\ status_is_error (snd (destructure defleaf None (JInteger 1) right c)) = true
  /\ c_buffer (snd (destructure defleaf None (JInteger 1) right c)) = c_buffer c
  /\ (forall rest : list Janet,
         snd (destructure defleaf None (JTuple (JInteger 1 :: rest)) right c)
         = fold_left (sequence_step defleaf None right) (indexed_from 1 rest)
             (let nextright := fst (janetc_farslot c) in
              let fetched :=
                snd (janetc_emit_ssu JOP_GET_INDEX nextright right 0 1
                       (snd (janetc_farslot c))) in
              janetc_freeslot nextright (janetc_cerror destructure_error fetched))).
Proof.
  intros K X right c.
  assert (H : is_binding_pattern (JInteger 1) = false) by reflexivity.
  exact (@destructure_unsupported_pattern K X defleaf None (JInteger 1) right c H).
Defined.

(** In [[1 a]] the element [1] is the error and [a] is bound all the same:
    two elements are fetched, and the name ends up in the scope. *)
Example destructure_goes_on_after_unsupported_element :
  let K := Reference.constants in
  let X := Reference.X 1 in
  let right := {| s_index := 3; s_envindex := 0; s_flags := 0; s_constant := JNil |} in
  let c' :=
    snd (destructure defleaf None (JTuple [JInteger 1; JSymbol "a"]) right Reference.local) in
  (r_error (c_result c'),
   length (List.filter (fun w => Reference.opcode w =? JOP_GET_INDEX) (c_buffer c')),
   map fst (sc_syms (c_scope c')))
  = (destructure_error, 2%nat, ["a"%string]).
Proof. vm_compute. reflexivity. Qed.

(** [(def x :private "doc" 3 (f))] and [(def x (f))]. *)
Lemma handleattr_metadata_witness :
  let K := Reference.constants in
  let X := Reference.X 1 in
  let c := Reference.local in
  let argv := [JSymbol "x"; JSymbol ":private"; JString "doc"; JInteger 3; Reference.call_f] in
  status_is_error (snd (handleattr argv c))
  = negb (forallb is_metadata (attribute_args argv))
  /\ handleattr [JSymbol "x"; Reference.call_f] c = (janet_table 2, c).
Proof.
  intros K X c argv.
  destruct (@handleattr_metadata X argv c) as (_ & _ & _ & _ & Hstatus).
  destruct (@handleattr_metadata X [JSymbol "x"; Reference.call_f] c)
    as (_ & _ & _ & Hnone & _).
  assert (H1 : status_is_error c = false) by reflexivity.
  assert (H2 : argn [JSymbol "x"; Reference.call_f] <= 2) by (vm_compute; discriminate).
  split; [exact (Hstatus H1)|exact (Hnone H2)].
Defined.

Example handleattr_table :
  let K := Reference.constants in
  let X := Reference.X 1 in
  let r :=
    handleattr [JSymbol "x"; JSymbol ":private"; JString "doc"; JInteger 3; Reference.call_f]
      Reference.local in
  (List.filter (fun kv => janet_truthy (fst kv)) (t_data (fst r)), r_error (c_result (snd r)))
  = ([(JSymbol ":private", JBoolean true); (JSymbol "doc", JString "doc")],
     metadata_error).
Proof. vm_compute. reflexivity. Qed.

(** A chain without a function scope, and a [do] inside the root
    function. *)
Lemma janetc_addfuncdef_needs_function_scope_witness :
  let K := Reference.constants in
  let X := Reference.X 1 in
  let def := mkFuncDef 0 0 1 None [] [] in
  let bare := set_scope (scope_set_flags (c_scope Reference.local) 0) Reference.local in
  let c := Reference.scope 0 "do" Reference.after_call in
  janetc_addfuncdef def bare = None
  /\ exists (i : Z) (c' : JanetCompiler),
       janetc_addfuncdef def c = Some (i, c')
       /\ 0 <= i
       /\ length (chain c') = length (chain c)
       /\ map sc_flags (chain c') = map sc_flags (chain c)
       /\ c_buffer c' = c_buffer c
       /\ c_result c' = c_result c
       /\ c_env c' = c_env c
       /\ (exists (pre : list JanetScope) (f : JanetScope) (post : list JanetScope),
              chain c = pre ++ f :: post
              /\ no_function_scope pre
              /\ is_function_scope f = true
              /\ i = janet_v_count (sc_defs f)
              /\ chain c' = pre ++ scope_set_defs f (sc_defs f ++ [def]) :: post)
       /\ map sc_syms (chain c') = map sc_syms (chain c)
       /\ map sc_ra (chain c') = map sc_ra (chain c)
       /\ map sc_name (chain c') = map sc_name (chain c)
       /\ map sc_bytecode_start (chain c') = map sc_bytecode_start (chain c)
       /\ c_mapbuffer c' = c_mapbuffer c
       /\ c_current_mapping c' = c_current_mapping c
       /\ c_buffer_null c' = c_buffer_null c
       /\ c_mapbuffer_null c' = c_mapbuffer_null c.
Proof.
  intros K X def bare c.
  assert (H1 : no_function_scope (chain bare))
    by (constructor; [vm_compute; reflexivity|constructor]).
  assert (H2 : ~ no_function_scope (chain c)).
  { intros Hnone. apply Forall_cons in Hnone. destruct Hnone as [_ Hnone].
    apply Forall_cons in Hnone. destruct Hnone as [Hroot _].
    vm_compute in Hroot. discriminate. }
  destruct (@janetc_addfuncdef_needs_function_scope K def bare) as (Hfail & _).
  destruct (@janetc_addfuncdef_needs_function_scope K def c) as (_ & Hsome & _).
  split; [exact (Hfail H1)|exact (Hsome H2)].
Defined.

(** Two definitions registered from inside a [do] of the root function. *)
Lemma janetc_addfuncdef_consecutive_witness :
  let K := Reference.constants in
  let X := Reference.X 1 in
  let d1 := mkFuncDef 0 0 1 (Some "first"%string) [] [] in
  let d2 := mkFuncDef 0 0 1 (Some "second"%string) [] [] in
  let c := Reference.scope 0 "do" Reference.after_call in
  let f := c_scope Reference.after_call in
  let n := janet_v_count (sc_defs f) in
  exists c1 c2 : JanetCompiler,
    janetc_addfuncdef d1 c = Some (n, c1)
    /\ janetc_addfuncdef d2 c1 = Some (n + 1, c2)
    /\ chain c2 = [c_scope c] ++ scope_set_defs f (sc_defs f ++ [d1; d2]) :: []
    /\ (sc_defs f ++ [d1; d2]) !! Z.to_nat n = Some d1
    /\ (sc_defs f ++ [d1; d2]) !! Z.to_nat (n + 1) = Some d2
    /\ (forall (j : nat) (d : JanetFuncDef),
           sc_defs f !! j = Some d -> (sc_defs f ++ [d1; d2]) !! j = Some d).
Proof.
  intros K X d1 d2 c f.
  assert (H1 : chain c = [c_scope c] ++ f :: []) by reflexivity.
  assert (H2 : no_function_scope [c_scope c])
    by (constructor; [vm_compute; reflexivity|constructor]).
  assert (H3 : is_function_scope f = true) by (vm_compute; reflexivity).
  exact (@janetc_addfuncdef_consecutive K d1 d2 c [c_scope c] f [] H1 H2 H3).
Defined.

(** The parameter list [[a b & rest]]. *)
Lemma fn_params_arity_witness :
  let K := Reference.constants in
  let X := Reference.X 1 in
  let params := [JSymbol "a"; JSymbol "b"; JSymbol "&"; JSymbol "rest"] in
  let c := Reference.in_function in
  let c' :=
    match fn_params params 0 (janet_v_count params) 0 0 c with
    | inl (_, c') | inr (_, _, c') => c'
    end in
  0 <= 2
  /\ ((1 = 0 /\ 2 = janet_v_count params /\ existsb is_vararg_marker params = false)
      \/ (1 = 1
          /\ 2 = janet_v_count params - 2
          /\ params !! Z.to_nat 2 = Some (JSymbol "&")
          /\ existsb is_vararg_marker (take (Z.to_nat 2) params) = false)).
Proof.
  intros K X params c c'.
  assert (H : fn_params params 0 (janet_v_count params) 0 0 c = inr (1, 2, c'))
    by (vm_compute; reflexivity).
  exact (@fn_params_arity K X params c c' 1 2 H).
Defined.

(** The body [(f) undefined (g)]: the second form fails, the third is not
    compiled. *)
Lemma fn_body_stops_at_first_error_witness :
  let K := Reference.constants in
  let X := Reference.X 1 in
  let subopts := Reference.fopts_default in
  let c := Reference.in_function in
  let cx :=
    snd (janetc_value (fopts_set_flags subopts JANET_FOPTS_DROP) Reference.unbound
           (compile_dropped subopts [Reference.call_f] c)) in
  fn_body subopts ([Reference.call_f] ++ Reference.unbound :: [Reference.call_g]) c
  = (false, cx).
Proof.
  intros K X subopts c cx.
  assert (H1 : forall n : nat,
             (0 < n <= length [Reference.call_f])%nat ->
             status_is_error (compile_dropped subopts (take n [Reference.call_f]) c) = false).
  { intros n Hn. cbn [length] in Hn. assert (n = 1%nat) as -> by lia.
    vm_compute. reflexivity. }
  assert (H2 : status_is_error cx = true) by (vm_compute; reflexivity).
  destruct (@fn_body_stops_at_first_error K X subopts [Reference.call_f] Reference.unbound
              [Reference.call_g] c H1) as (Hstop & _).
  exact (Hstop H2).
Defined.

(** An elided loop returns the nil slot, like every other. *)
Lemma statements_return_nil_witness :
  let K := Reference.constants in
  let X := Reference.X 1 in
  let argv := [JBoolean false; Reference.call_f] in
  let run := janetc_while Reference.fopts_default argv Reference.local in
  let r := match run with Some (r, _) => r | None => Reference.cslot (JInteger 0) end in
  r = janetc_cslot janet_wrap_nil.
Proof.
  intros K X argv run r.
  destruct (@statements_return_nil K X Reference.fopts_default argv Reference.local)
    as (_ & _ & Hwhile).
  assert (H : janetc_while Reference.fopts_default argv Reference.local
              = Some (r, match run with Some (_, c') => c' | None => Reference.local end))
    by (vm_compute; reflexivity).
  exact (Hwhile r _ H).
Defined.

(** The first two names of the table, a table of two entries, and the entry
    of [while]. *)
Lemma janetc_special_lookup_witness :
  let K := Reference.constants in
  let X := Reference.X 1 in
  let tab := [("def"%string, 1%nat); ("do"%string, 2%nat)] in
  String.ltb ":=" "def" = true
  /\ janet_strbinsearch tab (length tab) "do"
     = List.find (fun item => String.eqb (fst item) "do") tab
  /\ (fst ("while"%string, janetc_while) = "while"%string
      /\ In ("while"%string, janetc_while) janetc_specials).
Proof.
  intros K X tab.
  destruct (@janetc_special_lookup K X) as (Hsorted & Hsearch & Hfound & _).
  assert (H1 : map fst janetc_specials !! 0%nat = Some ":="%string) by reflexivity.
  assert (H2 : map fst janetc_specials !! 1%nat = Some "def"%string) by reflexivity.
  assert (H3 : (0 < 1)%nat) by lia.
  assert (H4 : janetc_special "while" = Some ("while"%string, janetc_while)) by reflexivity.
  assert (H5 : strictly_sorted (map fst tab)).
  { intros i j a b Hi Hj Hlt.
    destruct i as [|[|i]]; destruct j as [|[|j]]; try lia; try discriminate.
    cbn in Hi, Hj. injection Hi as <-. injection Hj as <-. reflexivity. }
  split; [exact (Hsorted 0%nat 1%nat _ _ H1 H2 H3)|].
  split; [exact (Hsearch nat tab "do"%string H5)|exact (Hfound _ _ H4)].
Defined.

(** The order of the table matters: with [do] in front of [def] the search
    for [do] looks at [def] first, goes on behind it and finds nothing. *)
Example janet_strbinsearch_unsorted :
  let tab := [("do"%string, 2%nat); ("def"%string, 1%nat)] in
  janet_strbinsearch tab (length tab) "do" = None
  /\ List.find (fun item => String.eqb (fst item) "do") tab = Some ("do"%string, 2%nat).
Proof. split; reflexivity. Qed.

(** [(if (p) (f) (g))] after one earlier instruction, its value wanted. *)
Lemma if_dynamic_jumps_witness :
  let K := Reference.constants in
  let X := Reference.X 1 in
  let opts := Reference.fopts_default in
  let argv := [Reference.call_p; Reference.call_f; Reference.call_g] in
  exists (r : JanetSlot) (c' : JanetCompiler) (code : list Z),
    janetc_if opts argv Reference.after_call = Some (r, set_buffer code c')
    /\ length code = length (c_buffer c').
Proof.
  intros K X opts argv.
  pose (c := Reference.after_call).
  pose (tail := has_flag (fo_flags opts) JANET_FOPTS_TAIL).
  pose (drop := has_flag (fo_flags opts) JANET_FOPTS_DROP).
  pose (r0 := if drop || tail then (janetc_cslot janet_wrap_nil, c)
              else janetc_gettarget opts c).
  pose (r2 := janetc_value janetc_fopts_default (arg argv 0)
                (janetc_scope 0 "if" (snd r0))).
  pose (r3 := janetc_emit_si JOP_JUMP_IF_NOT (fst r2) 0 0 (snd r2)).
  pose (r4 := janetc_value opts (arg argv 1) (janetc_scope 0 "if-true" (snd r3))).
  pose (c5 := janetc_popscope
                (if negb drop && negb tail then janetc_copy (fst r0) (fst r4) (snd r4)
                 else snd r4)).
  pose (c6 := if negb tail then janetc_emit JOP_JUMP c5 else c5).
  pose (r7 := janetc_value opts (if 2 <? argn argv then arg argv 2 else janet_wrap_nil)
                (janetc_scope 0 "if-false" c6)).
  pose (c8 := janetc_popscope
                (janetc_popscope
                   (if negb drop && negb tail then janetc_copy (fst r0) (fst r7) (snd r7)
                    else snd r7))).
  assert (H1 : 2 <= argn argv <= 3) by (vm_compute; split; discriminate).
  assert (H2 : (if drop || tail then (janetc_cslot janet_wrap_nil, c)
                else janetc_gettarget opts c) = (fst r0, snd r0))
    by (vm_compute; reflexivity).
  assert (H3 : janetc_value janetc_fopts_default (arg argv 0)
                 (janetc_scope 0 "if" (snd r0)) = (fst r2, snd r2))
    by (vm_compute; reflexivity).
  assert (H4 : has_flag (s_flags (fst r2)) JANET_SLOT_CONSTANT = false)
    by (vm_compute; reflexivity).
  assert (H5 : janetc_emit_si JOP_JUMP_IF_NOT (fst r2) 0 0 (snd r2) = (fst r3, snd r3))
    by (vm_compute; reflexivity).
  assert (H6 : janetc_value opts (arg argv 1) (janetc_scope 0 "if-true" (snd r3))
               = (fst r4, snd r4)) by (vm_compute; reflexivity).
  assert (H7 : janetc_value opts (if 2 <? argn argv then arg argv 2 else janet_wrap_nil)
                 (janetc_scope 0 "if-false" c6) = (fst r7, snd r7))
    by (vm_compute; reflexivity).
  assert (H8 : 0 <= fst r3 < janet_v_count (c_buffer c8))
    by (vm_compute; split; [discriminate|reflexivity]).
  assert (H9 : tail = false -> janet_v_count (c_buffer c5) < janet_v_count (c_buffer c8))
    by (intros _; vm_compute; reflexivity).
  pose proof (@if_dynamic_jumps K X opts argv c (fst r0) (fst r2) (fst r4) (fst r7)
                (snd r0) (snd r2) (snd r3) (snd r4) (snd r7) (fst r3)
                H1 H2 H3 H4 H5 H6 H7 H8 H9) as Hjumps.
  cbv zeta in Hjumps.
  destruct Hjumps as (Hrun & Hlength & _).
  eexists _, _, _. split; [exact Hrun|exact Hlength].
Defined.

(** The two jumps of [(if (p) (f) (g))] compiled after one instruction: the
    conditional jump at 2 goes to the false branch at 6, and the jump at 5
    that ends the true branch goes to the end of the code at 8. *)
Example if_jump_displacements :
  let K := Reference.constants in
  let X := Reference.X 1 in
  let argv := [Reference.call_p; Reference.call_f; Reference.call_g] in
  let code :=
    match janetc_if Reference.fopts_default argv Reference.after_call with
    | Some (_, c') => c_buffer c'
    | None => []
    end in
  length code = 8%nat
  /\ (exists w : Z,
         code !! 2%nat = Some w
         /\ Reference.opcode w = JOP_JUMP_IF_NOT /\ 2 + Z.shiftr w 16 = 6)
  /\ (exists w : Z,
         code !! 5%nat = Some w
         /\ Reference.opcode w = JOP_JUMP /\ 5 + Z.shiftr w 8 = 8).
Proof.
  split; [vm_compute; reflexivity|].
  split; eexists; (split; [vm_compute; reflexivity|split; vm_compute; reflexivity]).
Qed.

(** [(while (p) (f))] after one earlier instruction. *)
Lemma while_keeps_earlier_code_witness :
  let K := Reference.constants in
  let X := Reference.X 0 in
  let opts := Reference.fopts_default in
  let argv := [Reference.call_p; Reference.call_f] in
  let c := Reference.after_call in
  exists c' : JanetCompiler,
    janetc_while opts argv c = Some (janetc_cslot janet_wrap_nil, c')
    /\ c_buffer c `prefix_of` c_buffer c'
    /\ (length (c_buffer c) < length (c_buffer c'))%nat.
Proof.
  intros K X opts argv c.
  pose (r2 := janetc_value janetc_fopts_default (arg argv 0) (janetc_scope 0 "while" c)).
  pose (r3 := janetc_emit_si JOP_JUMP_IF_NOT (fst r2) 0 0 (snd r2)).
  assert (H1 : 2 <= argn argv) by (vm_compute; discriminate).
  assert (H2 : janetc_value janetc_fopts_default (arg argv 0) (janetc_scope 0 "while" c)
               = (fst r2, snd r2)) by (vm_compute; reflexivity).
  assert (H3 : (if has_flag (s_flags (fst r2)) JANET_SLOT_CONSTANT
                then (0, snd r2)
                else janetc_emit_si JOP_JUMP_IF_NOT (fst r2) 0 0 (snd r2))
               = (fst r3, snd r3)) by (vm_compute; reflexivity).
  assert (H4 : has_flag (s_flags (fst r2)) JANET_SLOT_CONSTANT
               && negb (janet_truthy (s_constant (fst r2))) = true
               \/ has_flag
                    (sc_flags (c_scope (while_body janetc_fopts_default (drop 1 argv)
                                          (snd r3))))
                    JANET_SCOPE_CLOSURE = false)
    by (right; vm_compute; reflexivity).
  assert (H5 : has_flag (s_flags (fst r2)) JANET_SLOT_CONSTANT
               && negb (janet_truthy (s_constant (fst r2))) = false)
    by (vm_compute; reflexivity).
  destruct (@while_keeps_earlier_code K X opts argv c (fst r2) (snd r2) (snd r3) (fst r3)
              reference_buffer_contract H1 H2 H3 H4) as (c' & Hrun & Hprefix & Hlonger).
  exists c'. split; [exact Hrun|split; [exact Hprefix|exact (Hlonger H5)]].
Defined.

(** [(if (p) (f) (g))] and the malformed [(if)] after one earlier
    instruction. *)
Lemma if_keeps_earlier_code_witness :
  let K := Reference.constants in
  let X := Reference.X 0 in
  let c := Reference.after_call in
  (exists (r : JanetSlot) (c' : JanetCompiler),
      janetc_if Reference.fopts_default
        [Reference.call_p; Reference.call_f; Reference.call_g] c = Some (r, c')
      /\ c_buffer c `prefix_of` c_buffer c')
  /\ (exists (r : JanetSlot) (c' : JanetCompiler),
         janetc_if Reference.fopts_default [] c = Some (r, c')
         /\ c_buffer c `prefix_of` c_buffer c').
Proof.
  intros K X c.
  pose proof (@if_keeps_earlier_code K X Reference.fopts_default
                [Reference.call_p; Reference.call_f; Reference.call_g] c
                reference_buffer_contract) as Hthree.
  pose proof (@if_keeps_earlier_code K X Reference.fopts_default [] c
                reference_buffer_contract) as Hnone.
  exact (conj Hthree Hnone).
Defined.
